(** * HiGHS: simplex analysis, bounded QP starting point, MIP search nodes

    A shallow embedding of three source files of the HiGHS optimisation
    suite and the properties established about them:

    - [src/simplex/HighsSimplexAnalysis.cpp]: [switchToDevex], [intLog10],
      and in the module [Analysis] the other member functions: [setup],
      [messaging], [updateOperationResultDensity],
      [dualSteepestEdgeWeightError], [initialise], the iteration reports
      and, of the code under HiGHSDEV, the two operation records
      ([summaryReport] is left out);
    - [src/qpsolver/feasibility_bounded.hpp]: [computestartingpoint_bounded];
    - [src/mip/SolveMip.h]: [Node], [NodeIndex] and its two sentinels;
      the header declares [NodeStack::chooseBranchingVariable] and holds
      no code for the search, so the Branching Selector, the bound
      deltas and the growth of the tree are modelled from the spec, each
      definition saying so.

    C++ [double] is IEEE 754 binary64, taken from the Standard Library's
    executable specification [SpecFloat]; C++ [int] is a 32-bit two's
    complement integer carried in [Z] with the wrap-around written out. *)

From Stdlib Require Import ZArith List Bool Lia.
From Stdlib Require Import QArith Qround Qabs Lqa.
From Stdlib Require Import Floats.SpecFloat.
From Stdlib Require Strings.String Strings.Ascii.
Import ListNotations.

Local Open Scope Z_scope.

(** ** Machine numbers *)

Module Int.
(** [int] (and [HighsInt], which is [int] unless HIGHSINT64 is set).  C++
    leaves signed overflow undefined; the model gives the operation the
    two's complement result of the machine. *)
Definition min_int : Z := - 2 ^ 31.
Definition max_int : Z := 2 ^ 31 - 1.

Definition in_range (z : Z) : bool := (min_int <=? z) && (z <=? max_int).

(** Two's complement wrap-around of a mathematical result. *)
Definition wrap (z : Z) : Z := (z + 2 ^ 31) mod 2 ^ 32 - 2 ^ 31.

Definition add (a b : Z) : Z := wrap (a + b).
Definition sub (a b : Z) : Z := wrap (a - b).
Definition mul (a b : Z) : Z := wrap (a * b).
End Int.

Module Double.
Definition prec : Z := 53.
Definition emax : Z := 1024.

Definition double : Type := spec_float.

Definition nan : double := S754_nan.
Definition pos_zero : double := S754_zero false.
Definition pos_inf : double := S754_infinity false.
Definition neg_inf : double := S754_infinity true.

Definition add : double -> double -> double := SFadd prec emax.
Definition sub : double -> double -> double := SFsub prec emax.
Definition mul : double -> double -> double := SFmul prec emax.
Definition div : double -> double -> double := SFdiv prec emax.
Definition sqrt : double -> double := SFsqrt prec emax.
Definition fabs : double -> double := SFabs.

(** The four ordered comparisons of C++; each is false when an operand
    is NaN. *)
Definition lt (a b : double) : bool :=
  match SFcompare a b with Some Lt => true | _ => false end.
Definition le (a b : double) : bool :=
  match SFcompare a b with Some (Lt | Eq) => true | _ => false end.
Definition gt (a b : double) : bool :=
  match SFcompare a b with Some Gt => true | _ => false end.
Definition ge (a b : double) : bool :=
  match SFcompare a b with Some (Gt | Eq) => true | _ => false end.

Definition is_nan (a : double) : bool :=
  match a with S754_nan => true | _ => false end.

(** Conversion of an integer to [double] (round to nearest even; exact
    for every [int]). *)
Definition of_int (z : Z) : double := binary_normalize prec emax z 0 false.

(** The integer part of a finite value, rounded toward zero. *)
Definition trunc (s : bool) (m : positive) (e : Z) : Z :=
  cond_Zopp s (Z.shiftl (Zpos m) e).

(** Conversion of a [double] to [int]: the fractional part is discarded;
    C++ leaves the conversion undefined when the truncated value is not
    an [int] (NaN and the infinities included), which is [None] here. *)
Definition to_int (x : double) : option Z :=
  match x with
  | S754_zero _ => Some 0
  | S754_finite s m e =>
      let z := trunc s m e in
      if Int.in_range z then Some z else None
  | S754_infinity _ | S754_nan => None
  end.

(** [std::max] on doubles: [(a < b) ? b : a]. *)
Definition max (a b : double) : double := if lt a b then b else a.

(** The rational number that a finite double is. *)
Definition to_Q (x : double) : option Q :=
  match x with
  | S754_zero _ => Some 0%Q
  | S754_finite s m e => Some (inject_Z (cond_Zopp s (Zpos m)) * 2 ^ e)%Q
  | S754_infinity _ | S754_nan => None
  end.

(** The literal [10E-5], i.e. the double nearest to 1/10000. *)
Definition lit_10Em5 : double :=
  S754_finite false 7378697629483821 (-66).
End Double.

Abbreviation double := Double.double.

(** ** simplex/HighsSimplexAnalysis.cpp *)

Module HighsSimplexAnalysis.

(** The data members that [switchToDevex] reads or writes. *)
Record t : Type := mk {
  numTot : Z;
  allow_dual_steepest_edge_to_devex_switch : bool;
  dual_steepest_edge_weight_log_error_threshhold : double;
  simplex_iteration_count : Z;
  col_aq_density : double;
  row_ep_density : double;
  row_ap_density : double;
  row_DSE_density : double;
  AnIterIt0 : Z;
  AnIterCostlyDseFq : double;
  AnIterCostlyDseMeasure : double;
  AnIterNumCostlyDseIt : Z;
  average_log_low_dual_steepest_edge_weight_error : double;
  average_log_high_dual_steepest_edge_weight_error : double
}.

Definition set_AnIterCostlyDseMeasure (v : double) (a : t) : t :=
  mk a.(numTot) a.(allow_dual_steepest_edge_to_devex_switch)
     a.(dual_steepest_edge_weight_log_error_threshhold)
     a.(simplex_iteration_count) a.(col_aq_density) a.(row_ep_density)
     a.(row_ap_density) a.(row_DSE_density) a.(AnIterIt0)
     a.(AnIterCostlyDseFq) v a.(AnIterNumCostlyDseIt)
     a.(average_log_low_dual_steepest_edge_weight_error)
     a.(average_log_high_dual_steepest_edge_weight_error).

Definition set_AnIterCostlyDseFq (v : double) (a : t) : t :=
  mk a.(numTot) a.(allow_dual_steepest_edge_to_devex_switch)
     a.(dual_steepest_edge_weight_log_error_threshhold)
     a.(simplex_iteration_count) a.(col_aq_density) a.(row_ep_density)
     a.(row_ap_density) a.(row_DSE_density) a.(AnIterIt0)
     v a.(AnIterCostlyDseMeasure) a.(AnIterNumCostlyDseIt)
     a.(average_log_low_dual_steepest_edge_weight_error)
     a.(average_log_high_dual_steepest_edge_weight_error).

Definition set_AnIterNumCostlyDseIt (v : Z) (a : t) : t :=
  mk a.(numTot) a.(allow_dual_steepest_edge_to_devex_switch)
     a.(dual_steepest_edge_weight_log_error_threshhold)
     a.(simplex_iteration_count) a.(col_aq_density) a.(row_ep_density)
     a.(row_ap_density) a.(row_DSE_density) a.(AnIterIt0)
     a.(AnIterCostlyDseFq) a.(AnIterCostlyDseMeasure) v
     a.(average_log_low_dual_steepest_edge_weight_error)
     a.(average_log_high_dual_steepest_edge_weight_error).

Section Constants.
(** The tuning constants are [const double] members initialised in
    HighsSimplexAnalysis.h, which is not among the sources at hand:
    they are parameters of the model. *)
Variable running_average_multiplier : double.
Variable AnIterCostlyDseMeasureLimit : double.
Variable AnIterCostlyDseMnDensity : double.
Variable AnIterFracNumTot_ItBfSw : double.
Variable AnIterFracNumCostlyDseItbfSw : double.

(** [bool HighsSimplexAnalysis::switchToDevex()]: the returned flag and
    the object after the call.  Logging under HiGHSDEV has no effect on
    either. *)
Definition switchToDevex (a : t) : bool * t :=
  let switch_to_devex := false in
  (* Firstly consider switching on the basis of NLA cost *)
  let AnIterCostlyDseMeasureDen :=
    Double.max (Double.max a.(row_ep_density) a.(col_aq_density))
               a.(row_ap_density) in
  let a :=
    if Double.gt AnIterCostlyDseMeasureDen (Double.of_int 0) then
      let a := set_AnIterCostlyDseMeasure
                 (Double.div a.(row_DSE_density) AnIterCostlyDseMeasureDen) a in
      set_AnIterCostlyDseMeasure
        (Double.mul a.(AnIterCostlyDseMeasure) a.(AnIterCostlyDseMeasure)) a
    else
      set_AnIterCostlyDseMeasure (Double.of_int 0) a in
  let CostlyDseIt :=
    Double.gt a.(AnIterCostlyDseMeasure) AnIterCostlyDseMeasureLimit &&
    Double.gt a.(row_DSE_density) AnIterCostlyDseMnDensity in
  let a :=
    set_AnIterCostlyDseFq
      (Double.mul (Double.sub (Double.of_int 1) running_average_multiplier)
                  a.(AnIterCostlyDseFq)) a in
  let '(switch_to_devex, a) :=
    if CostlyDseIt then
      let a := set_AnIterNumCostlyDseIt (Int.add a.(AnIterNumCostlyDseIt) 1) a in
      let a :=
        set_AnIterCostlyDseFq
          (Double.add a.(AnIterCostlyDseFq)
             (Double.mul running_average_multiplier (Double.of_int 1))) a in
      let lcNumIter := Int.sub a.(simplex_iteration_count) a.(AnIterIt0) in
      (* Switch to Devex if at least 5% of the (at least) 0.1NumTot
         iterations have been costly *)
      (a.(allow_dual_steepest_edge_to_devex_switch) &&
       Double.gt (Double.of_int a.(AnIterNumCostlyDseIt))
                 (Double.mul (Double.of_int lcNumIter)
                             AnIterFracNumCostlyDseItbfSw) &&
       Double.gt (Double.of_int lcNumIter)
                 (Double.mul AnIterFracNumTot_ItBfSw
                             (Double.of_int a.(numTot))),
       a)
    else (switch_to_devex, a) in
  let switch_to_devex :=
    if negb switch_to_devex then
      (* Secondly consider switching on the basis of weight accuracy *)
      let dse_weight_error_measure :=
        Double.add a.(average_log_low_dual_steepest_edge_weight_error)
                   a.(average_log_high_dual_steepest_edge_weight_error) in
      let dse_weight_error_threshhold :=
        a.(dual_steepest_edge_weight_log_error_threshhold) in
      a.(allow_dual_steepest_edge_to_devex_switch) &&
      Double.gt dse_weight_error_measure dse_weight_error_threshhold
    else switch_to_devex in
  (switch_to_devex, a).
End Constants.

Section Log.
(** [log] is the C library's natural logarithm on doubles.  It is not
    code of this repository; ISO C (Annex F) fixes its value on the
    special operands, and its values on the finite positive doubles
    are a parameter. *)
Variable log_finite : positive -> Z -> double.

Definition log (x : double) : double :=
  match x with
  | S754_nan => Double.nan
  | S754_zero _ => Double.neg_inf
  | S754_infinity false => Double.pos_inf
  | S754_infinity true => Double.nan
  | S754_finite true _ _ => Double.nan
  | S754_finite false m e => log_finite m e
  end.

(** [int HighsSimplexAnalysis::intLog10(const double v)].  The
    initialisation of [intLog10V] from the quotient converts a double
    to [int]; [None] is the undefined conversion. *)
Definition intLog10 (v : double) : option Z :=
  let intLog10V := Some (-99) in
  let intLog10V :=
    if Double.gt v (Double.of_int 0)
    then Double.to_int (Double.div (log v) (log (Double.of_int 10)))
    else intLog10V in
  intLog10V.
End Log.

End HighsSimplexAnalysis.

(** ** qpsolver/feasibility_bounded.hpp *)

Module Size.
(** [size_t]: 64-bit unsigned, arithmetic modulo [2 ^ 64]. *)
Definition wrap (z : Z) : Z := z mod 2 ^ 64.
(** Conversion of an [int] (or of a [std::vector] size) to [size_t]. *)
Definition of_int (z : Z) : Z := wrap z.
Definition add (a b : Z) : Z := wrap (a + b).
Definition mul (a b : Z) : Z := wrap (a * b).
End Size.

(** How a run of the function ends: normally, in the failed [assert], or
    in a fault (an element access outside a vector, which C++ leaves
    undefined, or a vector size that cannot be allocated). *)
Inductive result (A : Type) : Type :=
| Done (a : A)
| AssertionFailure
| Fault.
Arguments Done {A} a.
Arguments AssertionFailure {A}.
Arguments Fault {A}.

Definition bind {A B : Type} (m : result A) (k : A -> result B) : result B :=
  match m with
  | Done a => k a
  | AssertionFailure => AssertionFailure
  | Fault => Fault
  end.

Notation "x <- m ;; k" := (bind m (fun x => k))
  (at level 61, m at next level, right associativity).

(** [v[i]] for a [std::vector] and a [size_t] index. *)
Definition at_ {A : Type} (v : list A) (i : Z) : result A :=
  if i <? 0 then Fault
  else match nth_error v (Z.to_nat i) with
       | Some x => Done x
       | None => Fault
       end.

Fixpoint list_set {A : Type} (v : list A) (n : nat) (x : A) : list A :=
  match v, n with
  | [], _ => []
  | _ :: t, O => x :: t
  | h :: t, S n' => h :: list_set t n' x
  end.

(** [v[i] = x]. *)
Definition store {A : Type} (v : list A) (i : Z) (x : A) : result (list A) :=
  if (0 <=? i) && (i <? Z.of_nat (length v))
  then Done (list_set v (Z.to_nat i) x)
  else Fault.

(** [v.resize(n)] on an empty vector, [n] already a [size_t]: sizes
    beyond [int] are taken as impossible to allocate. *)
Definition resize {A : Type} (n : Z) (x : A) : result (list A) :=
  if n <=? Int.max_int then Done (repeat x (Z.to_nat n)) else Fault.

Section Loops.
Context {S : Type}.

(** [n] passes of [body], the counter starting at [i] and moving by
    [step]; a pass that does not end normally ends the loop. *)
Fixpoint iterate (n : nat) (i step : Z) (body : Z -> S -> result S) (s : S)
  : result S :=
  match n with
  | O => Done s
  | Datatypes.S n' => s' <- body i s ;; iterate n' (i + step) step body s'
  end.

(** [for (i = lo; i < hi; i++) body] *)
Definition for_up (lo hi : Z) (body : Z -> S -> result S) (s : S) : result S :=
  iterate (Z.to_nat (hi - lo)) lo 1 body s.

(** [for (i = hi; i >= lo; i--) body] *)
Definition for_down (hi lo : Z) (body : Z -> S -> result S) (s : S) : result S :=
  iterate (Z.to_nat (hi - lo + 1)) hi (-1) body s.
End Loops.

Module Qp.

(** Modelled from the spec: the enumerations and classes below are
    declared in headers of qpsolver/ that are not under src/, and the
    spec only names what the routine returns (a point, the variables
    active at their bounds, a status).  Each has the enumerators and
    members that [computestartingpoint_bounded] names, and one
    enumerator more stands for all the others. *)
Inductive QpModelStatus : Type :=
| OPTIMAL
| OtherModelStatus (code : Z).

Inductive BasisStatus : Type :=
| ActiveAtLower
| ActiveAtUpper
| OtherBasisStatus (code : Z).

(** Modelled from the spec: [Vector] (qpsolver/vector.hpp, not under
    src/) is a sparse vector kept in dense storage: [value] holds all
    [dim] entries and [index] lists the [num_nz] positions recorded as
    nonzero. *)
Record Vector : Type := mkVector {
  dim : Z;
  num_nz : Z;
  index : list Z;
  value : list double
}.

(** Modelled from the spec: the constructor [Vector(d)] gives the zero
    vector of dimension [d] with no nonzero recorded. *)
Definition Vector_new (d : Z) : result Vector :=
  index' <- resize (Size.of_int d) 0 ;;
  value' <- resize (Size.of_int d) Double.pos_zero ;;
  Done (mkVector d 0 index' value').

(** Column-wise sparse storage of [instance.Q.mat]. *)
Record MatrixBase : Type := mkMatrixBase {
  mat_start : list Z;
  mat_index : list Z;
  mat_value : list double
}.

Record Matrix : Type := mkMatrix { mat : MatrixBase }.

Record Instance : Type := mkInstance {
  num_var : Z;
  num_con : Z;
  c : Vector;
  Q : Matrix;
  var_lo : list double;
  var_up : list double
}.

Record QpHotstartInformation : Type := mkQpHotstartInformation {
  status : list BasisStatus;
  active : list Z;
  inactive : list Z;
  primal : Vector;
  rowact : Vector
}.

(** *** Lines 12-31: Cholesky factor of Q *)

(** One entry [idx] of column [col]. *)
Definition cholesky_entry (instance : Instance) (col idx : Z) (L : list double)
  : result (list double) :=
  let n := Size.of_int instance.(num_var) in
  let sum := Double.of_int 0 in
  r <- at_ instance.(Q).(mat).(mat_index) idx ;;
  let row := Size.of_int r in
  if row =? col then
    sum <- for_up 0 row (fun k sum =>
             a <- at_ L (Size.add (Size.mul k n) row) ;;
             Done (Double.add sum (Double.mul a a))) sum ;;
    v <- at_ instance.(Q).(mat).(mat_value) idx ;;
    store L (Size.add (Size.mul row n) row) (Double.sqrt (Double.sub v sum))
  else
    sum <- for_up 0 row (fun k sum =>
             a <- at_ L (Size.add (Size.mul k n) col) ;;
             b <- at_ L (Size.add (Size.mul k n) row) ;;
             Done (Double.add sum (Double.mul a b))) sum ;;
    v <- at_ instance.(Q).(mat).(mat_value) idx ;;
    d <- at_ L (Size.add (Size.mul row n) row) ;;
    store L (Size.add (Size.mul row n) col) (Double.div (Double.sub v sum) d).

Definition cholesky (instance : Instance) : result (list double) :=
  L <- resize (Size.of_int (Int.mul instance.(num_var) instance.(num_var)))
              Double.pos_zero ;;
  for_up 0 (Size.of_int instance.(num_var)) (fun col L =>
    lo <- at_ instance.(Q).(mat).(mat_start) col ;;
    hi <- at_ instance.(Q).(mat).(mat_start) (Size.add col 1) ;;
    for_up (Size.of_int lo) (Size.of_int hi) (cholesky_entry instance col) L) L.

(** *** Lines 33-48: the two triangular solves *)

Definition L_at (instance : Instance) (L : list double) (i j : Z) : result double :=
  at_ L (Size.of_int (Int.add (Int.mul i instance.(num_var)) j)).

Definition forward_solve (instance : Instance) (L : list double)
           (res_dim : Z) (res_value : list double) : result (list double) :=
  for_up 0 res_dim (fun r res_value =>
    res_value <- for_up 0 r (fun j res_value =>
        xr <- at_ res_value (Size.of_int r) ;;
        xj <- at_ res_value (Size.of_int j) ;;
        l <- L_at instance L j r ;;
        store res_value (Size.of_int r) (Double.sub xr (Double.mul xj l)))
      res_value ;;
    xr <- at_ res_value (Size.of_int r) ;;
    l <- L_at instance L r r ;;
    store res_value (Size.of_int r) (Double.div xr l)) res_value.

Definition backward_solve (instance : Instance) (L : list double)
           (res_dim : Z) (res_value : list double) : result (list double) :=
  for_down (Int.sub res_dim 1) 0 (fun i res_value =>
    let sum := Double.pos_zero in
    sum <- for_down (Int.sub res_dim 1) (i + 1) (fun j sum =>
        xj <- at_ res_value (Size.of_int j) ;;
        l <- L_at instance L i j ;;
        Done (Double.add sum (Double.mul xj l))) sum ;;
    xi <- at_ res_value (Size.of_int i) ;;
    l <- L_at instance L i i ;;
    store res_value (Size.of_int i) (Double.div (Double.sub xi sum) l)) res_value.

(** *** Lines 50-73: projection onto the bounds *)

Record projection : Type := mkProjection {
  res_value : list double;
  x0 : Vector;
  initialactive : list Z;
  initialinactive : list Z;
  atlower : list BasisStatus
}.

Definition project_step (instance : Instance) (i : Z) (p : projection)
  : result projection :=
  let k := Size.of_int i in
  r <- at_ p.(res_value) k ;;
  lo <- at_ instance.(var_lo) k ;;
  p <- (if Double.le r lo then
          res_value' <- store p.(res_value) k lo ;;
          Done (mkProjection res_value' p.(x0)
                  (p.(initialactive) ++ [Int.add i instance.(num_con)])
                  p.(initialinactive)
                  (p.(atlower) ++ [ActiveAtLower]))
        else
          up <- at_ instance.(var_up) k ;;
          if Double.ge r up then
            res_value' <- store p.(res_value) k up ;;
            Done (mkProjection res_value' p.(x0)
                    (p.(initialactive) ++ [Int.add i instance.(num_con)])
                    p.(initialinactive)
                    (p.(atlower) ++ [ActiveAtUpper]))
          else
            Done (mkProjection p.(res_value) p.(x0)
                    p.(initialactive)
                    (p.(initialinactive) ++ [Int.add i instance.(num_con)])
                    p.(atlower))) ;;
  r <- at_ p.(res_value) k ;;
  if Double.gt (Double.fabs r) Double.lit_10Em5 then
    value' <- store p.(x0).(value) k r ;;
    index' <- store p.(x0).(index) (Size.of_int p.(x0).(num_nz)) i ;;
    Done (mkProjection p.(res_value)
            (mkVector p.(x0).(dim) (Int.add p.(x0).(num_nz) 1) index' value')
            p.(initialactive) p.(initialinactive) p.(atlower))
  else Done p.

(** Lines 12-48: the point [res] before the projection. *)
Definition unprojected_point (instance : Instance) : result (list double) :=
  (* compute cholesky factorization of Q *)
  L <- cholesky instance ;;
  (* solve for c *)
  let res := instance.(c) in
  res1 <- forward_solve instance L res.(dim) res.(value) ;;
  backward_solve instance L res.(dim) res1.

(** *** The whole routine

    [settings], [stats] and [timer] are not used; [modelstatus] is
    passed by reference and comes back with the hot start information,
    all of whose members the routine assigns. *)
Definition computestartingpoint_bounded
           (instance : Instance) (modelstatus : QpModelStatus)
  : result (QpModelStatus * QpHotstartInformation) :=
  res2 <- unprojected_point instance ;;
  (* project solution to bounds and collect active bounds *)
  x0' <- Vector_new instance.(num_var) ;;
  ra <- Vector_new instance.(num_con) ;;
  p <- for_up 0 instance.(num_var) (project_step instance)
         (mkProjection res2 x0' [] [] []) ;;
  (* if no bounds are active, solution lies in the interior -> optimal *)
  let modelstatus :=
    if Z.of_nat (length p.(initialactive)) =? 0 then OPTIMAL else modelstatus in
  if Int.wrap (Z.of_nat (length p.(initialactive))
               + Z.of_nat (length p.(initialinactive)))
     =? instance.(num_var)
  then Done (modelstatus,
             mkQpHotstartInformation p.(atlower) p.(initialactive)
               p.(initialinactive) p.(x0) ra)
  else AssertionFailure.

End Qp.

(** ** mip/SolveMip.h *)

Module Mip.

Local Open Scope Q_scope.

(** [struct Node].  A [std::unique_ptr<Node>] is an optional owned
    subtree. *)
#[warnings="-register-all"]
Inductive Node : Type := mkNode {
  id : Z;
  parent_id : Z;
  level : Z;
  integer_variables : list Z;
  primal_solution : list double;
  (* Minimal information about changes. Just bounds for the moment. *)
  cow_lower_bound : list double;
  col_upper_bound : list double;
  left_child : option Node;
  right_child : option Node
}.

(** [Node(int parent, int index, int depth)]: the three scalar members
    are initialised, the vectors start empty and the children null. *)
Definition Node_new (parent index depth : Z) : Node :=
  mkNode index parent depth [] [] [] [] None None.

Definition NodeIndex : Type := Z.
Definition kNoNodeIndex : NodeIndex := (-1)%Z.
Definition kNodeIndexError : NodeIndex := (-2)%Z.

(** *** Bound Delta Store *)

(** Modelled from the spec: the bound delta of a node, which SolveMip.h
    does not declare: a sparse record of {variable index -> new lower
    bound} and {variable index -> new upper bound} applied at this node
    only, relative to the parent's effective bounds.  The spec states
    bounds, floors, ceilings and intervals on exact values: a bound is
    carried as the rational number it is. *)
Record BoundDelta : Type := mkBoundDelta {
  new_lower : list (Z * Q);
  new_upper : list (Z * Q)
}.

(** Modelled from the spec: effective bounds, the lower and upper bound
    vectors over all variables. *)
Definition Bounds : Type := (list Q * list Q)%type.

(** The bound of variable [v] in a bound vector, and its replacement;
    an index outside the vector has no bound and replaces nothing. *)
Definition bound_at (b : list Q) (v : Z) : option Q :=
  if (v <? 0)%Z then None else nth_error b (Z.to_nat v).

Definition set_bound (b : list Q) (e : Z * Q) : list Q :=
  if (fst e <? 0)%Z then b else list_set b (Z.to_nat (fst e)) (snd e).

(** Modelled from the spec: applying one delta to the accumulated
    bounds of the parent. *)
Definition apply_delta (d : BoundDelta) (b : Bounds) : Bounds :=
  (fold_left set_bound d.(new_lower) (fst b),
   fold_left set_bound d.(new_upper) (snd b)).

(** Modelled from the spec: [materialize], strategy (a): the chain of
    deltas from the root to the node is composed on demand, starting
    from the root's delta, which is the full original bound vector. *)
Definition materialize (root : Bounds) (chain : list BoundDelta) : Bounds :=
  fold_left (fun b d => apply_delta d b) chain root.

(** A delta that changes no bound. *)
Definition delta_is_empty (d : BoundDelta) : bool :=
  match d.(new_lower), d.(new_upper) with
  | [], [] => true
  | _, _ => false
  end.

(** The values of variable [v] that the bounds [b] allow. *)
Definition feasible (b : Bounds) (v : Z) (y : Q) : Prop :=
  exists l u, bound_at (fst b) v = Some l /\ bound_at (snd b) v = Some u /\
              l <= y /\ y <= u.

(** [b'] never loosens a bound of [b]. *)
Definition no_looser (b' b : Bounds) : Prop :=
  length (fst b') = length (fst b) /\ length (snd b') = length (snd b) /\
  forall w l u, bound_at (fst b) w = Some l -> bound_at (snd b) w = Some u ->
    exists l' u', bound_at (fst b') w = Some l' /\ bound_at (snd b') w = Some u' /\
                  l <= l' /\ u' <= u.

(** [b'] is strictly tighter than [b] on variable [w]. *)
Definition strictly_tighter_at (b' b : Bounds) (w : Z) : Prop :=
  exists l u l' u', bound_at (fst b) w = Some l /\ bound_at (snd b) w = Some u /\
    bound_at (fst b') w = Some l' /\ bound_at (snd b') w = Some u' /\
    (l < l' \/ u' < u).

(** *** Branching Selector *)

(** Modelled from the spec: the relaxation value of variable [v] at a
    solved node, as the number that the stored double is; there is none
    when the entry is missing, infinite or NaN. *)
Definition relaxation_value (node : Node) (v : Z) : option Q :=
  if (v <? 0)%Z then None
  else match nth_error node.(primal_solution) (Z.to_nat v) with
       | Some d => Double.to_Q d
       | None => None
       end.

(** Modelled from the spec: [round] to the nearest integer (halves away
    from zero, as [std::round]) and the fractional distance
    [|x - round(x)|] of a relaxation value. *)
Definition round (x : Q) : Z :=
  if Qle_bool 0 x then Qfloor (x + (1 # 2)) else Qceiling (x - (1 # 2)).

Definition fractional_distance (x : Q) : Q := Qabs (x - inject_Z (round x)).

Definition Qlt_bool (a b : Q) : bool := negb (Qle_bool b a).

(** Modelled from the spec: a variable is fractional when its
    relaxation value is farther than the tolerance from the nearest
    integer, [|x - round(x)| > eps]. *)
Definition is_fractional (eps : Q) (node : Node) (v : Z) : bool :=
  match relaxation_value node v with
  | Some x => Qlt_bool eps (fractional_distance x)
  | None => false
  end.

(** Modelled from the spec: branching is impossible on a variable whose
    current bounds are a singleton ([lower == upper]); a variable
    outside the bound vectors has no bounds to split either. *)
Definition splittable (b : Bounds) (v : Z) : bool :=
  match bound_at (fst b) v, bound_at (snd b) v with
  | Some l, Some u => negb (Qeq_bool l u)
  | _, _ => false
  end.

(** Modelled from the spec: the fractional distance of the relaxation
    value of variable [v]. *)
Definition distance_of (node : Node) (v : Z) : Q :=
  match relaxation_value node v with
  | Some x => fractional_distance x
  | None => 0
  end.

(** Modelled from the spec: the outcome of the selection.  SolveMip.h
    declares [chooseBranchingVariable] with result type [NodeIndex] and
    has no body for it; the spec gives the three outcomes and leaves
    their encoding as a [NodeIndex] open, so the model returns the
    outcome itself. *)
Inductive Selection : Type :=
| Selected (v : Z)
| IntegerFeasible
| InfeasibleByBounds.

(** Modelled from the spec: the better of the best candidate so far and
    [v]: larger fractional distance first, lower variable index on a
    tie. *)
Definition better (node : Node) (best : option Z) (v : Z) : option Z :=
  match best with
  | None => Some v
  | Some w =>
      if Qlt_bool (distance_of node w) (distance_of node v) then Some v
      else if Qeq_bool (distance_of node w) (distance_of node v) && (v <? w)%Z
           then Some v
           else Some w
  end.

(** Modelled from the spec: most-fractional rule over
    [integer_variables], ties broken by lowest variable index;
    fractional variables whose bounds are a singleton are skipped; no
    fractional variable at all means the solution is integer-feasible,
    none left after skipping means infeasible-by-bounds. *)
Definition chooseBranchingVariable (node : Node) (integer_variables : list Z)
           (b : Bounds) (eps : Q) : Selection :=
  let fractional := filter (is_fractional eps node) integer_variables in
  let candidates := filter (splittable b) fractional in
  match fractional with
  | [] => IntegerFeasible
  | _ :: _ =>
      match fold_left (better node) candidates None with
      | Some v => Selected v
      | None => InfeasibleByBounds
      end
  end.

(** Modelled from the spec: [floor(x)] and [ceil(x)] as bounds. *)
Definition floor (x : Q) : Q := inject_Z (Qfloor x).
Definition ceil (x : Q) : Q := inject_Z (Qceiling x).

(** Modelled from the spec: the two child bound deltas for variable [v]
    at value [x]: the left (floor) child tightens the upper bound of [v]
    to [floor(x)], the right (ceil) child tightens the lower bound of
    [v] to [ceil(x)]. *)
Definition branch_deltas (v : Z) (x : Q) : BoundDelta * BoundDelta :=
  (mkBoundDelta [] [(v, floor x)], mkBoundDelta [(v, ceil x)] []).

(** Modelled from the spec: the Branching Selector on a solved node with
    effective bounds [b]: the chosen variable, its relaxation value and
    the two child bound deltas, when it branches. *)
Definition branch (node : Node) (b : Bounds) (eps : Q)
  : option (Z * Q * (BoundDelta * BoundDelta)) :=
  match chooseBranchingVariable node node.(integer_variables) b eps with
  | Selected v =>
      match relaxation_value node v with
      | Some x => Some (v, x, branch_deltas v x)
      | None => None
      end
  | _ => None
  end.

(** *** Growth of the tree *)

(** Modelled from the spec: the root is created once, with no parent and
    level 0; a child is created from its parent with the next
    identifier and level [parent.level + 1], and inherits the integer
    variables. *)
Definition make_root (integer_variables : list Z) : Node :=
  let n := Node_new kNoNodeIndex 0 0 in
  mkNode n.(id) n.(parent_id) n.(level) integer_variables
         n.(primal_solution) n.(cow_lower_bound) n.(col_upper_bound)
         n.(left_child) n.(right_child).

Definition make_child (parent : Node) (index : Z) : Node :=
  let n := Node_new parent.(id) index (parent.(level) + 1)%Z in
  mkNode n.(id) n.(parent_id) n.(level) parent.(integer_variables)
         n.(primal_solution) n.(cow_lower_bound) n.(col_upper_bound)
         n.(left_child) n.(right_child).

Definition set_left_child (n : Node) (c : option Node) : Node :=
  mkNode n.(id) n.(parent_id) n.(level) n.(integer_variables)
         n.(primal_solution) n.(cow_lower_bound) n.(col_upper_bound)
         c n.(right_child).

Definition set_right_child (n : Node) (c : option Node) : Node :=
  mkNode n.(id) n.(parent_id) n.(level) n.(integer_variables)
         n.(primal_solution) n.(cow_lower_bound) n.(col_upper_bound)
         n.(left_child) c.

(** The child in one direction ([false]: left, [true]: right). *)
Definition child (n : Node) (right : bool) : option Node :=
  if right then n.(right_child) else n.(left_child).

Definition set_child (n : Node) (right : bool) (c : option Node) : Node :=
  if right then set_right_child n c else set_left_child n c.

(** The node reached from [t] by a path of directions. *)
Fixpoint node_at (path : list bool) (t : Node) : option Node :=
  match path with
  | [] => Some t
  | d :: path' =>
      match child t d with
      | Some c => node_at path' c
      | None => None
      end
  end.

(** Modelled from the spec: branching at the childless node reached by
    [path] gives it two children, numbered [next] and [next + 1]. *)
Fixpoint expand_at (path : list bool) (next : Z) (t : Node) : option Node :=
  match path with
  | [] =>
      match t.(left_child), t.(right_child) with
      | None, None =>
          Some (set_right_child
                  (set_left_child t (Some (make_child t next)))
                  (Some (make_child t (next + 1)%Z)))
      | _, _ => None
      end
  | d :: path' =>
      match child t d with
      | Some c =>
          match expand_at path' next c with
          | Some c' => Some (set_child t d (Some c'))
          | None => None
          end
      | None => None
      end
  end.

(** Modelled from the spec: the trees the search can build, with the
    number of nodes created so far, from which identifiers are drawn. *)
Inductive grown : Node -> Z -> Prop :=
| grown_root (integer_variables : list Z) :
    grown (make_root integer_variables) 1
| grown_branch (t t' : Node) (k : Z) (path : list bool) :
    grown t k -> expand_at path k t = Some t' -> grown t' (k + 2).

End Mip.

(** ** simplex/HighsSimplexAnalysis.cpp: the other member functions *)

Module HighsLp.
(** The members of [HighsLp] that [setup] reads. *)
Record t : Type := mk { numRow_ : Z; numCol_ : Z }.
End HighsLp.

Module HighsOptions.
(** The members of [HighsOptions] that [setup] reads; a [FILE*] is an
    opaque handle. *)
Record t : Type := mk {
  simplex_dual_edge_weight_strategy : Z;
  dual_steepest_edge_weight_log_error_threshhold : double;
  logfile : Z;
  output : Z;
  message_level : Z
}.
End HighsOptions.

Module Analysis.
Import String.

(** [DualEdgeWeightMode], with the enumerators that the file names. *)
Inductive DualEdgeWeightMode : Type :=
| DANTZIG
| DEVEX
| STEEPEST_EDGE.

(** The measures of the accuracy of the steepest edge weights, but for
    the two logarithmic averages, which [HighsSimplexAnalysis.t] holds
    because [switchToDevex] reads them. *)
Record Weights : Type := mkWeights {
  num_dual_steepest_edge_weight_check : Z;
  num_dual_steepest_edge_weight_reject : Z;
  num_wrong_low_dual_steepest_edge_weight : Z;
  num_wrong_high_dual_steepest_edge_weight : Z;
  average_frequency_low_dual_steepest_edge_weight : double;
  average_frequency_high_dual_steepest_edge_weight : double;
  max_average_frequency_low_dual_steepest_edge_weight : double;
  max_average_frequency_high_dual_steepest_edge_weight : double;
  max_sum_average_frequency_extreme_dual_steepest_edge_weight : double;
  max_average_log_low_dual_steepest_edge_weight_error : double;
  max_average_log_high_dual_steepest_edge_weight_error : double;
  max_sum_average_log_extreme_dual_steepest_edge_weight_error : double
}.

(** The members that the iteration reports read or write. *)
Record Report : Type := mkReport {
  logfile : Z;
  output : Z;
  message_level : Z;
  previous_iteration_report_header_iteration_count : Z;
  solve_phase : Z;
  objective_value : double;
  invert_hint : Z;
  numerical_trouble : double;
  pivotal_row_index : Z;
  leaving_variable : Z;
  entering_variable : Z;
  primal_delta : double;
  dual_step : double;
  primal_step : double;
  pivot_value_from_column : double;
  edge_weight_mode : DualEdgeWeightMode;
  freelist_size : Z
}.

(** The object: the members above, grouped by the functions that use
    them; the class itself is flat. *)
Record object : Type := mkObject {
  core : HighsSimplexAnalysis.t;
  numRow : Z;
  numCol : Z;
  weights : Weights;
  report : Report
}.

Definition set_core (c : HighsSimplexAnalysis.t) (o : object) : object :=
  mkObject c o.(numRow) o.(numCol) o.(weights) o.(report).

Definition set_weights (w : Weights) (o : object) : object :=
  mkObject o.(core) o.(numRow) o.(numCol) w o.(report).

Definition set_report (r : Report) (o : object) : object :=
  mkObject o.(core) o.(numRow) o.(numCol) o.(weights) r.

Definition set_previous_iteration_report_header_iteration_count
           (v : Z) (r : Report) : Report :=
  mkReport r.(logfile) r.(output) r.(message_level) v
           r.(solve_phase) r.(objective_value) r.(invert_hint)
           r.(numerical_trouble) r.(pivotal_row_index) r.(leaving_variable)
           r.(entering_variable) r.(primal_delta) r.(dual_step)
           r.(primal_step) r.(pivot_value_from_column) r.(edge_weight_mode)
           r.(freelist_size).

(** An argument of a call of [HighsPrintMessage] after the format. *)
Inductive arg : Type :=
| Int (z : Z)
| Dbl (d : double).

(** [HighsPrintMessage] is declared in io/HighsIO.h, which is not among
    the sources at hand: a call is recorded with its arguments, and a
    report is the sequence of its calls. *)
Record message : Type := mkMessage {
  to_output : Z;
  with_message_level : Z;
  at_level : Z;
  format : string;
  args : list arg
}.

Definition HighsPrintMessage (output message_level level : Z)
           (format : string) (args : list arg) : list message :=
  [mkMessage output message_level level format args].

(** The string of the one character [\n]. *)
Definition newline : string := String (Ascii.ascii_of_nat 10) EmptyString.

(** The literals [0.99] and [0.01]. *)
Definition lit_0_99 : double := S754_finite false 8917127262193582 (-53).
Definition lit_0_01 : double := S754_finite false 5764607523034235 (-59).

(** [void HighsSimplexAnalysis::messaging(FILE*, FILE*, const int)] *)
Definition messaging (logfile_ output_ message_level_ : Z) (o : object) : object :=
  let r := o.(report) in
  set_report
    (mkReport logfile_ output_ message_level_
       r.(previous_iteration_report_header_iteration_count)
       r.(solve_phase) r.(objective_value) r.(invert_hint)
       r.(numerical_trouble) r.(pivotal_row_index) r.(leaving_variable)
       r.(entering_variable) r.(primal_delta) r.(dual_step)
       r.(primal_step) r.(pivot_value_from_column) r.(edge_weight_mode)
       r.(freelist_size)) o.

Section Constants.
(** Constants of headers that are not among the sources at hand
    (HighsSimplexAnalysis.h, SimplexConst.h, HighsIO.h) are parameters,
    and so is the compile-time switch HiGHSDEV. *)
Variable running_average_multiplier : double.
Variable accept_weight_threshhold : double.
Variable weight_error_threshhold : double.
Variable SIMPLEX_DUAL_EDGE_WEIGHT_STRATEGY_STEEPEST_EDGE : Z.
Variable SIMPLEX_DUAL_EDGE_WEIGHT_STRATEGY_STEEPEST_EDGE_UNIT_INITIAL : Z.
Variable SIMPLEX_DUAL_EDGE_WEIGHT_STRATEGY_STEEPEST_EDGE_TO_DEVEX_SWITCH : Z.
Variable ML_DETAILED : Z.
Variable HiGHSDEV : bool.
(** The C library's [log] on the finite positive doubles. *)
Variable log_finite : positive -> Z -> double.

(** [void HighsSimplexAnalysis::setup(const HighsLp&, const HighsOptions&)] *)
Definition setup (lp : HighsLp.t) (options : HighsOptions.t) (o : object) : object :=
  (* Copy Problem size *)
  let numRow' := lp.(HighsLp.numRow_) in
  let numCol' := lp.(HighsLp.numCol_) in
  let numTot' := Int.add numRow' numCol' in
  (* Copy tolerances from options *)
  let allow :=
    options.(HighsOptions.simplex_dual_edge_weight_strategy)
    =? SIMPLEX_DUAL_EDGE_WEIGHT_STRATEGY_STEEPEST_EDGE_TO_DEVEX_SWITCH in
  let threshhold :=
    options.(HighsOptions.dual_steepest_edge_weight_log_error_threshhold) in
  let o := mkObject o.(core) numRow' numCol' o.(weights) o.(report) in
  let o := messaging options.(HighsOptions.logfile) options.(HighsOptions.output)
                     options.(HighsOptions.message_level) o in
  (* Zero the densities *)
  let zero := Double.of_int 0 in
  let c := o.(core) in
  let dual_edge_weight_strategy :=
    options.(HighsOptions.simplex_dual_edge_weight_strategy) in
  let reset :=
    (dual_edge_weight_strategy =? SIMPLEX_DUAL_EDGE_WEIGHT_STRATEGY_STEEPEST_EDGE)
    || (dual_edge_weight_strategy
        =? SIMPLEX_DUAL_EDGE_WEIGHT_STRATEGY_STEEPEST_EDGE_UNIT_INITIAL)
    || (dual_edge_weight_strategy
        =? SIMPLEX_DUAL_EDGE_WEIGHT_STRATEGY_STEEPEST_EDGE_TO_DEVEX_SWITCH) in
  let c :=
    HighsSimplexAnalysis.mk
      numTot' allow threshhold
      c.(HighsSimplexAnalysis.simplex_iteration_count)
      zero zero zero zero
      c.(HighsSimplexAnalysis.AnIterIt0)
      c.(HighsSimplexAnalysis.AnIterCostlyDseFq)
      c.(HighsSimplexAnalysis.AnIterCostlyDseMeasure)
      c.(HighsSimplexAnalysis.AnIterNumCostlyDseIt)
      (if reset then zero
       else c.(HighsSimplexAnalysis.average_log_low_dual_steepest_edge_weight_error))
      (if reset then zero
       else c.(HighsSimplexAnalysis.average_log_high_dual_steepest_edge_weight_error)) in
  let w :=
    if reset then
      (* Initialise the measures used to analyse accuracy of steepest edge
         weights *)
      mkWeights 0 0 0 0 zero zero zero zero zero zero zero zero
    else o.(weights) in
  let r := set_previous_iteration_report_header_iteration_count (-1) o.(report) in
  mkObject c o.(numRow) o.(numCol) w r.

(** [void HighsSimplexAnalysis::updateOperationResultDensity(const double
    local_density, double& density)]: the new value of [density]. *)
Definition updateOperationResultDensity (local_density density : double) : double :=
  Double.add
    (Double.mul (Double.sub (Double.of_int 1) running_average_multiplier) density)
    (Double.mul running_average_multiplier local_density).

(** [void HighsSimplexAnalysis::dualSteepestEdgeWeightError(const double
    computed_edge_weight, const double updated_edge_weight)].  The
    report under HiGHSDEV is switched off by [report_weight_error =
    false]. *)
Definition dualSteepestEdgeWeightError
           (computed_edge_weight updated_edge_weight : double) (o : object) : object :=
  let w := o.(weights) in
  let c := o.(core) in
  let log := HighsSimplexAnalysis.log log_finite in
  let accept_weight :=
    Double.ge updated_edge_weight
              (Double.mul accept_weight_threshhold computed_edge_weight) in
  let num_check := Int.add w.(num_dual_steepest_edge_weight_check) 1 in
  let num_reject :=
    if negb accept_weight
    then Int.add w.(num_dual_steepest_edge_weight_reject) 1
    else w.(num_dual_steepest_edge_weight_reject) in
  let '(low_weight_error, high_weight_error, average_log_low, average_log_high) :=
    if Double.lt updated_edge_weight computed_edge_weight then
      (* Updated weight is low *)
      let weight_error := Double.div computed_edge_weight updated_edge_weight in
      (if Double.gt weight_error weight_error_threshhold then 1 else 0,
       0,
       Double.add
         (Double.mul lit_0_99
            c.(HighsSimplexAnalysis.average_log_low_dual_steepest_edge_weight_error))
         (Double.mul lit_0_01 (log weight_error)),
       c.(HighsSimplexAnalysis.average_log_high_dual_steepest_edge_weight_error))
    else
      (* Updated weight is correct or high *)
      let weight_error := Double.div updated_edge_weight computed_edge_weight in
      (0,
       if Double.gt weight_error weight_error_threshhold then 1 else 0,
       c.(HighsSimplexAnalysis.average_log_low_dual_steepest_edge_weight_error),
       Double.add
         (Double.mul lit_0_99
            c.(HighsSimplexAnalysis.average_log_high_dual_steepest_edge_weight_error))
         (Double.mul lit_0_01 (log weight_error))) in
  let average_frequency_low :=
    Double.add
      (Double.mul lit_0_99 w.(average_frequency_low_dual_steepest_edge_weight))
      (Double.mul lit_0_01 (Double.of_int low_weight_error)) in
  let average_frequency_high :=
    Double.add
      (Double.mul lit_0_99 w.(average_frequency_high_dual_steepest_edge_weight))
      (Double.mul lit_0_01 (Double.of_int high_weight_error)) in
  let w :=
    mkWeights num_check num_reject
      w.(num_wrong_low_dual_steepest_edge_weight)
      w.(num_wrong_high_dual_steepest_edge_weight)
      average_frequency_low average_frequency_high
      (Double.max w.(max_average_frequency_low_dual_steepest_edge_weight)
                  average_frequency_low)
      (Double.max w.(max_average_frequency_high_dual_steepest_edge_weight)
                  average_frequency_high)
      (Double.max w.(max_sum_average_frequency_extreme_dual_steepest_edge_weight)
                  (Double.add average_frequency_low average_frequency_high))
      (Double.max w.(max_average_log_low_dual_steepest_edge_weight_error)
                  average_log_low)
      (Double.max w.(max_average_log_high_dual_steepest_edge_weight_error)
                  average_log_high)
      (Double.max w.(max_sum_average_log_extreme_dual_steepest_edge_weight_error)
                  (Double.add average_log_low average_log_high)) in
  let c :=
    HighsSimplexAnalysis.mk
      c.(HighsSimplexAnalysis.numTot)
      c.(HighsSimplexAnalysis.allow_dual_steepest_edge_to_devex_switch)
      c.(HighsSimplexAnalysis.dual_steepest_edge_weight_log_error_threshhold)
      c.(HighsSimplexAnalysis.simplex_iteration_count)
      c.(HighsSimplexAnalysis.col_aq_density)
      c.(HighsSimplexAnalysis.row_ep_density)
      c.(HighsSimplexAnalysis.row_ap_density)
      c.(HighsSimplexAnalysis.row_DSE_density)
      c.(HighsSimplexAnalysis.AnIterIt0)
      c.(HighsSimplexAnalysis.AnIterCostlyDseFq)
      c.(HighsSimplexAnalysis.AnIterCostlyDseMeasure)
      c.(HighsSimplexAnalysis.AnIterNumCostlyDseIt)
      average_log_low average_log_high in
  set_weights w (set_core c o).

(** [void HighsSimplexAnalysis::iterationReportIterationAndPhase(const int
    iterate_log_level, const bool header)]: the calls it makes. *)
Definition iterationReportIterationAndPhase
           (iterate_log_level : Z) (header : bool) (o : object) : list message :=
  let r := o.(report) in
  if header then
    HighsPrintMessage r.(output) r.(message_level) iterate_log_level
                      " Iteration Ph" []
  else
    HighsPrintMessage r.(output) r.(message_level) iterate_log_level
                      " %9d %2d"
                      [Int o.(core).(HighsSimplexAnalysis.simplex_iteration_count);
                       Int r.(solve_phase)].

Definition iterationReportDualObjective
           (iterate_log_level : Z) (header : bool) (o : object) : list message :=
  let r := o.(report) in
  if header then
    HighsPrintMessage r.(output) r.(message_level) iterate_log_level
                      "        DualObjective" []
  else
    HighsPrintMessage r.(output) r.(message_level) iterate_log_level
                      " %20.10e" [Dbl r.(objective_value)].

Definition iterationReportIterationData
           (iterate_log_level : Z) (header : bool) (o : object) : list message :=
  let r := o.(report) in
  if header then
    HighsPrintMessage r.(output) r.(message_level) iterate_log_level
      " Inv       NumCk     LvR     LvC     EnC        DlPr        ThDu        ThPr          Aa"
      []
  else
    HighsPrintMessage r.(output) r.(message_level) iterate_log_level
      " %3d %11.4g %7d %7d %7d %11.4g %11.4g %11.4g %11.4g"
      [Int r.(invert_hint); Dbl r.(numerical_trouble); Int r.(pivotal_row_index);
       Int r.(leaving_variable); Int r.(entering_variable);
       Dbl r.(primal_delta); Dbl r.(dual_step); Dbl r.(primal_step);
       Dbl r.(pivot_value_from_column)].

(** [iterationReportDensity]: there is no report when a conversion in
    [intLog10] is undefined. *)
Definition iterationReportDensity
           (iterate_log_level : Z) (header : bool) (o : object)
  : option (list message) :=
  let r := o.(report) in
  let c := o.(core) in
  let intLog10 := HighsSimplexAnalysis.intLog10 log_finite in
  let rp_dual_steepest_edge :=
    match r.(edge_weight_mode) with STEEPEST_EDGE => true | _ => false end in
  if header then
    Some (HighsPrintMessage r.(output) r.(message_level) iterate_log_level
                            " C_Aq R_Ep R_Ap" []
          ++ (if rp_dual_steepest_edge
              then HighsPrintMessage r.(output) r.(message_level)
                                     iterate_log_level "  DSE" []
              else HighsPrintMessage r.(output) r.(message_level)
                                     iterate_log_level "     " []))
  else
    match intLog10 c.(HighsSimplexAnalysis.col_aq_density) with
    | None => None
    | Some l10ColDse =>
    match intLog10 c.(HighsSimplexAnalysis.row_ep_density) with
    | None => None
    | Some l10REpDse =>
    match intLog10 c.(HighsSimplexAnalysis.row_ap_density) with
    | None => None
    | Some l10RapDse =>
        let first :=
          HighsPrintMessage r.(output) r.(message_level) iterate_log_level
                            " %4d %4d %4d"
                            [Int l10ColDse; Int l10REpDse; Int l10RapDse] in
        if rp_dual_steepest_edge then
          match intLog10 c.(HighsSimplexAnalysis.row_DSE_density) with
          | None => None
          | Some l10DseDse =>
              Some (first
                    ++ HighsPrintMessage r.(output) r.(message_level)
                                         iterate_log_level " %4d" [Int l10DseDse])
          end
        else
          Some (first
                ++ HighsPrintMessage r.(output) r.(message_level)
                                     iterate_log_level "     " [])
    end end end.

(** [void HighsSimplexAnalysis::iterationReportFull(const bool header)] *)
Definition iterationReportFull (header : bool) (o : object) : option (list message) :=
  let r := o.(report) in
  let common :=
    iterationReportIterationAndPhase ML_DETAILED header o
    ++ iterationReportDualObjective ML_DETAILED header o in
  let end_of_line :=
    HighsPrintMessage r.(output) r.(message_level) ML_DETAILED newline [] in
  if HiGHSDEV then
    match iterationReportDensity ML_DETAILED header o with
    | None => None
    | Some density =>
        Some (common
              ++ iterationReportIterationData ML_DETAILED header o
              ++ density
              ++ (if header
                  then HighsPrintMessage r.(output) r.(message_level) ML_DETAILED
                                         " FreeLsZ" []
                  else HighsPrintMessage r.(output) r.(message_level) ML_DETAILED
                                         " %7d" [Int r.(freelist_size)])
              ++ end_of_line)
    end
  else Some (common ++ end_of_line).

(** [void HighsSimplexAnalysis::iterationReport()]: the calls it makes
    and the object after it. *)
Definition iterationReport (o : object) : option (list message * object) :=
  let r := o.(report) in
  let iteration_count_difference :=
    Int.sub o.(core).(HighsSimplexAnalysis.simplex_iteration_count)
            r.(previous_iteration_report_header_iteration_count) in
  let header :=
    (r.(previous_iteration_report_header_iteration_count) <? 0)
    || (iteration_count_difference >? 10) in
  if header then
    match iterationReportFull header o with
    | None => None
    | Some head =>
        let o :=
          set_report
            (set_previous_iteration_report_header_iteration_count
               o.(core).(HighsSimplexAnalysis.simplex_iteration_count) r) o in
        match iterationReportFull false o with
        | None => None
        | Some line => Some (head ++ line, o)
        end
    end
  else
    match iterationReportFull false o with
    | None => None
    | Some line => Some (line, o)
    end.

(** [void HighsSimplexAnalysis::initialise(const int
    simplex_iteration_count_)].  The timer that it resets and the
    operation records, traces and counts that it zeroes under HiGHSDEV
    are no part of the model; [AnIterNumCostlyDseIt] is. *)
Definition initialise (simplex_iteration_count_ : Z) (o : object) : object :=
  let c := o.(core) in
  let c :=
    HighsSimplexAnalysis.mk
      c.(HighsSimplexAnalysis.numTot)
      c.(HighsSimplexAnalysis.allow_dual_steepest_edge_to_devex_switch)
      c.(HighsSimplexAnalysis.dual_steepest_edge_weight_log_error_threshhold)
      c.(HighsSimplexAnalysis.simplex_iteration_count)
      c.(HighsSimplexAnalysis.col_aq_density)
      c.(HighsSimplexAnalysis.row_ep_density)
      c.(HighsSimplexAnalysis.row_ap_density)
      c.(HighsSimplexAnalysis.row_DSE_density)
      simplex_iteration_count_
      c.(HighsSimplexAnalysis.AnIterCostlyDseFq)
      c.(HighsSimplexAnalysis.AnIterCostlyDseMeasure)
      c.(HighsSimplexAnalysis.AnIterNumCostlyDseIt)
      c.(HighsSimplexAnalysis.average_log_low_dual_steepest_edge_weight_error)
      c.(HighsSimplexAnalysis.average_log_high_dual_steepest_edge_weight_error) in
  let c := HighsSimplexAnalysis.set_AnIterCostlyDseFq (Double.of_int 0) c in
  let c :=
    if HiGHSDEV then HighsSimplexAnalysis.set_AnIterNumCostlyDseIt 0 c else c in
  set_core c o.
End Constants.

(** [AnIterOpRec], kept under HiGHSDEV for each kind of operation, but
    for the name of the operation. *)
Record AnIterOpRec : Type := mkAnIterOpRec {
  AnIterOpLog10RsDsty : double;
  AnIterOpSuLog10RsDsty : double;
  AnIterOpHyperCANCEL : double;
  AnIterOpHyperTRAN : double;
  AnIterOpRsDim : Z;
  AnIterOpNumCa : Z;
  AnIterOpNumHyperOp : Z;
  AnIterOpNumHyperRs : Z;
  AnIterOpRsMxNNZ : Z;
  AnIterOpSuNumCa : Z;
  AnIterOpSuNumHyperOp : Z;
  AnIterOpSuNumHyperRs : Z
}.

Section OperationRecords.
(** [hyperRESULT] is a constant of simplex/HFactor.h, which is not among
    the sources at hand. *)
Variable hyperRESULT : double.
Variable log_finite : positive -> Z -> double.

(** [void HighsSimplexAnalysis::operationRecordBefore(const int
    operation_type, const HVector& vector, const double
    historical_density)], compiled under HiGHSDEV: the array [AnIterOp]
    after the call.  Of [vector] the function reads [count]; [numRow] is
    the member that [setup] copies. *)
Definition operationRecordBefore
           (numRow : Z) (operation_type : Z) (vector_count : Z)
           (historical_density : double) (AnIterOp : list AnIterOpRec)
  : result (list AnIterOpRec) :=
  AnIter <- at_ AnIterOp operation_type ;;
  let AnIter :=
    mkAnIterOpRec
      AnIter.(AnIterOpLog10RsDsty) AnIter.(AnIterOpSuLog10RsDsty)
      AnIter.(AnIterOpHyperCANCEL) AnIter.(AnIterOpHyperTRAN)
      AnIter.(AnIterOpRsDim) (Int.add AnIter.(AnIterOpNumCa) 1)
      AnIter.(AnIterOpNumHyperOp) AnIter.(AnIterOpNumHyperRs)
      AnIter.(AnIterOpRsMxNNZ) AnIter.(AnIterOpSuNumCa)
      AnIter.(AnIterOpSuNumHyperOp) AnIter.(AnIterOpSuNumHyperRs) in
  let current_density :=
    Double.div (Double.mul (Double.of_int 1) (Double.of_int vector_count))
               (Double.of_int numRow) in
  let AnIter :=
    if Double.le current_density AnIter.(AnIterOpHyperCANCEL) &&
       Double.le historical_density AnIter.(AnIterOpHyperTRAN)
    then
      mkAnIterOpRec
        AnIter.(AnIterOpLog10RsDsty) AnIter.(AnIterOpSuLog10RsDsty)
        AnIter.(AnIterOpHyperCANCEL) AnIter.(AnIterOpHyperTRAN)
        AnIter.(AnIterOpRsDim) AnIter.(AnIterOpNumCa)
        (Int.add AnIter.(AnIterOpNumHyperOp) 1) AnIter.(AnIterOpNumHyperRs)
        AnIter.(AnIterOpRsMxNNZ) AnIter.(AnIterOpSuNumCa)
        AnIter.(AnIterOpSuNumHyperOp) AnIter.(AnIterOpSuNumHyperRs)
    else AnIter in
  store AnIterOp operation_type AnIter.

(** [void HighsSimplexAnalysis::operationRecordAfter(const int
    operation_type, const HVector& vector)], compiled under HiGHSDEV.
    [max] is [std::max] on [int]. *)
Definition operationRecordAfter
           (operation_type : Z) (vector_count : Z) (AnIterOp : list AnIterOpRec)
  : result (list AnIterOpRec) :=
  AnIter <- at_ AnIterOp operation_type ;;
  let rsDsty :=
    Double.div (Double.mul (Double.of_int 1) (Double.of_int vector_count))
               (Double.of_int AnIter.(AnIterOpRsDim)) in
  let AnIter :=
    if Double.le rsDsty hyperRESULT
    then
      mkAnIterOpRec
        AnIter.(AnIterOpLog10RsDsty) AnIter.(AnIterOpSuLog10RsDsty)
        AnIter.(AnIterOpHyperCANCEL) AnIter.(AnIterOpHyperTRAN)
        AnIter.(AnIterOpRsDim) AnIter.(AnIterOpNumCa)
        AnIter.(AnIterOpNumHyperOp) (Int.add AnIter.(AnIterOpNumHyperRs) 1)
        AnIter.(AnIterOpRsMxNNZ) AnIter.(AnIterOpSuNumCa)
        AnIter.(AnIterOpSuNumHyperOp) AnIter.(AnIterOpSuNumHyperRs)
    else AnIter in
  let AnIter :=
    mkAnIterOpRec
      AnIter.(AnIterOpLog10RsDsty) AnIter.(AnIterOpSuLog10RsDsty)
      AnIter.(AnIterOpHyperCANCEL) AnIter.(AnIterOpHyperTRAN)
      AnIter.(AnIterOpRsDim) AnIter.(AnIterOpNumCa)
      AnIter.(AnIterOpNumHyperOp) AnIter.(AnIterOpNumHyperRs)
      (if vector_count <? AnIter.(AnIterOpRsMxNNZ)
       then AnIter.(AnIterOpRsMxNNZ) else vector_count)
      AnIter.(AnIterOpSuNumCa)
      AnIter.(AnIterOpSuNumHyperOp) AnIter.(AnIterOpSuNumHyperRs) in
  let AnIter :=
    if Double.gt rsDsty (Double.of_int 0)
    then
      mkAnIterOpRec
        (Double.add AnIter.(AnIterOpLog10RsDsty)
           (Double.div (HighsSimplexAnalysis.log log_finite rsDsty)
                       (HighsSimplexAnalysis.log log_finite (Double.of_int 10))))
        AnIter.(AnIterOpSuLog10RsDsty)
        AnIter.(AnIterOpHyperCANCEL) AnIter.(AnIterOpHyperTRAN)
        AnIter.(AnIterOpRsDim) AnIter.(AnIterOpNumCa)
        AnIter.(AnIterOpNumHyperOp) AnIter.(AnIterOpNumHyperRs)
        AnIter.(AnIterOpRsMxNNZ) AnIter.(AnIterOpSuNumCa)
        AnIter.(AnIterOpSuNumHyperOp) AnIter.(AnIterOpSuNumHyperRs)
    else AnIter in
  store AnIterOp operation_type AnIter.
End OperationRecords.

End Analysis.

(** * Vocabulary of the statements, and the inputs of the examples *)

(** ** simplex/HighsSimplexAnalysis.cpp *)

(** The double nearest to the fraction [num / den]: what a decimal
    literal denotes. *)
Definition decimal (num den : Z) : double :=
  Double.div (Double.of_int num) (Double.of_int den).

(** A costly iteration with large weight errors: a density of 0.9 for
    the steepest edge weights against 0.01 for the other operations, 400
    costly iterations out of 500, and logarithmic weight errors 3 and 4
    against a threshold of 0.1. *)
Definition costly_state (allow : bool) : HighsSimplexAnalysis.t :=
  HighsSimplexAnalysis.mk
    100 allow (decimal 1 10) 500
    (decimal 1 100) (decimal 1 100) (decimal 1 100) (decimal 9 10)
    0 (Double.of_int 0) (Double.of_int 0) 400
    (Double.of_int 3) (Double.of_int 4).

(** The C library's values of [log] at 1000.0 and at 10.0 (the doubles
    nearest to the two logarithms); at any other operand the table answers
    [log 10.0].  With them the double quotient is 2.9999999999999996 and
    [intLog10 (1000.0)] is 2. *)
Definition log_table (m : positive) (e : Z) : double :=
  if (Zpos m =? 8796093022208000) && (e =? -43)
  then S754_finite false 7777441025097632 (-50)      (* log 1000.0 *)
  else S754_finite false 5184960683398422 (-51).     (* log 10.0 *)

(** ** qpsolver/feasibility_bounded.hpp *)

Section ProjectionVocabulary.
Import Qp.
Variable instance : Instance.
(** The point before the projection. *)
Variable res0 : list double.

(** The entry pushed for variable [j]. *)
Definition var_index (j : nat) : Z := Int.add (Z.of_nat j) instance.(num_con).

(** The value of variable [j] after lines 58-68, from its value before. *)
Definition clamp_at (j : nat) (r : double) : double :=
  match nth_error instance.(var_lo) j with
  | Some lo =>
      if Double.le r lo then lo
      else match nth_error instance.(var_up) j with
           | Some up => if Double.ge r up then up else r
           | None => r
           end
  | None => r
  end.

(** Variable [j] is at or beyond one of its bounds before the
    projection. *)
Definition active_at (j : nat) : bool :=
  match nth_error res0 j, nth_error instance.(var_lo) j with
  | Some r, Some lo =>
      Double.le r lo ||
      match nth_error instance.(var_up) j with
      | Some up => Double.ge r up
      | None => false
      end
  | _, _ => false
  end.

Definition status_at (j : nat) : BasisStatus :=
  match nth_error res0 j, nth_error instance.(var_lo) j with
  | Some r, Some lo => if Double.le r lo then ActiveAtLower else ActiveAtUpper
  | _, _ => ActiveAtUpper
  end.

(** Lines 69-72: only an entry of magnitude above [10E-5] is copied to
    [x0]; the others stay at the zero of the constructor. *)
Definition sparse (v : double) : double :=
  if Double.gt (Double.fabs v) Double.lit_10Em5 then v else Double.pos_zero.

(** The state of the projection loop at the head of pass [k]; [N] is the
    dimension of [x0]. *)
Definition projection_inv (N k : nat) (p : projection) : Prop :=
  (forall j, nth_error p.(res_value) j
             = if (j <? k)%nat then option_map (clamp_at j) (nth_error res0 j)
               else nth_error res0 j) /\
  p.(initialactive) = map var_index (filter active_at (seq 0 k)) /\
  p.(initialinactive)
    = map var_index (filter (fun j => negb (active_at j)) (seq 0 k)) /\
  p.(atlower) = map status_at (filter active_at (seq 0 k)) /\
  length p.(x0).(value) = N /\
  (forall j, (j < N)%nat ->
     nth_error p.(x0).(value) j
     = if (j <? k)%nat
       then option_map (fun r => sparse (clamp_at j r)) (nth_error res0 j)
       else Some Double.pos_zero).
End ProjectionVocabulary.

(** The instances on which every element access of the routine is within
    its vector: [num_var] and [num_con] are counts, the square of
    [num_var] is an [int], Q is stored column-wise with row indices below
    [num_var], and [c] and the bound vectors have [num_var] entries. *)
Definition well_formed (instance : Qp.Instance) : Prop :=
  let n := Qp.num_var instance in
  let m := Qp.mat (Qp.Q instance) in
  0 <= n /\ n * n <= Int.max_int /\
  0 <= Qp.num_con instance <= Int.max_int /\
  Z.of_nat (length (Qp.mat_start m)) = n + 1 /\
  Z.of_nat (length (Qp.mat_index m)) <= Int.max_int /\
  length (Qp.mat_value m) = length (Qp.mat_index m) /\
  Forall (fun s => 0 <= s <= Z.of_nat (length (Qp.mat_index m))) (Qp.mat_start m) /\
  Forall (fun r => 0 <= r < n) (Qp.mat_index m) /\
  Qp.dim (Qp.c instance) = n /\
  Z.of_nat (length (Qp.value (Qp.c instance))) = n /\
  Z.of_nat (length (Qp.var_lo instance)) = n /\
  Z.of_nat (length (Qp.var_up instance)) = n.

(** Two variables, Q = [[4,2],[2,5]], c = (8,10), bounds [-10,10] and
    [-10,1]: the point before the projection is (1.25, 1.5), and the
    second variable ends at its upper bound. *)
Definition two_var_instance : Qp.Instance :=
  Qp.mkInstance 2 0
    (Qp.mkVector 2 0 [0; 0] [Double.of_int 8; Double.of_int 10])
    (Qp.mkMatrix
       (Qp.mkMatrixBase [0; 2; 4] [0; 1; 0; 1]
          [Double.of_int 4; Double.of_int 2; Double.of_int 2; Double.of_int 5]))
    [Double.of_int (-10); Double.of_int (-10)]
    [Double.of_int 10; Double.of_int 1].

Definition two_var_result : Qp.QpHotstartInformation :=
  Qp.mkQpHotstartInformation [Qp.ActiveAtUpper] [1] [0]
    (Qp.mkVector 2 2 [0; 1] [decimal 125 100; Double.of_int 1])
    (Qp.mkVector 0 0 [] []).

(** One variable, Q = [[1]], c = (0), bounds [0.00005, 1]: the point
    before the projection is 0, below the lower bound. *)
Definition small_lower_bound_instance : Qp.Instance :=
  Qp.mkInstance 1 0
    (Qp.mkVector 1 0 [0] [Double.pos_zero])
    (Qp.mkMatrix (Qp.mkMatrixBase [0; 1] [0] [Double.of_int 1]))
    [decimal 5 100000]
    [Double.of_int 1].

(** ** mip/SolveMip.h *)

(** Every node of [t] lies as many levels below [t] as its path is
    long. *)
Definition levels_from (t : Mip.Node) : Prop :=
  forall path n, Mip.node_at path t = Some n ->
                 Mip.level n = Mip.level t + Z.of_nat (length path).

(** The root after two branchings, the second at its left child. *)
Definition three_level_tree : Mip.Node :=
  match Mip.expand_at [] 1 (Mip.make_root [0]) with
  | Some t =>
      match Mip.expand_at [false] 3 t with
      | Some t' => t'
      | None => t
      end
  | None => Mip.make_root [0]
  end.

(** [v] is at least as good a branching variable as [w]: farther from an
    integer, or as far and of no higher index. *)
Definition preferred (node : Mip.Node) (v w : Z) : Prop :=
  (Mip.distance_of node w < Mip.distance_of node v)%Q \/
  ((Mip.distance_of node w == Mip.distance_of node v)%Q /\ v <= w).



(** The root of the scenario: one integer variable with bounds [0,5] and
    relaxation value 2.7, which as a double is the rational number
    2.70000000000000017763568394002504646778106689453125. *)
Definition scenario_node : Mip.Node :=
  Mip.mkNode 0 Mip.kNoNodeIndex 0 [0] [decimal 27 10] [] [] None None.

Definition scenario_value : Q := 6079859496950170 # 2251799813685248.

Definition scenario_bounds : Mip.Bounds := ([0]%Q, [5]%Q).

(** ** simplex/HighsSimplexAnalysis.cpp: calls of the member functions *)

(** The densities that the solver passes to
    [updateOperationResultDensity]. *)
Inductive Density : Type :=
| ColAq
| RowEp
| RowAp
| RowDSE.

Definition density_of (d : Density) (c : HighsSimplexAnalysis.t) : double :=
  match d with
  | ColAq => HighsSimplexAnalysis.col_aq_density c
  | RowEp => HighsSimplexAnalysis.row_ep_density c
  | RowAp => HighsSimplexAnalysis.row_ap_density c
  | RowDSE => HighsSimplexAnalysis.row_DSE_density c
  end.

Definition with_density (d : Density) (v : double) (c : HighsSimplexAnalysis.t)
  : HighsSimplexAnalysis.t :=
  HighsSimplexAnalysis.mk
    (HighsSimplexAnalysis.numTot c)
    (HighsSimplexAnalysis.allow_dual_steepest_edge_to_devex_switch c)
    (HighsSimplexAnalysis.dual_steepest_edge_weight_log_error_threshhold c)
    (HighsSimplexAnalysis.simplex_iteration_count c)
    (match d with ColAq => v | _ => HighsSimplexAnalysis.col_aq_density c end)
    (match d with RowEp => v | _ => HighsSimplexAnalysis.row_ep_density c end)
    (match d with RowAp => v | _ => HighsSimplexAnalysis.row_ap_density c end)
    (match d with RowDSE => v | _ => HighsSimplexAnalysis.row_DSE_density c end)
    (HighsSimplexAnalysis.AnIterIt0 c)
    (HighsSimplexAnalysis.AnIterCostlyDseFq c)
    (HighsSimplexAnalysis.AnIterCostlyDseMeasure c)
    (HighsSimplexAnalysis.AnIterNumCostlyDseIt c)
    (HighsSimplexAnalysis.average_log_low_dual_steepest_edge_weight_error c)
    (HighsSimplexAnalysis.average_log_high_dual_steepest_edge_weight_error c).

(** A call of a member function after [setup], with its arguments. *)
Inductive call : Type :=
| Messaging (logfile_ output_ message_level_ : Z)
| UpdateOperationResultDensity (local_density : double) (density : Density)
| DualSteepestEdgeWeightError (computed_edge_weight updated_edge_weight : double)
| SwitchToDevex
| IterationReport
| Initialise (simplex_iteration_count_ : Z).

Section Calls.
Variables running_average_multiplier AnIterCostlyDseMeasureLimit
          AnIterCostlyDseMnDensity AnIterFracNumTot_ItBfSw
          AnIterFracNumCostlyDseItbfSw
          accept_weight_threshhold weight_error_threshhold : double.
Variable ML_DETAILED : Z.
Variable HiGHSDEV : bool.
Variable log_finite : positive -> Z -> double.

(** The object after a call; there is none when a report converts an
    undefined logarithm. *)
Definition run (k : call) (o : Analysis.object) : option Analysis.object :=
  match k with
  | Messaging logfile_ output_ message_level_ =>
      Some (Analysis.messaging logfile_ output_ message_level_ o)
  | UpdateOperationResultDensity local_density density =>
      Some (Analysis.set_core
              (with_density density
                 (Analysis.updateOperationResultDensity
                    running_average_multiplier local_density
                    (density_of density (Analysis.core o)))
                 (Analysis.core o)) o)
  | DualSteepestEdgeWeightError computed_edge_weight updated_edge_weight =>
      Some (Analysis.dualSteepestEdgeWeightError
              accept_weight_threshhold weight_error_threshhold log_finite
              computed_edge_weight updated_edge_weight o)
  | SwitchToDevex =>
      Some (Analysis.set_core
              (snd (HighsSimplexAnalysis.switchToDevex
                      running_average_multiplier AnIterCostlyDseMeasureLimit
                      AnIterCostlyDseMnDensity AnIterFracNumTot_ItBfSw
                      AnIterFracNumCostlyDseItbfSw (Analysis.core o))) o)
  | IterationReport =>
      option_map snd (Analysis.iterationReport ML_DETAILED HiGHSDEV log_finite o)
  | Initialise simplex_iteration_count_ =>
      Some (Analysis.initialise HiGHSDEV simplex_iteration_count_ o)
  end.

Fixpoint run_calls (ks : list call) (o : Analysis.object)
  : option Analysis.object :=
  match ks with
  | [] => Some o
  | k :: ks' =>
      match run k o with
      | Some o' => run_calls ks' o'
      | None => None
      end
  end.
End Calls.

(** An object before [setup]: every member is zero. *)
Definition blank_object : Analysis.object :=
  Analysis.mkObject
    (HighsSimplexAnalysis.mk 0 false (Double.of_int 0) 0
       (Double.of_int 0) (Double.of_int 0) (Double.of_int 0) (Double.of_int 0)
       0 (Double.of_int 0) (Double.of_int 0) 0
       (Double.of_int 0) (Double.of_int 0))
    0 0
    (Analysis.mkWeights 0 0 0 0
       (Double.of_int 0) (Double.of_int 0) (Double.of_int 0) (Double.of_int 0)
       (Double.of_int 0) (Double.of_int 0) (Double.of_int 0) (Double.of_int 0))
    (Analysis.mkReport 0 0 0 0 0 (Double.of_int 0) 0 (Double.of_int 0) 0 0 0
       (Double.of_int 0) (Double.of_int 0) (Double.of_int 0) (Double.of_int 0)
       Analysis.STEEPEST_EDGE 0).

(** A linear program with 3 rows and 4 columns, and options that ask
    for the strategy numbered [strategy] with the threshold 0.1 for the
    logarithmic weight error. *)
Definition small_lp : HighsLp.t := HighsLp.mk 3 4.

Definition options_with (strategy : Z) : HighsOptions.t :=
  HighsOptions.mk strategy (decimal 1 10) 1 2 7.

(** The costly iteration of [costly_state], the switch allowed, with an
    average logarithmic error of the high weights that is NaN. *)
Definition costly_state_with_nan : HighsSimplexAnalysis.t :=
  HighsSimplexAnalysis.mk
    100 true (decimal 1 10) 500
    (decimal 1 100) (decimal 1 100) (decimal 1 100) (decimal 9 10)
    0 (Double.of_int 0) (Double.of_int 0) 400
    (Double.of_int 3) Double.nan.

(** The checks of a list of pairs of a computed and an updated weight,
    one call of [dualSteepestEdgeWeightError] each. *)
Definition weight_checks
           (accept_weight_threshhold weight_error_threshhold : double)
           (log_finite : positive -> Z -> double)
           (pairs : list (double * double)) (o : Analysis.object)
  : Analysis.object :=
  fold_left
    (fun o p =>
       Analysis.dualSteepestEdgeWeightError
         accept_weight_threshhold weight_error_threshhold log_finite
         (fst p) (snd p) o)
    pairs o.

(** What no member function writes after [setup]. *)
Definition settings (o : Analysis.object) : Z * Z * Z * bool * double :=
  (Analysis.numRow o, Analysis.numCol o,
   HighsSimplexAnalysis.numTot (Analysis.core o),
   HighsSimplexAnalysis.allow_dual_steepest_edge_to_devex_switch (Analysis.core o),
   HighsSimplexAnalysis.dual_steepest_edge_weight_log_error_threshhold
     (Analysis.core o)).

(** The object after [setup] for the strategy numbered [strategy], the
    strategies that weigh by steepest edge being numbered 2, 3 and 4, of
    which 4 switches to Devex. *)
Definition after_setup (strategy : Z) : Analysis.object :=
  Analysis.setup 2 3 4 small_lp (options_with strategy) blank_object.

(** Calls of the member functions in the order of an iteration. *)
Definition some_calls : list call :=
  [Initialise 0;
   UpdateOperationResultDensity (decimal 5 10) RowDSE;
   DualSteepestEdgeWeightError (Double.of_int 10) (Double.of_int 1);
   SwitchToDevex;
   IterationReport;
   Messaging 1 2 3].

(** The operations of one kind in a row, each recorded before and after:
    [calls] holds, for each, the count of the vector before, the
    historical density, and the count of the result. *)
Fixpoint operations_recorded
         (hyperRESULT : double) (log_finite : positive -> Z -> double)
         (numRow operation_type : Z) (calls : list (Z * double * Z))
         (AnIterOp : list Analysis.AnIterOpRec)
  : result (list Analysis.AnIterOpRec) :=
  match calls with
  | [] => Done AnIterOp
  | (count_before, historical_density, count_after) :: calls' =>
      AnIterOp <- Analysis.operationRecordBefore
                    numRow operation_type count_before historical_density
                    AnIterOp ;;
      AnIterOp <- Analysis.operationRecordAfter
                    hyperRESULT log_finite operation_type count_after AnIterOp ;;
      operations_recorded hyperRESULT log_finite numRow operation_type calls'
                          AnIterOp
  end.

(** A record as [initialise] leaves it, for results of dimension
    [dim]. *)
Definition fresh_record (dim : Z) : Analysis.AnIterOpRec :=
  Analysis.mkAnIterOpRec (Double.of_int 0) (Double.of_int 0)
    (decimal 5 100) (decimal 10 100) dim 0 0 0 0 0 0 0.

(** ** qpsolver/feasibility_bounded.hpp: the sparse part of the point *)

Section StoredVocabulary.
Import Qp.
Variable instance : Instance.
(** The point before the projection. *)
Variable res0 : list double.

(** Variable [j] passes the test of line 69: its projected value has
    magnitude above [10E-5]. *)
Definition stored (j : nat) : bool :=
  match nth_error res0 j with
  | Some v => Double.gt (Double.fabs (clamp_at instance j v)) Double.lit_10Em5
  | None => false
  end.

(** What the projection loop keeps of the sparse part of [x0] at the
    head of pass [k]. *)
Definition index_inv (k : nat) (p : projection) : Prop :=
  p.(x0).(dim) = instance.(num_var) /\
  length p.(x0).(index) = Z.to_nat instance.(num_var) /\
  p.(x0).(num_nz) = Z.of_nat (length (filter stored (seq 0 k))) /\
  firstn (length (filter stored (seq 0 k))) p.(x0).(index)
  = map Z.of_nat (filter stored (seq 0 k)).
End StoredVocabulary.

(** One variable, Q = [[-1]], which is not positive definite, c = (1),
    bounds [-1,1]: the factor is the square root of -1. *)
Definition indefinite_instance : Qp.Instance :=
  Qp.mkInstance 1 0
    (Qp.mkVector 1 0 [0] [Double.of_int 1])
    (Qp.mkMatrix (Qp.mkMatrixBase [0; 1] [0] [Double.of_int (-1)]))
    [Double.of_int (-1)]
    [Double.of_int 1].

(** No variable and [m] constraints. *)
Definition empty_instance (m : Z) : Qp.Instance :=
  Qp.mkInstance 0 m (Qp.mkVector 0 0 [] [])
    (Qp.mkMatrix (Qp.mkMatrixBase [0] [] [])) [] [].

(** One variable, Q = [[-1]], c = (1): what the routine returns. *)
Definition indefinite_result : Qp.QpHotstartInformation :=
  Qp.mkQpHotstartInformation [] [] [0]
    (Qp.mkVector 1 0 [0] [Double.pos_zero])
    (Qp.mkVector 0 0 [] []).

(** ** Doubles: magnitudes *)



(** ** qpsolver/feasibility_bounded.hpp: further instances *)

(** One variable, Q = [[1]], c = (1), bounds [-0.5, 2]: the equation
    [Qx + c = 0] of line 11 has the solution -1, below the lower
    bound. *)
Definition opposite_sign_instance : Qp.Instance :=
  Qp.mkInstance 1 0
    (Qp.mkVector 1 0 [0] [Double.of_int 1])
    (Qp.mkMatrix (Qp.mkMatrixBase [0; 1] [0] [Double.of_int 1]))
    [decimal (-1) 2]
    [Double.of_int 2].

Definition opposite_sign_result : Qp.QpHotstartInformation :=
  Qp.mkQpHotstartInformation [] [] [0]
    (Qp.mkVector 1 1 [0] [Double.of_int 1])
    (Qp.mkVector 0 0 [] []).

(** One variable, Q = [[1]], c = (0.00005), bounds [0, 1]: the point
    before the projection is 0.00005, strictly inside the bounds. *)
Definition small_value_instance : Qp.Instance :=
  Qp.mkInstance 1 0
    (Qp.mkVector 1 0 [0] [decimal 5 100000])
    (Qp.mkMatrix (Qp.mkMatrixBase [0; 1] [0] [Double.of_int 1]))
    [Double.pos_zero]
    [Double.of_int 1].

Definition small_value_result : Qp.QpHotstartInformation :=
  Qp.mkQpHotstartInformation [] [] [0]
    (Qp.mkVector 1 0 [0] [Double.pos_zero])
    (Qp.mkVector 0 0 [] []).

(** One variable, Q = [[-1]], c = (1), bounds [1, 2]: the factor is the
    square root of -1 and the point before the projection is NaN. *)
Definition nan_point_instance : Qp.Instance :=
  Qp.mkInstance 1 0
    (Qp.mkVector 1 0 [0] [Double.of_int 1])
    (Qp.mkMatrix (Qp.mkMatrixBase [0; 1] [0] [Double.of_int (-1)]))
    [Double.of_int 1]
    [Double.of_int 2].

(** One variable and no lower bound stored for it. *)
Definition short_var_lo_instance : Qp.Instance :=
  Qp.mkInstance 1 0
    (Qp.mkVector 1 0 [0] [Double.of_int 1])
    (Qp.mkMatrix (Qp.mkMatrixBase [0; 1] [0] [Double.of_int 1]))
    []
    [Double.of_int 2].

(** ** mip/SolveMip.h: a relaxation value outside the bounds *)

(** A solved node with one integer variable whose relaxation value 7.5
    lies outside the bounds [0,5] of [scenario_bounds]. *)
Definition outside_node : Mip.Node :=
  Mip.mkNode 0 Mip.kNoNodeIndex 0 [0] [decimal 75 10] [] [] None None.

Definition outside_value : Q := 8444249301319680 # 1125899906842624.

(** * Properties *)

(** ** Doubles *)

Example lit_10Em5_is_one_ten_thousandth : Double.lit_10Em5 = decimal 1 10000.
Proof. reflexivity. Qed.

Example scenario_value_is_2_7 : Double.to_Q (decimal 27 10) = Some scenario_value.
Proof. reflexivity. Qed.

Lemma compare_cont_antisym (m1 m2 : positive) :
  Pos.compare_cont Eq m2 m1 = CompOpp (Pos.compare_cont Eq m1 m2).
Proof. exact (Pos.compare_antisym m1 m2). Qed.

Lemma SFcompare_antisym (a b : double) :
  SFcompare b a = option_map CompOpp (SFcompare a b).
Proof.
  destruct a as [sa|sa| |sa ma ea], b as [sb|sb| |sb mb eb]; simpl;
    try reflexivity;
    try (destruct sa; reflexivity);
    try (destruct sb; reflexivity);
    try (destruct sa, sb; reflexivity).
  destruct sa, sb; try reflexivity;
    rewrite (Z.compare_antisym ea eb);
    destruct (ea ?= eb)%Z; simpl; try reflexivity;
    rewrite compare_cont_antisym; destruct (Pos.compare_cont Eq ma mb); reflexivity.
Qed.

Lemma SFcompare_nan_iff (a b : double) :
  SFcompare a b = None <-> Double.is_nan a = true \/ Double.is_nan b = true.
Proof.
  destruct a as [sa|sa| |sa ma ea], b as [sb|sb| |sb mb eb]; simpl;
    split; intros H; try discriminate; auto;
    try (destruct H; discriminate).
Qed.

Lemma SFcompare_refl (a : double) :
  Double.is_nan a = false -> SFcompare a a = Some Eq.
Proof.
  destruct a as [s|s| |s m e]; simpl; intros H; try discriminate; try reflexivity.
  - destruct s; reflexivity.
  - rewrite Z.compare_refl.
    change (Pos.compare_cont Eq m m) with (Pos.compare m m).
    rewrite Pos.compare_refl. destruct s; reflexivity.
Qed.

Lemma gt_lt (a b : double) : Double.gt a b = Double.lt b a.
Proof.
  unfold Double.gt, Double.lt. rewrite (SFcompare_antisym a b).
  destruct (SFcompare a b) as [[]|]; reflexivity.
Qed.

Lemma ge_le (a b : double) : Double.ge a b = Double.le b a.
Proof.
  unfold Double.ge, Double.le. rewrite (SFcompare_antisym a b).
  destruct (SFcompare a b) as [[]|]; reflexivity.
Qed.

Lemma le_not_nan (a b : double) :
  Double.le a b = true -> Double.is_nan a = false /\ Double.is_nan b = false.
Proof.
  unfold Double.le. intros H.
  destruct (SFcompare a b) eqn:E; [|discriminate].
  destruct (Double.is_nan a) eqn:Ea, (Double.is_nan b) eqn:Eb; auto;
    assert (N : SFcompare a b = None) by (apply SFcompare_nan_iff; auto);
    congruence.
Qed.

Lemma le_refl (a : double) : Double.is_nan a = false -> Double.le a a = true.
Proof. intros H. unfold Double.le. now rewrite SFcompare_refl. Qed.

(** Two doubles that are not NaN are ordered one way or the other. *)
Lemma not_le_lt (a b : double) :
  Double.is_nan a = false -> Double.is_nan b = false ->
  Double.le a b = false -> Double.lt b a = true.
Proof.
  intros Ha Hb. unfold Double.le, Double.lt. rewrite (SFcompare_antisym a b).
  destruct (SFcompare a b) as [[]|] eqn:E; simpl; try discriminate; auto.
  apply SFcompare_nan_iff in E. destruct E; congruence.
Qed.


(** ** The magnitude of a quotient *)

Section Digits.





End Digits.

Section Shift.




End Shift.

Section Quotient.






End Quotient.

(** ** simplex/HighsSimplexAnalysis.cpp *)

Section SwitchToDevex.
Import HighsSimplexAnalysis.

Variables ram limit mn_density frac_tot frac_costly : double.

Lemma allow_set_AnIterCostlyDseMeasure v a :
  allow_dual_steepest_edge_to_devex_switch (set_AnIterCostlyDseMeasure v a)
  = allow_dual_steepest_edge_to_devex_switch a.
Proof. reflexivity. Qed.

Lemma allow_set_AnIterCostlyDseFq v a :
  allow_dual_steepest_edge_to_devex_switch (set_AnIterCostlyDseFq v a)
  = allow_dual_steepest_edge_to_devex_switch a.
Proof. reflexivity. Qed.

Lemma allow_set_AnIterNumCostlyDseIt v a :
  allow_dual_steepest_edge_to_devex_switch (set_AnIterNumCostlyDseIt v a)
  = allow_dual_steepest_edge_to_devex_switch a.
Proof. reflexivity. Qed.

(** The call never changes the flag that allows the switch. *)
Lemma switchToDevex_keeps_flag a :
  allow_dual_steepest_edge_to_devex_switch
    (snd (switchToDevex ram limit mn_density frac_tot frac_costly a))
  = allow_dual_steepest_edge_to_devex_switch a.
Proof.
  unfold switchToDevex.
  repeat match goal with
         | |- context [if ?c then _ else _] => destruct c
         end; reflexivity.
Qed.
End SwitchToDevex.

(** C9. [switchToDevex] returns true only if
    [allow_dual_steepest_edge_to_devex_switch] is set: whatever the
    densities, the iteration counts, the weight-error averages and the
    tuning constants are, a call on an object whose flag is false returns
    false. *)
Theorem switchToDevex_false_when_not_allowed
        (ram limit mn_density frac_tot frac_costly : double)
        (a : HighsSimplexAnalysis.t) :
  HighsSimplexAnalysis.allow_dual_steepest_edge_to_devex_switch a = false ->
  fst (HighsSimplexAnalysis.switchToDevex
         ram limit mn_density frac_tot frac_costly a) = false.
Proof.
  intros Hflag. unfold HighsSimplexAnalysis.switchToDevex.
  repeat match goal with
         | |- context [if ?c then _ else _] => destruct c
         end; cbn; rewrite ?Hflag; reflexivity.
Qed.

Example switchToDevex_when_allowed :
  fst (HighsSimplexAnalysis.switchToDevex
         (decimal 5 100) (Double.of_int 1000) (decimal 1 100)
         (decimal 1 10) (decimal 5 100) (costly_state true)) = true.
Proof. vm_compute. reflexivity. Qed.

Lemma switchToDevex_false_when_not_allowed_witness :
  HighsSimplexAnalysis.allow_dual_steepest_edge_to_devex_switch
    (costly_state false) = false /\
  fst (HighsSimplexAnalysis.switchToDevex
         (decimal 5 100) (Double.of_int 1000) (decimal 1 100)
         (decimal 1 10) (decimal 5 100) (costly_state false)) = false.
Proof.
  split.
  - reflexivity.
  - apply (switchToDevex_false_when_not_allowed
             (decimal 5 100) (Double.of_int 1000) (decimal 1 100)
             (decimal 1 10) (decimal 5 100) (costly_state false)).
    reflexivity.
Defined.






(** ** Loops, vectors and machine integers *)

Section IterateFacts.
Context {S : Type}.
Variables (body : Z -> S -> result S) (step : Z).

(** A property carried by every pass holds when the loop ends. *)
Lemma iterate_inv (P : nat -> S -> Prop) :
  forall (n : nat) (i : Z) (s s' : S),
    P 0%nat s ->
    (forall (k : nat) (t t' : S), (k < n)%nat -> P k t ->
       body (i + Z.of_nat k * step) t = Done t' -> P (Datatypes.S k) t') ->
    iterate n i step body s = Done s' -> P n s'.
Proof.
  intros n. revert P. induction n as [|n IH]; intros P i s s' H0 Hstep Hrun.
  - simpl in Hrun. now inversion Hrun; subst.
  - simpl in Hrun. destruct (body i s) as [s1| |] eqn:E; simpl in Hrun;
      try discriminate.
    apply (IH (fun k => P (Datatypes.S k)) (i + step) s1 s').
    + apply (Hstep 0%nat s s1); [lia|exact H0|].
      now replace (i + Z.of_nat 0 * step) with i by lia.
    + intros k t t' Hk Pk Hb. apply (Hstep (Datatypes.S k) t t'); [lia|exact Pk|].
      now replace (i + Z.of_nat (Datatypes.S k) * step)
        with (i + step + Z.of_nat k * step) by lia.
    + exact Hrun.
Qed.

(** A loop whose passes all end normally ends normally. *)
Lemma iterate_total (P : nat -> S -> Prop) :
  forall (n : nat) (i : Z) (s : S),
    P 0%nat s ->
    (forall (k : nat) (t : S), (k < n)%nat -> P k t ->
       exists t', body (i + Z.of_nat k * step) t = Done t' /\ P (Datatypes.S k) t') ->
    exists s', iterate n i step body s = Done s' /\ P n s'.
Proof.
  intros n. revert P. induction n as [|n IH]; intros P i s H0 Hstep.
  - exists s. auto.
  - destruct (Hstep 0%nat s) as [s1 [E P1]]; [lia|exact H0|].
    replace (i + Z.of_nat 0 * step) with i in E by lia.
    destruct (IH (fun k => P (Datatypes.S k)) (i + step) s1 P1) as [s' [E' P']].
    + intros k t Hk Pk.
      destruct (Hstep (Datatypes.S k) t) as [t' [Et Pt]]; [lia|exact Pk|].
      exists t'. split; [|exact Pt].
      now replace (i + step + Z.of_nat k * step)
        with (i + Z.of_nat (Datatypes.S k) * step) by lia.
    + exists s'. split; [|exact P']. simpl. now rewrite E.
Qed.

(** A loop whose body holds no assertion fails none. *)
Lemma iterate_no_assertion :
  (forall i s, body i s <> AssertionFailure) ->
  forall (n : nat) (i : Z) (s : S), iterate n i step body s <> AssertionFailure.
Proof.
  intros Hb n. induction n as [|n IH]; intros i s; simpl; [discriminate|].
  destruct (body i s) as [s1| |] eqn:E; simpl.
  - apply IH.
  - now apply Hb in E.
  - discriminate.
Qed.
End IterateFacts.

Lemma bind_no_assertion {A B : Type} (m : result A) (k : A -> result B) :
  m <> AssertionFailure -> (forall a, k a <> AssertionFailure) ->
  bind m k <> AssertionFailure.
Proof.
  intros Hm Hk. destruct m; simpl; [apply Hk|now contradiction Hm|discriminate].
Qed.

Lemma bind_Done {A B : Type} (m : result A) (k : A -> result B) (b : B) :
  bind m k = Done b -> exists a, m = Done a /\ k a = Done b.
Proof. destruct m; simpl; try discriminate. eauto. Qed.

Lemma at_no_assertion {A : Type} (v : list A) (i : Z) : at_ v i <> AssertionFailure.
Proof.
  unfold at_. destruct (i <? 0); [discriminate|].
  destruct (nth_error v (Z.to_nat i)); discriminate.
Qed.

Lemma store_no_assertion {A : Type} (v : list A) (i : Z) (x : A) :
  store v i x <> AssertionFailure.
Proof. unfold store. destruct (_ && _); discriminate. Qed.

Lemma resize_no_assertion {A : Type} (n : Z) (x : A) : resize n x <> AssertionFailure.
Proof. unfold resize. destruct (_ <=? _); discriminate. Qed.

Lemma for_up_no_assertion {S : Type} (lo hi : Z) (body : Z -> S -> result S) (s : S) :
  (forall i s, body i s <> AssertionFailure) -> for_up lo hi body s <> AssertionFailure.
Proof. intros H. now apply iterate_no_assertion. Qed.

Lemma for_down_no_assertion {S : Type} (hi lo : Z) (body : Z -> S -> result S) (s : S) :
  (forall i s, body i s <> AssertionFailure) -> for_down hi lo body s <> AssertionFailure.
Proof. intros H. now apply iterate_no_assertion. Qed.

Ltac no_assertion :=
  repeat first
    [ apply at_no_assertion
    | apply store_no_assertion
    | apply resize_no_assertion
    | discriminate
    | apply for_up_no_assertion; intros
    | apply for_down_no_assertion; intros
    | apply bind_no_assertion; [|intros]
    | match goal with
      | |- (if ?c then _ else _) <> AssertionFailure => destruct c
      end ].

Lemma length_list_set {A : Type} (v : list A) (n : nat) (x : A) :
  length (list_set v n x) = length v.
Proof.
  revert n. induction v as [|h t IH]; intros [|n]; simpl; auto.
Qed.

Lemma nth_error_list_set {A : Type} (v : list A) (n j : nat) (x : A) :
  (n < length v)%nat ->
  nth_error (list_set v n x) j = if (j =? n)%nat then Some x else nth_error v j.
Proof.
  revert n j. induction v as [|h t IH]; intros n j Hn; simpl in Hn; [lia|].
  destruct n as [|n], j as [|j]; simpl; auto.
  rewrite IH by lia. reflexivity.
Qed.

Lemma Size_of_nat (k : nat) :
  Z.of_nat k <= Int.max_int -> Size.of_int (Z.of_nat k) = Z.of_nat k.
Proof.
  intros H. unfold Size.of_int, Size.wrap. apply Z.mod_small.
  unfold Int.max_int in H. lia.
Qed.

Lemma Int_wrap_small (z : Z) :
  Int.min_int <= z <= Int.max_int -> Int.wrap z = z.
Proof.
  unfold Int.min_int, Int.max_int, Int.wrap. intros H.
  rewrite Z.mod_small; lia.
Qed.

(** Adding a constant wraps distinct small indices to distinct values. *)
Lemma Int_add_inj (c i j : Z) :
  0 <= i <= Int.max_int -> 0 <= j <= Int.max_int ->
  Int.add i c = Int.add j c -> i = j.
Proof.
  unfold Int.max_int, Int.add, Int.wrap. intros Hi Hj H.
  assert (E : (i + c + 2 ^ 31) mod 2 ^ 32 = (j + c + 2 ^ 31) mod 2 ^ 32) by lia.
  pose proof (Z.div_mod (i + c + 2 ^ 31) (2 ^ 32) ltac:(lia)) as Di.
  pose proof (Z.div_mod (j + c + 2 ^ 31) (2 ^ 32) ltac:(lia)) as Dj.
  rewrite E in Di.
  set (qi := (i + c + 2 ^ 31) / 2 ^ 32) in *.
  set (qj := (j + c + 2 ^ 31) / 2 ^ 32) in *.
  assert (i - j = 2 ^ 32 * (qi - qj)) by lia.
  assert (qi - qj = 0) by lia.
  lia.
Qed.

(** Reading a vector after one of its entries was stored. *)
Ltac list_set_solve Hlen :=
  try (rewrite nth_error_list_set by exact Hlen; now rewrite Nat.eqb_refl);
  try (let j := fresh "j" in
       let Hj := fresh "Hj" in
       intros j Hj; rewrite nth_error_list_set by exact Hlen;
       match goal with
       | |- context [(?a =? ?b)%nat] =>
           destruct (Nat.eqb_spec a b); [contradiction|reflexivity]
       end).

Lemma at_of_nat {A : Type} (v : list A) (k : nat) :
  at_ v (Z.of_nat k) = match nth_error v k with Some x => Done x | None => Fault end.
Proof.
  unfold at_. destruct (Z.ltb_spec (Z.of_nat k) 0) as [E|E]; [lia|].
  now rewrite Nat2Z.id.
Qed.

Lemma store_of_nat {A : Type} (v v' : list A) (k : nat) (x : A) :
  store v (Z.of_nat k) x = Done v' ->
  (k < length v)%nat /\ v' = list_set v k x.
Proof.
  unfold store. destruct (_ && _) eqn:E; [|discriminate].
  apply andb_true_iff in E. destruct E as [_ E]. apply Z.ltb_lt in E.
  intros H. inversion H; subst. rewrite Nat2Z.id. split; [lia|reflexivity].
Qed.

(** ** qpsolver/feasibility_bounded.hpp: what the projection computes *)

Section Projection.
Import Qp.
Variable instance : Instance.

(** One pass of the loop that ends normally, read off the code. *)
Lemma project_step_Done (k : nat) (p p' : projection) :
  Z.of_nat k <= Int.max_int ->
  project_step instance (Z.of_nat k) p = Done p' ->
  exists r lo (act : option BasisStatus) (r' : double),
    nth_error p.(res_value) k = Some r /\
    nth_error instance.(var_lo) k = Some lo /\
    ((Double.le r lo = true /\ act = Some ActiveAtLower /\ r' = lo) \/
     (Double.le r lo = false /\
      exists up, nth_error instance.(var_up) k = Some up /\
        ((Double.ge r up = true /\ act = Some ActiveAtUpper /\ r' = up) \/
         (Double.ge r up = false /\ act = None /\ r' = r)))) /\
    nth_error p'.(res_value) k = Some r' /\
    (forall j, j <> k -> nth_error p'.(res_value) j = nth_error p.(res_value) j) /\
    p'.(initialactive)
      = p.(initialactive) ++ (match act with Some _ => [var_index instance k] | None => [] end) /\
    p'.(initialinactive)
      = p.(initialinactive) ++ (match act with Some _ => [] | None => [var_index instance k] end) /\
    p'.(atlower)
      = p.(atlower) ++ (match act with Some s => [s] | None => [] end) /\
    length p'.(x0).(value) = length p.(x0).(value) /\
    (forall j, j <> k ->
       nth_error p'.(x0).(value) j = nth_error p.(x0).(value) j) /\
    nth_error p'.(x0).(value) k
      = if Double.gt (Double.fabs r') Double.lit_10Em5 then Some r'
        else nth_error p.(x0).(value) k.
Proof.
  intros Hk Hrun. unfold project_step in Hrun.
  rewrite (Size_of_nat k Hk) in Hrun.
  rewrite !at_of_nat in Hrun.
  destruct (nth_error (res_value p) k) as [r|] eqn:Er; [|discriminate].
  destruct (nth_error (var_lo instance) k) as [lo|] eqn:Elo; [|discriminate].
  simpl in Hrun.
  apply bind_Done in Hrun. destruct Hrun as [q [Hq Hrun]].
  assert (Hq' : exists (act : option BasisStatus) (r' : double),
    ((Double.le r lo = true /\ act = Some ActiveAtLower /\ r' = lo) \/
     (Double.le r lo = false /\
      exists up, nth_error instance.(var_up) k = Some up /\
        ((Double.ge r up = true /\ act = Some ActiveAtUpper /\ r' = up) \/
         (Double.ge r up = false /\ act = None /\ r' = r)))) /\
    nth_error q.(res_value) k = Some r' /\
    (forall j, j <> k -> nth_error q.(res_value) j = nth_error p.(res_value) j) /\
    q.(initialactive)
      = p.(initialactive)
        ++ (match act with Some _ => [var_index instance k] | None => [] end) /\
    q.(initialinactive)
      = p.(initialinactive)
        ++ (match act with Some _ => [] | None => [var_index instance k] end) /\
    q.(atlower) = p.(atlower) ++ (match act with Some s => [s] | None => [] end) /\
    q.(x0) = p.(x0)).
  { destruct (Double.le r lo) eqn:Ele.
    - apply bind_Done in Hq. destruct Hq as [v [Hv Hq]].
      apply store_of_nat in Hv. destruct Hv as [Hlen ->].
      inversion Hq; subst q; clear Hq. simpl.
      exists (Some ActiveAtLower), lo.
      repeat split; auto; try (now rewrite app_nil_r); list_set_solve Hlen.
    - destruct (nth_error (var_up instance) k) as [up|] eqn:Eup; [|discriminate].
      simpl in Hq. destruct (Double.ge r up) eqn:Ege.
      + apply bind_Done in Hq. destruct Hq as [v [Hv Hq]].
        apply store_of_nat in Hv. destruct Hv as [Hlen ->].
        inversion Hq; subst q; clear Hq. simpl.
        exists (Some ActiveAtUpper), up.
        repeat split; eauto 8; try (now rewrite app_nil_r); list_set_solve Hlen.
      + inversion Hq; subst q; clear Hq. simpl.
        exists None, r.
        repeat split; eauto 8; now rewrite app_nil_r. }
  destruct Hq' as [act [r' [Hcase [Hr' [Hother [Ha [Hi [Hs Hx]]]]]]]].
  exists r, lo, act, r'.
  rewrite at_of_nat, Hr' in Hrun. simpl in Hrun.
  destruct (Double.gt (Double.fabs r') Double.lit_10Em5) eqn:Egt.
  - apply bind_Done in Hrun. destruct Hrun as [v [Hv Hrun]].
    apply bind_Done in Hrun. destruct Hrun as [ix [_ Hrun]].
    apply store_of_nat in Hv. destruct Hv as [Hlen ->].
    inversion Hrun; subst p'; clear Hrun. simpl.
    rewrite Hx in *.
    repeat split; auto; try apply length_list_set; list_set_solve Hlen.
  - inversion Hrun; subst p'; clear Hrun. rewrite Hx.
    repeat split; auto.
Qed.
End Projection.

Section ProjectionLoop.
Import Qp.
Variable instance : Instance.
Variable res0 : list double.
Variable N : nat.

Lemma projection_inv_step (k : nat) (p p' : projection) :
  Z.of_nat k <= Int.max_int ->
  projection_inv instance res0 N k p ->
  project_step instance (Z.of_nat k) p = Done p' ->
  projection_inv instance res0 N (Datatypes.S k) p'.
Proof.
  intros Hk [Ires [Iact [Iin [Ist [Ilen Ix]]]]] Hrun.
  destruct (project_step_Done instance k p p' Hk Hrun)
    as [r [lo [act [r' [Hr [Hlo [Hcase [Hr' [Hres [Ha [Hi [Hs [Hxl [Hxo Hxk]]]]]]]]]]]]]].
  assert (Hr0 : nth_error res0 k = Some r).
  { rewrite <- Hr, Ires. now rewrite Nat.ltb_irrefl. }
  assert (Hclamp : r' = clamp_at instance k r).
  { unfold clamp_at. rewrite Hlo.
    destruct Hcase as [[E [_ ->]]|[E [up [Hup [[E' [_ ->]]|[E' [_ ->]]]]]]];
      rewrite E; try rewrite Hup; try rewrite E'; reflexivity. }
  assert (Hact : active_at instance res0 k = match act with Some _ => true | None => false end).
  { unfold active_at. rewrite Hr0, Hlo.
    destruct Hcase as [[E [-> _]]|[E [up [Hup [[E' [-> _]]|[E' [-> _]]]]]]];
      rewrite E; try rewrite Hup; try rewrite E'; reflexivity. }
  assert (Hstat : forall s, act = Some s -> status_at instance res0 k = s).
  { intros s Hs'. unfold status_at. rewrite Hr0, Hlo.
    destruct Hcase as [[E [Ea _]]|[E [up [Hup [[E' [Ea _]]|[E' [Ea _]]]]]]];
      rewrite E; congruence. }
  assert (Hlt : forall j, j <> k -> (j <? Datatypes.S k)%nat = (j <? k)%nat).
  { intros j Hj. destruct (Nat.ltb_spec j (Datatypes.S k)), (Nat.ltb_spec j k);
      auto; lia. }
  assert (Hkk : (k <? Datatypes.S k)%nat = true) by (apply Nat.ltb_lt; lia).
  unfold projection_inv.
  rewrite seq_S, !filter_app, !map_app. simpl filter. rewrite Hact.
  repeat split.
  - intros j. destruct (Nat.eq_dec j k) as [->|Hj].
    + rewrite Hkk, Hr', Hr0. simpl. now rewrite Hclamp.
    + rewrite (Hlt j Hj), (Hres j Hj). apply Ires.
  - rewrite Ha, Iact. destruct act; reflexivity.
  - rewrite Hi, Iin. destruct act; reflexivity.
  - rewrite Hs, Ist. destruct act as [s|]; [|reflexivity].
    simpl. now rewrite (Hstat s eq_refl).
  - now rewrite Hxl.
  - intros j HjN. destruct (Nat.eq_dec j k) as [->|Hj].
    + rewrite Hkk, Hxk, Hr0. simpl. rewrite <- Hclamp. unfold sparse.
      destruct (Double.gt (Double.fabs r') Double.lit_10Em5); [reflexivity|].
      rewrite (Ix k HjN). now rewrite Nat.ltb_irrefl.
    + rewrite (Hlt j Hj), (Hxo j Hj). now apply Ix.
Qed.

(** The loop of lines 57-73, when it ends. *)
Lemma projection_loop (n : Z) (p0 p : projection) :
  0 <= n <= Int.max_int ->
  projection_inv instance res0 N 0 p0 ->
  for_up 0 n (project_step instance) p0 = Done p ->
  projection_inv instance res0 N (Z.to_nat n) p.
Proof.
  intros Hn H0 Hrun. unfold for_up in Hrun.
  replace (n - 0) with n in Hrun by lia.
  apply (iterate_inv (project_step instance) 1 (projection_inv instance res0 N)
                     (Z.to_nat n) 0 p0 p H0); [|exact Hrun].
  intros k t t' Hk Pk Hb.
  replace (0 + Z.of_nat k * 1) with (Z.of_nat k) in Hb by lia.
  apply (projection_inv_step k t t'); auto. lia.
Qed.
End ProjectionLoop.

(** ** qpsolver/feasibility_bounded.hpp: the routine as a whole *)

Lemma filter_partition_length {A : Type} (f : A -> bool) (l : list A) :
  (length (filter f l) + length (filter (fun x => negb (f x)) l) = length l)%nat.
Proof.
  induction l as [|x l IH]; simpl; [reflexivity|].
  destruct (f x); simpl; lia.
Qed.

Lemma Vector_new_Done (d : Z) (v : Qp.Vector) :
  0 <= d <= Int.max_int ->
  Qp.Vector_new d = Done v ->
  v = Qp.mkVector d 0 (repeat 0 (Z.to_nat d)) (repeat Double.pos_zero (Z.to_nat d)).
Proof.
  intros Hd. unfold Qp.Vector_new, resize.
  replace (Size.of_int d) with d.
  - destruct (d <=? Int.max_int); simpl; [|discriminate]. now intros [= <-].
  - unfold Size.of_int, Size.wrap. rewrite Z.mod_small; [reflexivity|].
    unfold Int.max_int in Hd. lia.
Qed.

Lemma Vector_new_no_assertion (d : Z) : Qp.Vector_new d <> AssertionFailure.
Proof. unfold Qp.Vector_new. no_assertion. Qed.

Lemma unprojected_point_no_assertion (instance : Qp.Instance) :
  Qp.unprojected_point instance <> AssertionFailure.
Proof.
  unfold Qp.unprojected_point, Qp.cholesky, Qp.cholesky_entry,
    Qp.forward_solve, Qp.backward_solve, Qp.L_at.
  no_assertion.
Qed.

Lemma project_step_no_assertion (instance : Qp.Instance) (i : Z) (p : Qp.projection) :
  Qp.project_step instance i p <> AssertionFailure.
Proof. unfold Qp.project_step. no_assertion. Qed.

(** What a run that ends normally returns, in terms of the point [res0]
    before the projection. *)
Lemma computestartingpoint_bounded_Done
      (instance : Qp.Instance) (ms ms' : Qp.QpModelStatus)
      (r : Qp.QpHotstartInformation) :
  0 <= Qp.num_var instance <= Int.max_int ->
  Qp.computestartingpoint_bounded instance ms = Done (ms', r) ->
  exists res0,
    Qp.unprojected_point instance = Done res0 /\
    Qp.active r
      = map (var_index instance)
            (filter (active_at instance res0)
                    (seq 0 (Z.to_nat (Qp.num_var instance)))) /\
    Qp.inactive r
      = map (var_index instance)
            (filter (fun j => negb (active_at instance res0 j))
                    (seq 0 (Z.to_nat (Qp.num_var instance)))) /\
    Qp.status r
      = map (status_at instance res0)
            (filter (active_at instance res0)
                    (seq 0 (Z.to_nat (Qp.num_var instance)))) /\
    (forall j, (j < Z.to_nat (Qp.num_var instance))%nat ->
       exists v, nth_error res0 j = Some v /\
                 nth_error (Qp.value (Qp.primal r)) j
                 = Some (sparse (clamp_at instance j v))) /\
    ms' = match Qp.active r with [] => Qp.OPTIMAL | _ :: _ => ms end.
Proof.
  intros Hn Hrun. unfold Qp.computestartingpoint_bounded in Hrun.
  apply bind_Done in Hrun. destruct Hrun as [res0 [Hres Hrun]].
  apply bind_Done in Hrun. destruct Hrun as [x0 [Hx0 Hrun]].
  apply bind_Done in Hrun. destruct Hrun as [ra [_ Hrun]].
  apply bind_Done in Hrun. destruct Hrun as [p [Hloop Hrun]].
  apply (Vector_new_Done _ _ Hn) in Hx0. subst x0.
  assert (H0 : projection_inv instance res0 (Z.to_nat (Qp.num_var instance)) 0
                 (Qp.mkProjection res0
                    (Qp.mkVector (Qp.num_var instance) 0
                       (repeat 0 (Z.to_nat (Qp.num_var instance)))
                       (repeat Double.pos_zero (Z.to_nat (Qp.num_var instance))))
                    [] [] [])).
  { unfold projection_inv. simpl. repeat split; auto.
    - apply repeat_length.
    - intros j Hj. now apply nth_error_repeat. }
  pose proof (projection_loop instance res0 _ _ _ p Hn H0 Hloop)
    as [Ires [Iact [Iin [Ist [Ilen Ix]]]]].
  destruct (Int.wrap _ =? Qp.num_var instance); [|discriminate].
  inversion Hrun; subst ms' r; clear Hrun. simpl.
  exists res0. repeat split; auto.
  - intros j Hj. specialize (Ix j Hj).
    assert (Hj' : (j <? Z.to_nat (Qp.num_var instance))%nat = true)
      by now apply Nat.ltb_lt.
    rewrite Hj' in Ix.
    destruct (nth_error res0 j) as [v|] eqn:Ev.
    + exists v. split; [reflexivity|exact Ix].
    + simpl in Ix. apply nth_error_None in Ix. lia.
  - destruct (Qp.initialactive p); reflexivity.
Qed.

(** The assertion of lines 80-81 never fails. *)
Lemma computestartingpoint_bounded_no_assertion
      (instance : Qp.Instance) (ms : Qp.QpModelStatus) :
  0 <= Qp.num_var instance <= Int.max_int ->
  Qp.computestartingpoint_bounded instance ms <> AssertionFailure.
Proof.
  intros Hn. unfold Qp.computestartingpoint_bounded.
  apply bind_no_assertion; [apply unprojected_point_no_assertion|intros res0].
  destruct (Qp.Vector_new (Qp.num_var instance)) as [x0| |] eqn:Hx0; simpl;
    try discriminate.
  2:{ now apply Vector_new_no_assertion in Hx0. }
  apply (Vector_new_Done _ _ Hn) in Hx0. subst x0.
  apply bind_no_assertion; [apply Vector_new_no_assertion|intros ra].
  destruct (for_up 0 (Qp.num_var instance) (Qp.project_step instance) _)
    as [p| |] eqn:Hloop; simpl; try discriminate.
  2:{ apply for_up_no_assertion in Hloop; [contradiction|].
      apply project_step_no_assertion. }
  assert (H0 : projection_inv instance res0 (Z.to_nat (Qp.num_var instance)) 0
                 (Qp.mkProjection res0
                    (Qp.mkVector (Qp.num_var instance) 0
                       (repeat 0 (Z.to_nat (Qp.num_var instance)))
                       (repeat Double.pos_zero (Z.to_nat (Qp.num_var instance))))
                    [] [] [])).
  { unfold projection_inv. simpl. repeat split; auto.
    - apply repeat_length.
    - intros j Hj. now apply nth_error_repeat. }
  pose proof (projection_loop instance res0 _ _ _ p Hn H0 Hloop)
    as [_ [Iact [Iin _]]].
  rewrite Iact, Iin, !length_map, <- Nat2Z.inj_add,
    filter_partition_length, length_seq, Z2Nat.id by lia.
  rewrite Int_wrap_small by (unfold Int.min_int; lia).
  rewrite Z.eqb_refl. discriminate.
Qed.

(** ** qpsolver/feasibility_bounded.hpp: runs on well-formed instances *)

Lemma at_Done {A : Type} (v : list A) (i : Z) :
  0 <= i < Z.of_nat (length v) ->
  exists x, at_ v i = Done x /\ nth_error v (Z.to_nat i) = Some x.
Proof.
  intros Hi. unfold at_. destruct (Z.ltb_spec i 0) as [H|H]; [lia|].
  destruct (nth_error v (Z.to_nat i)) as [x|] eqn:E; [eauto|].
  apply nth_error_None in E. lia.
Qed.

Lemma store_Done {A : Type} (v : list A) (i : Z) (x : A) :
  0 <= i < Z.of_nat (length v) ->
  exists v', store v i x = Done v' /\ length v' = length v.
Proof.
  intros Hi. unfold store.
  destruct (Z.leb_spec 0 i) as [H1|H1]; [|lia].
  destruct (Z.ltb_spec i (Z.of_nat (length v))) as [H2|H2]; [|lia].
  simpl. eexists. split; [reflexivity|apply length_list_set].
Qed.

Lemma Size_wrap_small (z : Z) : 0 <= z <= Int.max_int -> Size.wrap z = z.
Proof.
  intros H. unfold Size.wrap. apply Z.mod_small. unfold Int.max_int in H. lia.
Qed.

(** Position [(i, j)] of the [n] by [n] array [L], as [size_t] and as
    [HighsInt] arithmetic computes it. *)
Lemma square_index (n i j : Z) :
  n * n <= Int.max_int -> 0 <= i < n -> 0 <= j < n ->
  0 <= i * n + j < n * n /\
  Size.add (Size.mul i (Size.of_int n)) j = i * n + j /\
  Size.of_int (Int.add (Int.mul i n) j) = i * n + j.
Proof.
  intros Hn Hi Hj.
  assert (H0 : 0 <= i * n + j < n * n) by nia.
  assert (H1 : 0 <= i * n <= Int.max_int) by nia.
  assert (H2 : 0 <= n <= Int.max_int) by nia.
  split; [exact H0|]. split.
  - unfold Size.add, Size.mul, Size.of_int.
    rewrite (Size_wrap_small n H2), (Size_wrap_small (i * n) H1).
    apply Size_wrap_small. lia.
  - unfold Int.add, Int.mul, Size.of_int.
    rewrite (Int_wrap_small (i * n)) by (unfold Int.min_int; lia).
    rewrite (Int_wrap_small (i * n + j)) by (unfold Int.min_int; lia).
    apply Size_wrap_small. lia.
Qed.

Section LoopsThatEnd.
Context {S : Type}.

Lemma for_up_total (P : Z -> S -> Prop) (lo hi : Z)
      (body : Z -> S -> result S) (s : S) :
  lo <= hi ->
  P lo s ->
  (forall i t, lo <= i < hi -> P i t ->
     exists t', body i t = Done t' /\ P (i + 1) t') ->
  exists s', for_up lo hi body s = Done s' /\ P hi s'.
Proof.
  intros Hle H0 Hstep. unfold for_up.
  destruct (iterate_total body 1 (fun k => P (lo + Z.of_nat k))
                          (Z.to_nat (hi - lo)) lo s) as [s' [E Ps]].
  - now replace (lo + Z.of_nat 0) with lo by lia.
  - intros k t Hk Pk.
    destruct (Hstep (lo + Z.of_nat k) t) as [t' [Et Pt]]; [lia|exact Pk|].
    exists t'. split.
    + now replace (lo + Z.of_nat k * 1) with (lo + Z.of_nat k) by lia.
    + now replace (lo + Z.of_nat (Datatypes.S k)) with (lo + Z.of_nat k + 1) by lia.
  - exists s'. split; [exact E|].
    now replace (lo + Z.of_nat (Z.to_nat (hi - lo))) with hi in Ps by lia.
Qed.

Lemma for_down_total (P : S -> Prop) (hi lo : Z)
      (body : Z -> S -> result S) (s : S) :
  P s ->
  (forall i t, lo <= i <= hi -> P t -> exists t', body i t = Done t' /\ P t') ->
  exists s', for_down hi lo body s = Done s' /\ P s'.
Proof.
  intros H0 Hstep. unfold for_down.
  destruct (iterate_total body (-1) (fun _ => P)
                          (Z.to_nat (hi - lo + 1)) hi s) as [s' [E Ps]].
  - exact H0.
  - intros k t Hk Pk. apply Hstep; [lia|exact Pk].
  - exists s'. auto.
Qed.
End LoopsThatEnd.

Section WellFormedRuns.
Variable instance : Qp.Instance.
Hypothesis Hwf : well_formed instance.

Lemma wf_num_var : 0 <= Qp.num_var instance <= Int.max_int.
Proof.
  destruct Hwf as [H0 [H1 _]]. split; [exact H0|].
  assert (Qp.num_var instance <= Qp.num_var instance * Qp.num_var instance
          \/ Qp.num_var instance = 0) by nia.
  unfold Int.max_int in *. lia.
Qed.

Lemma wf_square : Qp.num_var instance * Qp.num_var instance <= Int.max_int.
Proof. now destruct Hwf as [_ [H1 _]]. Qed.

(** Reading [L] at a position of the square. *)
Lemma L_read (L : list double) (i j : Z) :
  Z.of_nat (length L) = Qp.num_var instance * Qp.num_var instance ->
  0 <= i < Qp.num_var instance -> 0 <= j < Qp.num_var instance ->
  (exists x, at_ L (Size.add (Size.mul i (Size.of_int (Qp.num_var instance))) j)
             = Done x) /\
  (exists x, Qp.L_at instance L i j = Done x).
Proof.
  intros HL Hi Hj.
  destruct (square_index (Qp.num_var instance) i j wf_square Hi Hj) as [H0 [H1 H2]].
  unfold Qp.L_at. rewrite H1, H2.
  destruct (at_Done L (i * Qp.num_var instance + j)) as [x [E _]]; [lia|].
  split; exists x; exact E.
Qed.

Lemma L_write (L : list double) (i j : Z) (x : double) :
  Z.of_nat (length L) = Qp.num_var instance * Qp.num_var instance ->
  0 <= i < Qp.num_var instance -> 0 <= j < Qp.num_var instance ->
  exists L', store L (Size.add (Size.mul i (Size.of_int (Qp.num_var instance))) j) x
             = Done L' /\
             Z.of_nat (length L') = Qp.num_var instance * Qp.num_var instance.
Proof.
  intros HL Hi Hj.
  destruct (square_index (Qp.num_var instance) i j wf_square Hi Hj) as [H0 [H1 _]].
  rewrite H1.
  destruct (store_Done L (i * Qp.num_var instance + j) x) as [L' [E El]]; [lia|].
  exists L'. split; [exact E|]. now rewrite El.
Qed.

Lemma cholesky_entry_total (col idx : Z) (L : list double) :
  0 <= col < Qp.num_var instance ->
  0 <= idx < Z.of_nat (length (Qp.mat_index (Qp.mat (Qp.Q instance)))) ->
  Z.of_nat (length L) = Qp.num_var instance * Qp.num_var instance ->
  exists L', Qp.cholesky_entry instance col idx L = Done L' /\
             Z.of_nat (length L') = Qp.num_var instance * Qp.num_var instance.
Proof.
  intros Hcol Hidx HL.
  pose proof wf_num_var as Hn.
  destruct Hwf as [_ [_ [_ [_ [_ [Hval [_ [Hrows _]]]]]]]].
  unfold Qp.cholesky_entry.
  destruct (at_Done _ idx Hidx) as [r [Er Hr]]. rewrite Er. simpl.
  assert (Hrow : 0 <= r < Qp.num_var instance).
  { rewrite Forall_forall in Hrows. apply Hrows. eapply nth_error_In, Hr. }
  assert (Erow : Size.of_int r = r) by (apply Size_wrap_small; lia).
  rewrite Erow.
  destruct (at_Done (Qp.mat_value (Qp.mat (Qp.Q instance))) idx) as [v [Ev _]];
    [rewrite Hval; exact Hidx|].
  destruct (r =? col).
  - match goal with
    | |- context [for_up 0 r ?body ?s] =>
        destruct (for_up_total (fun _ _ => True) 0 r body s) as [sum [Es _]];
          [lia|exact I| |rewrite Es; simpl]
    end.
    { intros k t Hk _.
      destruct (L_read L k r HL) as [[a Ea] _]; [lia|lia|].
      rewrite Ea. simpl. eauto. }
    rewrite Ev. simpl. now apply L_write.
  - match goal with
    | |- context [for_up 0 r ?body ?s] =>
        destruct (for_up_total (fun _ _ => True) 0 r body s) as [sum [Es _]];
          [lia|exact I| |rewrite Es; simpl]
    end.
    { intros k t Hk _.
      destruct (L_read L k col HL) as [[a Ea] _]; [lia|lia|].
      destruct (L_read L k r HL) as [[b Eb] _]; [lia|lia|].
      rewrite Ea. simpl. rewrite Eb. simpl. eauto. }
    rewrite Ev. simpl.
    destruct (L_read L r r HL) as [[d Ed] _]; [lia|lia|].
    rewrite Ed. simpl. now apply L_write.
Qed.

Lemma cholesky_total :
  exists L, Qp.cholesky instance = Done L /\
            Z.of_nat (length L) = Qp.num_var instance * Qp.num_var instance.
Proof.
  pose proof wf_num_var as Hn. pose proof wf_square as Hsq.
  destruct Hwf as [H0 [_ [_ [Hstart [Hnnz [_ [Hst _]]]]]]].
  assert (Hsq0 : 0 <= Qp.num_var instance * Qp.num_var instance) by nia.
  assert (E1 : Int.mul (Qp.num_var instance) (Qp.num_var instance)
               = Qp.num_var instance * Qp.num_var instance).
  { apply Int_wrap_small. unfold Int.min_int. lia. }
  assert (E2 : Size.of_int (Qp.num_var instance * Qp.num_var instance)
               = Qp.num_var instance * Qp.num_var instance).
  { apply Size_wrap_small. lia. }
  assert (E3 : Size.of_int (Qp.num_var instance) = Qp.num_var instance).
  { apply Size_wrap_small. lia. }
  unfold Qp.cholesky, resize. rewrite E1, E2, E3.
  destruct (Z.leb_spec (Qp.num_var instance * Qp.num_var instance) Int.max_int)
    as [_|H]; [|lia].
  simpl.
  apply (for_up_total
           (fun _ L => Z.of_nat (length L)
                       = Qp.num_var instance * Qp.num_var instance)).
  - lia.
  - rewrite repeat_length. nia.
  - intros col L Hcol HL.
    destruct (at_Done (Qp.mat_start (Qp.mat (Qp.Q instance))) col) as [lo [Elo Hlo]];
      [lia|].
    assert (Ecol : Size.add col 1 = col + 1).
    { unfold Size.add. apply Size_wrap_small. lia. }
    destruct (at_Done (Qp.mat_start (Qp.mat (Qp.Q instance))) (col + 1))
      as [hi [Ehi Hhi]]; [lia|].
    rewrite Elo. simpl. rewrite Ecol, Ehi. simpl.
    rewrite Forall_forall in Hst.
    assert (Blo := Hst lo (nth_error_In _ _ Hlo)).
    assert (Bhi := Hst hi (nth_error_In _ _ Hhi)).
    assert (E4 : Size.of_int lo = lo) by (apply Size_wrap_small; lia).
    assert (E5 : Size.of_int hi = hi) by (apply Size_wrap_small; lia).
    rewrite E4, E5.
    destruct (Z.le_gt_cases lo hi) as [Hle|Hgt].
    + apply (for_up_total
               (fun _ L => Z.of_nat (length L)
                           = Qp.num_var instance * Qp.num_var instance));
        [exact Hle|exact HL|].
      intros idx L1 Hidx HL1. apply cholesky_entry_total; [exact Hcol|lia|exact HL1].
    + exists L. split; [|exact HL].
      unfold for_up. replace (Z.to_nat (hi - lo)) with 0%nat by lia. reflexivity.
Qed.
End WellFormedRuns.

Section WellFormedSolve.
Variable instance : Qp.Instance.
Hypothesis Hwf : well_formed instance.
Variable L : list double.
Hypothesis HL : Z.of_nat (length L) = Qp.num_var instance * Qp.num_var instance.

Lemma forward_solve_total (res : list double) :
  Z.of_nat (length res) = Qp.num_var instance ->
  exists res', Qp.forward_solve instance L (Qp.num_var instance) res = Done res' /\
               Z.of_nat (length res') = Qp.num_var instance.
Proof.
  intros Hres. pose proof (wf_num_var instance Hwf) as Hn.
  unfold Qp.forward_solve.
  apply (for_up_total (fun _ res => Z.of_nat (length res) = Qp.num_var instance));
    [lia|exact Hres|].
  intros r res1 Hr Hres1.
  assert (Er : Size.of_int r = r) by (apply Size_wrap_small; lia).
  rewrite Er.
  match goal with
  | |- context [for_up 0 r ?body ?s] =>
      destruct (for_up_total
                  (fun _ res => Z.of_nat (length res) = Qp.num_var instance)
                  0 r body s) as [res2 [E2 Hres2]];
        [lia|exact Hres1| |rewrite E2; simpl]
  end.
  { intros j t Hj Ht.
    assert (Ej : Size.of_int j = j) by (apply Size_wrap_small; lia).
    rewrite Ej.
    destruct (at_Done t r) as [xr [Exr _]]; [lia|].
    destruct (at_Done t j) as [xj [Exj _]]; [lia|].
    destruct (L_read instance Hwf L j r HL) as [_ [l El]]; [lia|lia|].
    rewrite Exr. simpl. rewrite Exj. simpl. rewrite El. simpl.
    destruct (store_Done t r (Double.sub xr (Double.mul xj l))) as [t' [Et' Hl']];
      [lia|].
    exists t'. split; [exact Et'|]. now rewrite Hl'. }
  destruct (at_Done res2 r) as [xr [Exr _]]; [lia|].
  destruct (L_read instance Hwf L r r HL) as [_ [l El]]; [lia|lia|].
  rewrite Exr. simpl. rewrite El. simpl.
  destruct (store_Done res2 r (Double.div xr l)) as [t' [Et' Hl']]; [lia|].
  exists t'. split; [exact Et'|]. now rewrite Hl'.
Qed.

Lemma backward_solve_total (res : list double) :
  Z.of_nat (length res) = Qp.num_var instance ->
  exists res', Qp.backward_solve instance L (Qp.num_var instance) res = Done res' /\
               Z.of_nat (length res') = Qp.num_var instance.
Proof.
  intros Hres. pose proof (wf_num_var instance Hwf) as Hn.
  unfold Qp.backward_solve.
  assert (Esub : Int.sub (Qp.num_var instance) 1 = Qp.num_var instance - 1).
  { apply Int_wrap_small. unfold Int.min_int. lia. }
  rewrite Esub.
  apply (for_down_total (fun res => Z.of_nat (length res) = Qp.num_var instance));
    [exact Hres|].
  intros i res1 Hi Hres1.
  assert (Ei : Size.of_int i = i) by (apply Size_wrap_small; lia).
  rewrite Ei.
  match goal with
  | |- context [for_down ?hi ?lo ?body ?s] =>
      destruct (for_down_total (fun _ => True) hi lo body s) as [sum [Es _]];
        [exact I| |rewrite Es; simpl]
  end.
  { intros j t Hj _.
    assert (Ej : Size.of_int j = j) by (apply Size_wrap_small; lia).
    rewrite Ej.
    destruct (at_Done res1 j) as [xj [Exj _]]; [lia|].
    destruct (L_read instance Hwf L i j HL) as [_ [l El]]; [lia|lia|].
    rewrite Exj. simpl. rewrite El. simpl. eauto. }
  destruct (at_Done res1 i) as [xi [Exi _]]; [lia|].
  destruct (L_read instance Hwf L i i HL) as [_ [l El]]; [lia|lia|].
  rewrite Exi. simpl. rewrite El. simpl.
  destruct (store_Done res1 i (Double.div (Double.sub xi sum) l)) as [t' [Et' Hl']];
    [lia|].
  exists t'. split; [exact Et'|]. now rewrite Hl'.
Qed.
End WellFormedSolve.

Lemma unprojected_point_total (instance : Qp.Instance) :
  well_formed instance ->
  exists res, Qp.unprojected_point instance = Done res /\
              Z.of_nat (length res) = Qp.num_var instance.
Proof.
  intros Hwf. unfold Qp.unprojected_point.
  destruct (cholesky_total instance Hwf) as [L [EL HL]]. rewrite EL. simpl.
  assert (Hdim : Qp.dim (Qp.c instance) = Qp.num_var instance)
    by (destruct Hwf as [_ [_ [_ [_ [_ [_ [_ [_ [H _]]]]]]]]]; exact H).
  assert (Hc : Z.of_nat (length (Qp.value (Qp.c instance))) = Qp.num_var instance)
    by (destruct Hwf as [_ [_ [_ [_ [_ [_ [_ [_ [_ [H _]]]]]]]]]]; exact H).
  rewrite Hdim.
  destruct (forward_solve_total instance Hwf L HL _ Hc) as [res1 [E1 H1]].
  rewrite E1. simpl.
  now apply backward_solve_total.
Qed.

Lemma project_step_total (instance : Qp.Instance) (i : Z) (p : Qp.projection) :
  well_formed instance ->
  0 <= i < Qp.num_var instance ->
  Z.of_nat (length (Qp.res_value p)) = Qp.num_var instance ->
  Z.of_nat (length (Qp.value (Qp.x0 p))) = Qp.num_var instance ->
  Z.of_nat (length (Qp.index (Qp.x0 p))) = Qp.num_var instance ->
  0 <= Qp.num_nz (Qp.x0 p) <= i ->
  exists p', Qp.project_step instance i p = Done p' /\
             Z.of_nat (length (Qp.res_value p')) = Qp.num_var instance /\
             Z.of_nat (length (Qp.value (Qp.x0 p'))) = Qp.num_var instance /\
             Z.of_nat (length (Qp.index (Qp.x0 p'))) = Qp.num_var instance /\
             0 <= Qp.num_nz (Qp.x0 p') <= i + 1.
Proof.
  intros Hwf Hi Hres Hval Hidx Hnz.
  pose proof (wf_num_var instance Hwf) as Hn.
  assert (Hlo : Z.of_nat (length (Qp.var_lo instance)) = Qp.num_var instance)
    by (destruct Hwf as [_ [_ [_ [_ [_ [_ [_ [_ [_ [_ [H _]]]]]]]]]]]; exact H).
  assert (Hup : Z.of_nat (length (Qp.var_up instance)) = Qp.num_var instance)
    by (destruct Hwf as [_ [_ [_ [_ [_ [_ [_ [_ [_ [_ [_ H]]]]]]]]]]]; exact H).
  assert (Ei : Size.of_int i = i) by (apply Size_wrap_small; lia).
  unfold Qp.project_step. rewrite Ei.
  destruct (at_Done (Qp.res_value p) i) as [r [Er _]]; [lia|].
  destruct (at_Done (Qp.var_lo instance) i) as [lo [Elo _]]; [lia|].
  destruct (at_Done (Qp.var_up instance) i) as [up [Eup _]]; [lia|].
  rewrite Er. simpl. rewrite Elo. simpl.
  assert (Hq : exists q,
    (if Double.le r lo
     then res_value' <- store (Qp.res_value p) i lo;;
          Done (Qp.mkProjection res_value' (Qp.x0 p)
                  (Qp.initialactive p ++ [Int.add i (Qp.num_con instance)])
                  (Qp.initialinactive p) (Qp.atlower p ++ [Qp.ActiveAtLower]))
     else up <- at_ (Qp.var_up instance) i;;
          (if Double.ge r up
           then res_value' <- store (Qp.res_value p) i up;;
                Done (Qp.mkProjection res_value' (Qp.x0 p)
                        (Qp.initialactive p ++ [Int.add i (Qp.num_con instance)])
                        (Qp.initialinactive p) (Qp.atlower p ++ [Qp.ActiveAtUpper]))
           else Done (Qp.mkProjection (Qp.res_value p) (Qp.x0 p)
                        (Qp.initialactive p)
                        (Qp.initialinactive p ++ [Int.add i (Qp.num_con instance)])
                        (Qp.atlower p))))
    = Done q /\
    Z.of_nat (length (Qp.res_value q)) = Qp.num_var instance /\
    Qp.x0 q = Qp.x0 p).
  { destruct (Double.le r lo).
    - destruct (store_Done (Qp.res_value p) i lo) as [v [Ev Hv]]; [lia|].
      rewrite Ev. simpl. eexists. split; [reflexivity|]. simpl.
      split; [now rewrite Hv|reflexivity].
    - rewrite Eup. simpl. destruct (Double.ge r up).
      + destruct (store_Done (Qp.res_value p) i up) as [v [Ev Hv]]; [lia|].
        rewrite Ev. simpl. eexists. split; [reflexivity|]. simpl.
        split; [now rewrite Hv|reflexivity].
      + eexists. split; [reflexivity|]. simpl. auto. }
  destruct Hq as [q [Eq [Hqres Hqx]]]. rewrite Eq. simpl.
  destruct (at_Done (Qp.res_value q) i) as [r' [Er' _]]; [lia|].
  rewrite Er'. simpl. rewrite Hqx.
  destruct (Double.gt (Double.fabs r') Double.lit_10Em5).
  - destruct (store_Done (Qp.value (Qp.x0 p)) i r') as [v [Ev Hv]]; [lia|].
    assert (Enz : Size.of_int (Qp.num_nz (Qp.x0 p)) = Qp.num_nz (Qp.x0 p))
      by (apply Size_wrap_small; lia).
    destruct (store_Done (Qp.index (Qp.x0 p)) (Qp.num_nz (Qp.x0 p)) i)
      as [ix [Eix Hix]]; [lia|].
    rewrite Ev. simpl. rewrite Enz, Eix. simpl.
    eexists. split; [reflexivity|]. simpl.
    assert (Eadd : Int.add (Qp.num_nz (Qp.x0 p)) 1 = Qp.num_nz (Qp.x0 p) + 1).
    { apply Int_wrap_small. unfold Int.min_int. lia. }
    rewrite Eadd, Hv, Hix. repeat split; auto; lia.
  - exists q. split; [reflexivity|]. rewrite Hqx. repeat split; auto; lia.
Qed.

(** On a well-formed instance the routine ends normally. *)
Lemma computestartingpoint_bounded_total
      (instance : Qp.Instance) (ms : Qp.QpModelStatus) :
  well_formed instance ->
  exists ms' r, Qp.computestartingpoint_bounded instance ms = Done (ms', r).
Proof.
  intros Hwf. pose proof (wf_num_var instance Hwf) as Hn.
  assert (Hnc : 0 <= Qp.num_con instance <= Int.max_int)
    by (destruct Hwf as [_ [_ [H _]]]; exact H).
  destruct (Qp.computestartingpoint_bounded instance ms) as [[ms' r]| |] eqn:E.
  - eauto.
  - now apply computestartingpoint_bounded_no_assertion in E.
  - exfalso. unfold Qp.computestartingpoint_bounded in E.
    destruct (unprojected_point_total instance Hwf) as [res [Eres Hres]].
    rewrite Eres in E. simpl in E.
    assert (Ex : forall d, 0 <= d <= Int.max_int ->
                 Qp.Vector_new d
                 = Done (Qp.mkVector d 0 (repeat 0 (Z.to_nat d))
                            (repeat Double.pos_zero (Z.to_nat d)))).
    { intros d Hd. unfold Qp.Vector_new, resize.
      assert (Ed : Size.of_int d = d) by (apply Size_wrap_small; lia).
      rewrite Ed. destruct (Z.leb_spec d Int.max_int); [reflexivity|lia]. }
    rewrite (Ex _ Hn) in E. simpl in E. rewrite (Ex _ Hnc) in E. simpl in E.
    match type of E with
    | context [for_up 0 ?hi ?body ?s] =>
        destruct (for_up_total
                    (fun i p =>
                       Z.of_nat (length (Qp.res_value p)) = Qp.num_var instance /\
                       Z.of_nat (length (Qp.value (Qp.x0 p))) = Qp.num_var instance /\
                       Z.of_nat (length (Qp.index (Qp.x0 p))) = Qp.num_var instance /\
                       0 <= Qp.num_nz (Qp.x0 p) <= i)
                    0 hi body s) as [p [Ep _]]
    end.
    + lia.
    + simpl. rewrite !repeat_length. repeat split; lia.
    + intros i t Hi [H1 [H2 [H3 H4]]].
      now apply project_step_total.
    + rewrite Ep in E. simpl in E.
      destruct (Int.wrap _ =? Qp.num_var instance); discriminate.
Qed.

Example two_var_run (ms : Qp.QpModelStatus) :
  Qp.computestartingpoint_bounded two_var_instance ms = Done (ms, two_var_result).
Proof. destruct ms; vm_compute; reflexivity. Qed.

Lemma var_index_inj (instance : Qp.Instance) (i j : nat) :
  Z.of_nat i <= Int.max_int -> Z.of_nat j <= Int.max_int ->
  var_index instance i = var_index instance j -> i = j.
Proof.
  intros Hi Hj H. apply Int_add_inj in H; lia.
Qed.

Section Classification.
Variable instance : Qp.Instance.
Variable res0 : list double.
Variable n : nat.
Hypothesis Hn : Z.of_nat n <= Int.max_int.

Lemma in_classified (p : nat -> bool) (j : nat) :
  (j < n)%nat ->
  In (var_index instance j) (map (var_index instance) (filter p (seq 0 n)))
  <-> p j = true.
Proof.
  intros Hj. rewrite in_map_iff. split.
  - intros [x [Hx Hin]]. apply filter_In in Hin. destruct Hin as [Hin Hp].
    apply in_seq in Hin. apply var_index_inj in Hx; [now subst x|lia|lia].
  - intros Hp. exists j. split; [reflexivity|].
    apply filter_In. split; [apply in_seq; lia|exact Hp].
Qed.

Lemma classified_NoDup (p : nat -> bool) :
  NoDup (map (var_index instance) (filter p (seq 0 n)) ++
         map (var_index instance) (filter (fun j => negb (p j)) (seq 0 n))).
Proof.
  assert (Hinj : forall q : nat -> bool,
             NoDup (map (var_index instance) (filter q (seq 0 n)))).
  { intros q. apply NoDup_map_NoDup_ForallPairs.
    - intros x y Hx Hy Hxy.
      apply filter_In in Hx. destruct Hx as [Hx _]. apply in_seq in Hx.
      apply filter_In in Hy. destruct Hy as [Hy _]. apply in_seq in Hy.
      apply var_index_inj in Hxy; [exact Hxy|lia|lia].
    - apply NoDup_filter, seq_NoDup. }
  apply NoDup_app; [apply Hinj|apply Hinj|].
  intros a Ha Hb. apply in_map_iff in Ha. destruct Ha as [x [Hx Ha]].
  apply in_map_iff in Hb. destruct Hb as [y [Hy Hb]].
  apply filter_In in Ha. destruct Ha as [Ha Hpx]. apply in_seq in Ha.
  apply filter_In in Hb. destruct Hb as [Hb Hpy]. apply in_seq in Hb.
  assert (x = y) by (apply (var_index_inj instance); [lia|lia|congruence]).
  subst y. rewrite Hpx in Hpy. discriminate.
Qed.
End Classification.

(** A variable that the routine leaves inactive lies strictly inside its
    bounds, unless its value or one of its bounds is NaN. *)
Lemma inactive_strictly_inside
      (instance : Qp.Instance) (res0 : list double) (j : nat) (r lo up : double) :
  nth_error res0 j = Some r ->
  nth_error (Qp.var_lo instance) j = Some lo ->
  nth_error (Qp.var_up instance) j = Some up ->
  Double.is_nan r = false -> Double.is_nan lo = false -> Double.is_nan up = false ->
  active_at instance res0 j = false ->
  Double.lt lo r = true /\ Double.lt r up = true.
Proof.
  intros Hr Hlo Hup Nr Nlo Nup. unfold active_at. rewrite Hr, Hlo, Hup.
  intros H. apply orb_false_iff in H. destruct H as [H1 H2].
  split.
  - now apply not_le_lt.
  - rewrite ge_le in H2. now apply not_le_lt.
Qed.

(** C8, as the code has it.  In the bounded QP feasibility routine
    every variable index in [0 .. num_var-1] is classified into exactly
    one of the active set and the inactive set, so the assertion that the
    sizes of [initialactive] and [initialinactive] sum to [num_var] holds
    on every execution that reaches it.  For [num_var] a count
    ([0 <= num_var], an [int]): no run ends in the failed assertion; a
    run on a well-formed instance reaches the assertion and ends
    normally; and when a run ends normally the two sizes sum to
    [num_var] and no entry is repeated within or across the two sets.
    A variable with value [v] before the projection and bounds [lo] and
    [up] is in the active set exactly when [v <= lo] or [v >= up], and
    the returned point then holds that bound for it ([lo] when
    [v <= lo], [up] otherwise), or the constructor's zero when the
    magnitude of the bound is at most [10E-5]; a variable in the
    inactive set lies strictly inside its bounds, [lo < v < up], when
    none of [v], [lo] and [up] is NaN; and a variable whose value is NaN
    is in the inactive set. *)
Theorem every_variable_classified_once
        (instance : Qp.Instance) (ms : Qp.QpModelStatus) :
  0 <= Qp.num_var instance <= Int.max_int ->
  Qp.computestartingpoint_bounded instance ms <> AssertionFailure /\
  (well_formed instance ->
   exists ms' r, Qp.computestartingpoint_bounded instance ms = Done (ms', r)) /\
  forall ms' r,
    Qp.computestartingpoint_bounded instance ms = Done (ms', r) ->
    Z.of_nat (length (Qp.active r)) + Z.of_nat (length (Qp.inactive r))
    = Qp.num_var instance /\
    NoDup (Qp.active r ++ Qp.inactive r) /\
    exists res0,
      Qp.unprojected_point instance = Done res0 /\
      forall j, (j < Z.to_nat (Qp.num_var instance))%nat ->
        (In (var_index instance j) (Qp.active r)
         <-> active_at instance res0 j = true) /\
        (In (var_index instance j) (Qp.inactive r)
         <-> active_at instance res0 j = false) /\
        forall v lo up : double,
          nth_error res0 j = Some v ->
          nth_error (Qp.var_lo instance) j = Some lo ->
          nth_error (Qp.var_up instance) j = Some up ->
          (In (Int.add (Z.of_nat j) (Qp.num_con instance)) (Qp.active r)
           <-> Double.le v lo = true \/ Double.ge v up = true) /\
          (In (Int.add (Z.of_nat j) (Qp.num_con instance)) (Qp.active r) ->
           nth_error (Qp.value (Qp.primal r)) j
           = Some (sparse (if Double.le v lo then lo else up))) /\
          (In (Int.add (Z.of_nat j) (Qp.num_con instance)) (Qp.inactive r) ->
           Double.is_nan v = false -> Double.is_nan lo = false ->
           Double.is_nan up = false ->
           Double.lt lo v = true /\ Double.lt v up = true) /\
          (Double.is_nan v = true ->
           In (Int.add (Z.of_nat j) (Qp.num_con instance)) (Qp.inactive r)).
Proof.
  intros Hn. split; [now apply computestartingpoint_bounded_no_assertion|].
  split; [now apply computestartingpoint_bounded_total|].
  intros ms' r Hrun.
  destruct (computestartingpoint_bounded_Done instance ms ms' r Hn Hrun)
    as [res0 [Hres [Hact [Hin [_ [Hx _]]]]]].
  assert (HK : Z.of_nat (Z.to_nat (Qp.num_var instance)) <= Int.max_int) by lia.
  rewrite Hact, Hin. split; [|split].
  - rewrite !length_map, <- Nat2Z.inj_add, filter_partition_length, length_seq.
    lia.
  - now apply classified_NoDup.
  - exists res0. split; [exact Hres|]. intros j Hj.
    assert (A : In (var_index instance j)
                   (map (var_index instance)
                        (filter (active_at instance res0)
                                (seq 0 (Z.to_nat (Qp.num_var instance)))))
                <-> active_at instance res0 j = true)
      by now apply in_classified.
    assert (B : In (var_index instance j)
                   (map (var_index instance)
                        (filter (fun j => negb (active_at instance res0 j))
                                (seq 0 (Z.to_nat (Qp.num_var instance)))))
                <-> active_at instance res0 j = false).
    { rewrite (in_classified instance _ HK
                 (fun j => negb (active_at instance res0 j)) j Hj).
      apply negb_true_iff. }
    split; [exact A|]. split; [exact B|].
    intros v lo up Hv Hlo Hup.
    change (Int.add (Z.of_nat j) (Qp.num_con instance))
      with (var_index instance j).
    assert (E : active_at instance res0 j = Double.le v lo || Double.ge v up).
    { unfold active_at. now rewrite Hv, Hlo, Hup. }
    split; [|split; [|split]].
    + rewrite A, E. apply orb_true_iff.
    + rewrite A, E. intros Ha.
      destruct (Hx j Hj) as [v' [Hv' Hp]]. rewrite Hv in Hv'.
      inversion Hv'; subst v'; clear Hv'. rewrite Hp. f_equal. f_equal.
      unfold clamp_at. rewrite Hlo, Hup.
      destruct (Double.le v lo); [reflexivity|].
      simpl in Ha. now rewrite Ha.
    + rewrite B. intros Ha Nv Nlo Nup.
      now apply (inactive_strictly_inside instance res0 j v lo up).
    + intros Nv. rewrite B, E.
      destruct v; try discriminate. destruct lo, up; reflexivity.
Qed.

Lemma two_var_instance_well_formed : well_formed two_var_instance.
Proof.
  unfold well_formed. simpl.
  repeat split; try (vm_compute; congruence);
    repeat constructor; vm_compute; congruence.
Qed.

Lemma every_variable_classified_once_witness :
  Qp.computestartingpoint_bounded two_var_instance (Qp.OtherModelStatus 0)
  <> AssertionFailure /\
  (exists ms' r, Qp.computestartingpoint_bounded two_var_instance
                   (Qp.OtherModelStatus 0) = Done (ms', r)) /\
  Z.of_nat (length (Qp.active two_var_result))
  + Z.of_nat (length (Qp.inactive two_var_result)) = 2 /\
  NoDup (Qp.active two_var_result ++ Qp.inactive two_var_result) /\
  exists res0,
    Qp.unprojected_point two_var_instance = Done res0 /\
    forall v lo up : double,
      nth_error res0 0 = Some v ->
      nth_error (Qp.var_lo two_var_instance) 0 = Some lo ->
      nth_error (Qp.var_up two_var_instance) 0 = Some up ->
      In 0 (Qp.inactive two_var_result) ->
      Double.is_nan v = false -> Double.is_nan lo = false ->
      Double.is_nan up = false ->
      Double.lt lo v = true /\ Double.lt v up = true.
Proof.
  pose proof (every_variable_classified_once two_var_instance
                (Qp.OtherModelStatus 0) ltac:(vm_compute; split; discriminate))
    as [Hsafe [Htotal Hdone]].
  split; [exact Hsafe|]. split; [exact (Htotal two_var_instance_well_formed)|].
  destruct (Hdone _ _ (two_var_run (Qp.OtherModelStatus 0)))
    as [Hlen [Hnd [res0 [Hres Hj]]]].
  split; [exact Hlen|]. split; [exact Hnd|].
  exists res0. split; [exact Hres|]. intros v lo up Hv Hlo Hup.
  destruct (Hj 0%nat ltac:(simpl; lia)) as [_ [_ H]].
  exact (proj1 (proj2 (proj2 (H v lo up Hv Hlo Hup)))).
Defined.

(** C8 as stated fails for a value that is NaN: at [nan_point_instance]
    the factor of Q is the square root of -1, the point before the
    projection is NaN, and the variable is put in the inactive set
    although it is not strictly inside its bounds [1,2]; the returned
    point holds 0 for it, below the lower bound. *)
Lemma inactive_variable_outside_bounds :
  exists (r : Qp.QpHotstartInformation) (x : double),
    Qp.computestartingpoint_bounded nan_point_instance (Qp.OtherModelStatus 0)
    = Done (Qp.OPTIMAL, r) /\
    Qp.unprojected_point nan_point_instance = Done [Double.nan] /\
    Qp.inactive r = [0] /\ Qp.active r = [] /\
    Double.lt (Double.of_int 1) Double.nan = false /\
    nth_error (Qp.value (Qp.primal r)) 0 = Some x /\
    x = Double.pos_zero /\
    Double.lt x (Double.of_int 1) = true.
Proof.
  exists indefinite_result, Double.pos_zero.
  repeat split; vm_compute; reflexivity.
Qed.

(** What the status is after a call.  A call on a well-formed instance
    ends normally.  After a call that ends normally, [modelstatus] is
    OPTIMAL when the active set is empty, and is what it was before the
    call when it is not.  The active set is empty exactly when no
    variable is at or beyond one of its bounds before the projection. *)
Lemma modelstatus_after_call
        (instance : Qp.Instance) (ms : Qp.QpModelStatus) :
  (well_formed instance ->
   exists ms' r, Qp.computestartingpoint_bounded instance ms = Done (ms', r)) /\
  forall ms' r,
    Qp.computestartingpoint_bounded instance ms = Done (ms', r) ->
    (Qp.active r = [] -> ms' = Qp.OPTIMAL) /\
    (Qp.active r <> [] -> ms' = ms) /\
    (ms <> Qp.OPTIMAL -> (ms' = Qp.OPTIMAL <-> Qp.active r = [])) /\
    (0 <= Qp.num_var instance <= Int.max_int ->
     exists res0,
       Qp.unprojected_point instance = Done res0 /\
       (Qp.active r = [] <->
        forall j, (j < Z.to_nat (Qp.num_var instance))%nat ->
                  active_at instance res0 j = false)).
Proof.
  split; [now apply computestartingpoint_bounded_total|].
  intros ms' r Hrun.
  assert (Hms : ms' = match Qp.active r with [] => Qp.OPTIMAL | _ :: _ => ms end).
  { unfold Qp.computestartingpoint_bounded in Hrun.
    apply bind_Done in Hrun. destruct Hrun as [res0 [_ Hrun]].
    apply bind_Done in Hrun. destruct Hrun as [x0 [_ Hrun]].
    apply bind_Done in Hrun. destruct Hrun as [ra [_ Hrun]].
    apply bind_Done in Hrun. destruct Hrun as [p [_ Hrun]].
    destruct (Int.wrap _ =? Qp.num_var instance); [|discriminate].
    inversion Hrun; subst ms' r; clear Hrun. simpl.
    destruct (Qp.initialactive p); reflexivity. }
  split; [|split; [|split]].
  - intros E. now rewrite E in Hms.
  - intros E. destruct (Qp.active r); [now contradiction E|exact Hms].
  - intros Hne. destruct (Qp.active r) as [|a l]; split; intros H;
      try reflexivity; try congruence.
  - intros Hn.
    destruct (computestartingpoint_bounded_Done instance ms ms' r Hn Hrun)
      as [res0 [Hres [Hact _]]].
    exists res0. split; [exact Hres|]. rewrite Hact. split.
    + intros E j Hj.
      destruct (active_at instance res0 j) eqn:Ea; [|reflexivity].
      assert (Hin : In j (filter (active_at instance res0)
                                 (seq 0 (Z.to_nat (Qp.num_var instance))))).
      { apply filter_In. split; [apply in_seq; lia|exact Ea]. }
      apply (in_map (var_index instance)) in Hin. rewrite E in Hin. contradiction.
    + intros Hall.
      assert (E : filter (active_at instance res0)
                         (seq 0 (Z.to_nat (Qp.num_var instance))) = []).
      { destruct (filter _ _) as [|j l] eqn:Ef; [reflexivity|].
        assert (Hin : In j (filter (active_at instance res0)
                                   (seq 0 (Z.to_nat (Qp.num_var instance)))))
          by (rewrite Ef; now left).
        apply filter_In in Hin. destruct Hin as [Hin Ha]. apply in_seq in Hin.
        rewrite Hall in Ha by lia. discriminate. }
      now rewrite E.
Qed.

(** The status is never reset: when it is OPTIMAL before the call, the
    routine leaves it so although the second variable of
    [two_var_instance] is active at its upper bound. *)
Lemma modelstatus_optimal_with_active_bound :
  Qp.computestartingpoint_bounded two_var_instance Qp.OPTIMAL
  = Done (Qp.OPTIMAL, two_var_result) /\
  Qp.active two_var_result = [1] /\
  Qp.status two_var_result = [Qp.ActiveAtUpper].
Proof. split; [apply two_var_run|split; reflexivity]. Qed.

Example opposite_sign_run (ms : Qp.QpModelStatus) :
  Qp.computestartingpoint_bounded opposite_sign_instance ms
  = Done (Qp.OPTIMAL, opposite_sign_result).
Proof. destruct ms; vm_compute; reflexivity. Qed.

Example small_value_run (ms : Qp.QpModelStatus) :
  Qp.computestartingpoint_bounded small_value_instance ms
  = Done (Qp.OPTIMAL, small_value_result).
Proof. destruct ms; vm_compute; reflexivity. Qed.

(** C4 fails in the code.  At [opposite_sign_instance], whatever the
    status before the call, the routine returns OPTIMAL with an empty
    active set and the point 1, strictly inside the bounds [-0.5, 2]:
    there the gradient [Qx + c] that line 11 sets to zero is 2, and the
    solution -1 of [Qx + c = 0] lies below the lower bound; lines 34-48
    solve [Qx = c] instead.  At [small_value_instance] the routine
    returns OPTIMAL with an empty active set, and the returned point is
    0, which is the lower bound of the variable: the value 0.00005
    before the projection is strictly inside the bounds, and is not
    copied to the point because its magnitude does not exceed
    [10E-5]. *)
Theorem optimal_status_at_non_optimal_point :
  (exists x : double,
     (forall ms, Qp.computestartingpoint_bounded opposite_sign_instance ms
                 = Done (Qp.OPTIMAL, opposite_sign_result)) /\
     Qp.active opposite_sign_result = [] /\
     nth_error (Qp.value (Qp.primal opposite_sign_result)) 0 = Some x /\
     x = Double.of_int 1 /\
     Double.lt (decimal (-1) 2) x = true /\
     Double.lt x (Double.of_int 2) = true /\
     Double.add (Double.mul (Double.of_int 1) x) (Double.of_int 1)
     = Double.of_int 2 /\
     Double.add (Double.mul (Double.of_int 1) (Double.of_int (-1)))
                (Double.of_int 1) = Double.pos_zero /\
     Double.lt (Double.of_int (-1)) (decimal (-1) 2) = true) /\
  (exists x : double,
     (forall ms, Qp.computestartingpoint_bounded small_value_instance ms
                 = Done (Qp.OPTIMAL, small_value_result)) /\
     Qp.active small_value_result = [] /\
     Qp.unprojected_point small_value_instance = Done [decimal 5 100000] /\
     nth_error (Qp.value (Qp.primal small_value_result)) 0 = Some x /\
     x = Double.pos_zero /\
     nth_error (Qp.var_lo small_value_instance) 0 = Some x).
Proof.
  split.
  - exists (Double.of_int 1). split; [exact opposite_sign_run|].
    repeat split; vm_compute; reflexivity.
  - exists Double.pos_zero. split; [exact small_value_run|].
    repeat split; vm_compute; reflexivity.
Qed.

(** C2 at [small_lower_bound_instance].  The bounds are ordered, the
    variable is reported active at its lower bound 0.00005, and the
    returned primal value is 0, which is below that bound: the value
    0.00005 set by the projection is not copied to [x0] because its
    magnitude does not exceed [10E-5]. *)
Lemma starting_point_below_lower_bound :
  exists r lo up x,
    Qp.computestartingpoint_bounded small_lower_bound_instance
      (Qp.OtherModelStatus 0) = Done (Qp.OtherModelStatus 0, r) /\
    nth_error (Qp.var_lo small_lower_bound_instance) 0 = Some lo /\
    nth_error (Qp.var_up small_lower_bound_instance) 0 = Some up /\
    nth_error (Qp.value (Qp.primal r)) 0 = Some x /\
    Double.le lo up = true /\
    Qp.status r = [Qp.ActiveAtLower] /\
    Qp.active r = [0] /\
    x = Double.pos_zero /\
    Double.le lo x = false /\
    Double.lt x lo = true.
Proof.
  exists (Qp.mkQpHotstartInformation [Qp.ActiveAtLower] [0] []
            (Qp.mkVector 1 0 [0] [Double.pos_zero]) (Qp.mkVector 0 0 [] [])),
    (decimal 5 100000), (Double.of_int 1), Double.pos_zero.
  repeat split; vm_compute; reflexivity.
Qed.

Lemma lt_le (a b : double) : Double.lt a b = true -> Double.le a b = true.
Proof.
  unfold Double.lt, Double.le. destruct (SFcompare a b) as [[]|]; auto.
Qed.

(** The value set by the projection is within the bounds, unless the
    value before it is NaN. *)
Lemma clamp_within_bounds
      (instance : Qp.Instance) (j : nat) (r lo up : double) :
  nth_error (Qp.var_lo instance) j = Some lo ->
  nth_error (Qp.var_up instance) j = Some up ->
  Double.le lo up = true ->
  Double.is_nan r = false ->
  Double.le lo (clamp_at instance j r) = true /\
  Double.le (clamp_at instance j r) up = true.
Proof.
  intros Hlo Hup Hle Nr. unfold clamp_at. rewrite Hlo, Hup.
  destruct (le_not_nan lo up Hle) as [Nlo Nup].
  destruct (Double.le r lo) eqn:E1.
  - split; [now apply le_refl|exact Hle].
  - destruct (Double.ge r up) eqn:E2.
    + split; [exact Hle|now apply le_refl].
    + rewrite ge_le in E2. split; apply lt_le; now apply not_le_lt.
Qed.

(** X1. What holds of the returned point in place of C2: an entry of
    the returned primal point is either within the bounds of its variable
    or the zero left by the constructor, the latter when the projected
    value has magnitude at most [10E-5]; the point before the projection
    is assumed free of NaN. *)
Lemma primal_within_bounds_or_zero
      (instance : Qp.Instance) (ms ms' : Qp.QpModelStatus)
      (r : Qp.QpHotstartInformation) (j : nat) (lo up : double) :
  0 <= Qp.num_var instance <= Int.max_int ->
  Qp.computestartingpoint_bounded instance ms = Done (ms', r) ->
  (j < Z.to_nat (Qp.num_var instance))%nat ->
  nth_error (Qp.var_lo instance) j = Some lo ->
  nth_error (Qp.var_up instance) j = Some up ->
  Double.le lo up = true ->
  (forall res0 v, Qp.unprojected_point instance = Done res0 ->
                  nth_error res0 j = Some v -> Double.is_nan v = false) ->
  exists x,
    nth_error (Qp.value (Qp.primal r)) j = Some x /\
    ((Double.le lo x = true /\ Double.le x up = true) \/ x = Double.pos_zero).
Proof.
  intros Hn Hrun Hj Hlo Hup Hle Hnan.
  destruct (computestartingpoint_bounded_Done instance ms ms' r Hn Hrun)
    as [res0 [Hres [_ [_ [_ [Hx _]]]]]].
  destruct (Hx j Hj) as [v [Hv Hxv]].
  exists (sparse (clamp_at instance j v)). split; [exact Hxv|].
  unfold sparse. destruct (Double.gt _ _); [left|now right].
  apply (clamp_within_bounds instance j v lo up); auto.
  now apply (Hnan res0 v).
Qed.

(** ** mip/SolveMip.h *)

(** C6. The node-identifier space has two distinct sentinel values:
    [kNoNodeIndex] is -1 and stands for "no node", [kNodeIndexError] is
    -2 and stands for a failed lookup.  A node constructed with no
    parent, as the root is, records -1, which differs from the error
    value, and a parent recorded as a sentinel tells which of the two it
    is: absence and error are distinguishable. *)
Theorem sentinels_are_distinct :
  Mip.kNoNodeIndex = -1 /\
  Mip.kNodeIndexError = -2 /\
  Mip.kNoNodeIndex <> Mip.kNodeIndexError /\
  forall index depth : Z,
    Mip.parent_id (Mip.Node_new Mip.kNoNodeIndex index depth) = Mip.kNoNodeIndex /\
    Mip.parent_id (Mip.Node_new Mip.kNoNodeIndex index depth) <> Mip.kNodeIndexError /\
    Mip.parent_id (Mip.Node_new Mip.kNodeIndexError index depth) <> Mip.kNoNodeIndex.
Proof.
  repeat split; discriminate.
Qed.

Section TreeLevels.
Import Mip.

Lemma child_set_child_same (t : Node) (d : bool) (c : option Node) :
  child (set_child t d c) d = c.
Proof. destruct d; reflexivity. Qed.

Lemma child_set_child_other (t : Node) (d d' : bool) (c : option Node) :
  d' <> d -> child (set_child t d c) d' = child t d'.
Proof. destruct d, d'; simpl; intros H; try reflexivity; now contradiction H. Qed.

Lemma level_set_child (t : Node) (d : bool) (c : option Node) :
  level (set_child t d c) = level t.
Proof. destruct d; reflexivity. Qed.

Lemma node_at_make_child (parent : Node) (index : Z) (path : list bool) (n : Node) :
  node_at path (make_child parent index) = Some n ->
  path = [] /\ n = make_child parent index.
Proof.
  destruct path as [|d path]; simpl.
  - intros [= <-]. auto.
  - destruct d; discriminate.
Qed.

Lemma levels_from_child (t c : Node) (d : bool) :
  levels_from t -> child t d = Some c ->
  levels_from c /\ level c = level t + 1.
Proof.
  intros Ht Hc.
  assert (Hl : level c = level t + 1).
  { rewrite (Ht [d] c); [simpl; lia|]. simpl. now rewrite Hc. }
  split; [|exact Hl].
  intros path n Hn. rewrite (Ht (d :: path) n).
  - rewrite Hl. simpl length. lia.
  - simpl. now rewrite Hc.
Qed.

(** Branching anywhere in the tree keeps the levels right. *)
Lemma expand_at_levels (path : list bool) (next : Z) :
  forall t t', expand_at path next t = Some t' ->
               levels_from t -> levels_from t' /\ level t' = level t.
Proof.
  induction path as [|d path IH]; intros t t' Hexp Ht; simpl in Hexp.
  - destruct (left_child t) eqn:El; [discriminate|].
    destruct (right_child t) eqn:Er; [discriminate|].
    inversion Hexp; subst t'; clear Hexp. split; [|reflexivity].
    intros q n Hn. destruct q as [|d q]; simpl in Hn.
    + inversion Hn; subst n. simpl. lia.
    + destruct d; simpl in Hn;
        apply node_at_make_child in Hn; destruct Hn as [-> ->]; simpl; lia.
  - destruct (child t d) as [c|] eqn:Ec; [|discriminate].
    destruct (expand_at path next c) as [c'|] eqn:Ee; [|discriminate].
    inversion Hexp; subst t'; clear Hexp.
    destruct (levels_from_child t c d Ht Ec) as [Hc Hlc].
    destruct (IH c c' Ee Hc) as [Hc' Hlc'].
    split; [|apply level_set_child].
    intros q n Hn. rewrite level_set_child.
    destruct q as [|d' q]; simpl in Hn.
    + inversion Hn; subst n. rewrite level_set_child. simpl. lia.
    + destruct (Bool.bool_dec d' d) as [->|Hd].
      * rewrite child_set_child_same in Hn.
        rewrite (Hc' q n Hn), Hlc', Hlc. simpl length. lia.
      * rewrite (child_set_child_other t d d' _ Hd) in Hn.
        apply (Ht (d' :: q) n). exact Hn.
Qed.

Lemma grown_levels (t : Node) (k : Z) :
  grown t k -> levels_from t /\ level t = 0.
Proof.
  induction 1 as [ivs|t t' k path Hg [IH1 IH2] Hexp].
  - split; [|reflexivity].
    intros path n Hn. destruct path as [|d path]; simpl in Hn.
    + now inversion Hn.
    + destruct d; discriminate.
  - destruct (expand_at_levels path k t t' Hexp IH1) as [H1 H2].
    split; [exact H1|congruence].
Qed.
End TreeLevels.

(** C7. For every node, [level] equals the number of its ancestors: the
    root's level is 0, every child created from a parent has level
    [parent.level + 1], and in every tree the search builds the node at
    the end of a path from the root has the length of that path as its
    level, one more than its parent's. *)
Theorem level_counts_ancestors :
  (forall integer_variables, Mip.level (Mip.make_root integer_variables) = 0) /\
  (forall parent index,
      Mip.level (Mip.make_child parent index) = Mip.level parent + 1) /\
  (forall t k, Mip.grown t k ->
     forall path n, Mip.node_at path t = Some n ->
       Mip.level n = Z.of_nat (length path) /\
       forall d c, Mip.child n d = Some c -> Mip.level c = Mip.level n + 1).
Proof.
  split; [reflexivity|]. split; [reflexivity|].
  intros t k Hg path n Hn.
  destruct (grown_levels t k Hg) as [Hl H0].
  split.
  - rewrite (Hl path n Hn), H0. lia.
  - intros d c Hc.
    assert (Hn' : Mip.node_at (path ++ [d]) t = Some c).
    { clear - Hn Hc. revert t Hn. induction path as [|e path IH]; intros t Hn.
      - simpl in *. inversion Hn; subst. now rewrite Hc.
      - simpl in *. destruct (Mip.child t e); [now apply IH|discriminate]. }
    rewrite (Hl _ _ Hn'), (Hl _ _ Hn), length_app. simpl. lia.
Qed.

Lemma three_level_tree_grown : Mip.grown three_level_tree 5.
Proof.
  apply (Mip.grown_branch
           (Mip.set_right_child
              (Mip.set_left_child (Mip.make_root [0])
                                  (Some (Mip.make_child (Mip.make_root [0]) 1)))
              (Some (Mip.make_child (Mip.make_root [0]) 2)))
           three_level_tree 3 [false]); [|reflexivity].
  apply (Mip.grown_branch (Mip.make_root [0]) _ 1 []); [|reflexivity].
  apply Mip.grown_root.
Qed.

Lemma level_counts_ancestors_witness :
  exists n, Mip.node_at [false; true] three_level_tree = Some n /\
            Mip.id n = 4 /\ Mip.level n = 2.
Proof.
  destruct (Mip.node_at [false; true] three_level_tree) as [n|] eqn:E;
    [|discriminate].
  exists n. split; [reflexivity|]. split.
  - vm_compute in E. now inversion E.
  - apply (proj1 (proj2 (proj2 level_counts_ancestors) three_level_tree 5
                    three_level_tree_grown [false; true] n E)).
Defined.

(** ** Bounds and the two children of a branching *)

Section BoundFacts.
Import Mip.
Local Open Scope Q_scope.

Lemma length_set_bound (b : list Q) (e : Z * Q) :
  length (set_bound b e) = length b.
Proof.
  unfold set_bound. destruct (fst e <? 0)%Z; [reflexivity|apply length_list_set].
Qed.

Lemma bound_at_set_bound_same (b : list Q) (v : Z) (q old : Q) :
  bound_at b v = Some old -> bound_at (set_bound b (v, q)) v = Some q.
Proof.
  unfold bound_at, set_bound. simpl.
  destruct (v <? 0)%Z; [discriminate|]. intros H.
  assert (Hlen : (Z.to_nat v < length b)%nat)
    by (apply nth_error_Some; congruence).
  rewrite nth_error_list_set by exact Hlen. now rewrite Nat.eqb_refl.
Qed.

Lemma bound_at_set_bound_other (b : list Q) (v w : Z) (q : Q) :
  w <> v -> bound_at (set_bound b (v, q)) w = bound_at b w.
Proof.
  unfold bound_at, set_bound. simpl. intros Hwv.
  destruct (Z.ltb_spec w 0) as [Hw|Hw]; [reflexivity|].
  destruct (Z.ltb_spec v 0) as [Hv|Hv]; [reflexivity|].
  destruct (Nat.lt_ge_cases (Z.to_nat v) (length b)) as [Hlen|Hlen].
  - rewrite nth_error_list_set by exact Hlen.
    destruct (Nat.eqb_spec (Z.to_nat w) (Z.to_nat v)) as [E|E]; [lia|reflexivity].
  - assert (E : forall (l : list Q) n x, (length l <= n)%nat -> list_set l n x = l).
    { induction l as [|h t IH]; intros [|n] x Hn; simpl in *; try reflexivity;
        [lia|]. f_equal. apply IH. lia. }
    now rewrite E.
Qed.

Lemma round_of_integer (x : Q) (z : Z) : x == inject_Z z -> round x = z.
Proof.
  intros H. unfold round.
  assert (F : Qfloor (inject_Z z + (1 # 2)) = z).
  { unfold Qfloor, Qplus, inject_Z. simpl.
    replace (z * 2 + 1)%Z with (1 + z * 2)%Z by lia.
    rewrite Z.div_add by lia. reflexivity. }
  assert (C : Qceiling (inject_Z z - (1 # 2)) = z).
  { unfold Qceiling, Qfloor, Qminus, Qplus, Qopp, inject_Z. simpl.
    replace (- (z * 2 + -1))%Z with (1 + (- z) * 2)%Z by lia.
    rewrite Z.div_add by lia. change (1 / 2)%Z with 0%Z. lia. }
  destruct (Qle_bool 0 x).
  - rewrite <- F. now apply Qfloor_comp; rewrite H.
  - rewrite <- C. now apply Qceiling_comp; rewrite H.
Qed.

(** A value farther than a tolerance from the nearest integer lies
    strictly between its floor and its ceiling. *)
Lemma fractional_strictly_between (eps x : Q) :
  0 <= eps -> Qlt_bool eps (fractional_distance x) = true ->
  floor x < x /\ x < ceil x.
Proof.
  intros Heps Hfrac. unfold Qlt_bool in Hfrac. apply negb_true_iff in Hfrac.
  assert (Hpos : 0 < fractional_distance x).
  { destruct (Qlt_le_dec eps (fractional_distance x)) as [H|H].
    - lra.
    - apply Qle_bool_iff in H. congruence. }
  assert (Hint : forall z, ~ x == inject_Z z).
  { intros z Hz. unfold fractional_distance in Hpos.
    rewrite (round_of_integer x z Hz) in Hpos.
    assert (E : x - inject_Z z == 0) by lra.
    rewrite E in Hpos. simpl in Hpos. lra. }
  unfold floor, ceil. split.
  - destruct (Qlt_le_dec (inject_Z (Qfloor x)) x) as [H|H]; [exact H|].
    exfalso. apply (Hint (Qfloor x)). pose proof (Qfloor_le x). lra.
  - destruct (Qlt_le_dec x (inject_Z (Qceiling x))) as [H|H]; [exact H|].
    exfalso. apply (Hint (Qceiling x)). pose proof (Qle_ceiling x). lra.
Qed.

Lemma floor_lt_ceil (x : Q) : floor x < x -> x < ceil x -> floor x < ceil x.
Proof. intros. lra. Qed.
End BoundFacts.

(** ** The most-fractional rule *)

Section Selection.
Import Mip.
Local Open Scope Q_scope.
Variable node : Node.

Lemma preferred_refl (v : Z) : preferred node v v.
Proof. right. split; [reflexivity|lia]. Qed.

Lemma preferred_trans (a b c : Z) :
  preferred node a b -> preferred node b c -> preferred node a c.
Proof.
  unfold preferred. intros [H1|[H1 H1']] [H2|[H2 H2']].
  - left. lra.
  - left. lra.
  - left. lra.
  - right. split; [lra|lia].
Qed.

Lemma better_spec (best : option Z) (v : Z) :
  exists y, better node best v = Some y /\
            (y = v \/ best = Some y) /\
            preferred node y v /\
            (forall a, best = Some a -> preferred node y a).
Proof.
  unfold better. destruct best as [w|].
  - destruct (Qlt_bool (distance_of node w) (distance_of node v)) eqn:E1.
    + exists v. unfold Qlt_bool in E1. apply negb_true_iff in E1.
      assert (H : distance_of node w < distance_of node v).
      { destruct (Qlt_le_dec (distance_of node w) (distance_of node v)) as [H|H];
          [exact H|]. apply Qle_bool_iff in H. congruence. }
      repeat split; auto using preferred_refl.
      intros a [= <-]. now left.
    + unfold Qlt_bool in E1. apply negb_false_iff in E1. apply Qle_bool_iff in E1.
      destruct (Qeq_bool (distance_of node w) (distance_of node v)) eqn:E2; simpl.
      * apply Qeq_bool_iff in E2.
        destruct (Z.ltb_spec v w) as [E3|E3].
        -- exists v. repeat split; auto using preferred_refl.
           intros a [= <-]. right. split; [exact E2|lia].
        -- exists w. repeat split; auto.
           ++ right. split; [now symmetry|exact E3].
           ++ intros a [= <-]. apply preferred_refl.
      * apply Qeq_bool_neq in E2.
        exists w. repeat split; auto.
        -- left. destruct (Qlt_le_dec (distance_of node v) (distance_of node w))
             as [H|H]; [exact H|]. exfalso. apply E2. lra.
        -- intros a [= <-]. apply preferred_refl.
  - exists v. repeat split; auto using preferred_refl. discriminate.
Qed.

(** The fold keeps a variable that is preferred node to all it has seen. *)
Lemma fold_better_spec (l : list Z) :
  forall best : option Z,
    match fold_left (better node) l best with
    | None => best = None /\ l = []
    | Some v =>
        (best = Some v \/ In v l) /\
        (forall a, best = Some a -> preferred node v a) /\
        (forall w, In w l -> preferred node v w)
    end.
Proof.
  induction l as [|x l IH]; intros best; simpl.
  - destruct best as [v|]; [|auto].
    repeat split; auto.
    + intros a [= <-]. apply preferred_refl.
    + intros w [].
  - destruct (better_spec best x) as [y [Hy [Hfrom [Hyx Hya]]]].
    rewrite Hy. specialize (IH (Some y)).
    destruct (fold_left (better node) l (Some y)) as [v|].
    + destruct IH as [Hv [Hpref Hall]].
      assert (Hvy : preferred node v y) by now apply Hpref.
      repeat split.
      * destruct Hv as [[= <-]|Hv]; [|now right; right].
        destruct Hfrom as [->|Hb]; [right; now left|now left].
      * intros a Ha. apply (preferred_trans v y a); auto.
      * intros w [<-|Hw]; [apply (preferred_trans v y x); auto|now apply Hall].
    + destruct IH as [IH _]. discriminate.
Qed.
End Selection.



(** ** The branch pair *)

Section BranchFacts.
Import Mip.
Local Open Scope Q_scope.

Lemma selected_is_candidate
      (node : Node) (integer_variables : list Z) (b : Bounds) (eps : Q) (v : Z) :
  chooseBranchingVariable node integer_variables b eps = Selected v ->
  In v integer_variables /\ is_fractional eps node v = true /\ splittable b v = true.
Proof.
  unfold chooseBranchingVariable. intros Hsel.
  destruct (filter (is_fractional eps node) integer_variables) as [|f fs] eqn:Ef;
    [discriminate|].
  pose proof (fold_better_spec node (filter (splittable b) (f :: fs)) None) as Hfold.
  destruct (fold_left (better node) (filter (splittable b) (f :: fs)) None)
    as [v'|]; [|discriminate].
  inversion Hsel; subst v'; clear Hsel.
  destruct Hfold as [[Hv|Hv] _]; [discriminate|].
  apply filter_In in Hv. destruct Hv as [Hv Hs]. rewrite <- Ef in Hv.
  apply filter_In in Hv. tauto.
Qed.

(** What a branching tells about the chosen variable. *)
Lemma branch_Some (node : Node) (b : Bounds) (eps : Q)
      (v : Z) (x : Q) (dl dr : BoundDelta) :
  0 <= eps ->
  branch node b eps = Some (v, x, (dl, dr)) ->
  dl = mkBoundDelta [] [(v, floor x)] /\
  dr = mkBoundDelta [(v, ceil x)] [] /\
  In v node.(integer_variables) /\
  relaxation_value node v = Some x /\
  floor x < x /\ x < ceil x /\
  exists l u, bound_at (fst b) v = Some l /\ bound_at (snd b) v = Some u /\
              ~ l == u.
Proof.
  intros Heps Hb. unfold branch in Hb.
  destruct (chooseBranchingVariable node (integer_variables node) b eps)
    as [v'| |] eqn:Hsel; try discriminate.
  apply selected_is_candidate in Hsel. destruct Hsel as [Hin [Hfrac Hsplit]].
  destruct (relaxation_value node v') as [x'|] eqn:Ex; [|discriminate].
  unfold branch_deltas in Hb. inversion Hb; subst v' x' dl dr; clear Hb.
  unfold is_fractional in Hfrac. rewrite Ex in Hfrac.
  destruct (fractional_strictly_between eps x Heps Hfrac) as [Hf Hc].
  unfold splittable in Hsplit.
  destruct (bound_at (fst b) v) as [l|]; [|discriminate].
  destruct (bound_at (snd b) v) as [u|]; [|discriminate].
  apply negb_true_iff, Qeq_bool_neq in Hsplit.
  repeat split; auto. exists l, u. auto.
Qed.

Lemma apply_left_delta (b : Bounds) (v : Z) (q : Q) :
  apply_delta (mkBoundDelta [] [(v, q)]) b = (fst b, set_bound (snd b) (v, q)).
Proof. reflexivity. Qed.

Lemma apply_right_delta (b : Bounds) (v : Z) (q : Q) :
  apply_delta (mkBoundDelta [(v, q)] []) b = (set_bound (fst b) (v, q), snd b).
Proof. reflexivity. Qed.

Lemma materialize_snoc (root : Bounds) (chain : list BoundDelta) (d : BoundDelta) :
  materialize root (chain ++ [d]) = apply_delta d (materialize root chain).
Proof. unfold materialize. now rewrite fold_left_app. Qed.

Lemma feasible_iff (b : Bounds) (v : Z) (l u y : Q) :
  bound_at (fst b) v = Some l -> bound_at (snd b) v = Some u ->
  feasible b v y <-> l <= y /\ y <= u.
Proof.
  intros Hl Hu. unfold feasible. split.
  - intros [l' [u' [Hl' [Hu' H]]]]. congruence.
  - intros H. exists l, u. auto.
Qed.

(** Tightening one bound of [v] never loosens a bound of any variable. *)
Lemma no_looser_upper (b : Bounds) (v : Z) (q l u : Q) :
  bound_at (fst b) v = Some l -> bound_at (snd b) v = Some u -> q <= u ->
  no_looser (fst b, set_bound (snd b) (v, q)) b.
Proof.
  intros Hl Hu Hq. unfold no_looser. simpl.
  split; [reflexivity|]. split; [apply length_set_bound|].
  intros w l' u' Hl' Hu'. destruct (Z.eq_dec w v) as [->|Hw].
  - exists l', q. rewrite (bound_at_set_bound_same _ _ _ u Hu).
    repeat split; auto; [apply Qle_refl|congruence].
  - exists l', u'. rewrite (bound_at_set_bound_other _ _ _ _ Hw).
    repeat split; auto; apply Qle_refl.
Qed.

Lemma no_looser_lower (b : Bounds) (v : Z) (q l u : Q) :
  bound_at (fst b) v = Some l -> bound_at (snd b) v = Some u -> l <= q ->
  no_looser (set_bound (fst b) (v, q), snd b) b.
Proof.
  intros Hl Hu Hq. unfold no_looser. simpl.
  split; [apply length_set_bound|]. split; [reflexivity|].
  intros w l' u' Hl' Hu'. destruct (Z.eq_dec w v) as [->|Hw].
  - exists q, u'. rewrite (bound_at_set_bound_same _ _ _ l Hl).
    repeat split; auto; [congruence|apply Qle_refl].
  - exists l', u'. rewrite (bound_at_set_bound_other _ _ _ _ Hw).
    repeat split; auto; apply Qle_refl.
Qed.
End BranchFacts.

Lemma scenario_relaxation_value :
  Mip.relaxation_value scenario_node 0 = Some scenario_value.
Proof. reflexivity. Qed.

Lemma scenario_branch (eps : Q) :
  (eps <= 1 # 4)%Q ->
  Mip.branch scenario_node scenario_bounds eps
  = Some (0, scenario_value, Mip.branch_deltas 0 scenario_value).
Proof.
  intros Heps. unfold Mip.branch, Mip.chooseBranchingVariable. simpl.
  assert (E : Mip.is_fractional eps scenario_node 0 = true).
  { unfold Mip.is_fractional. rewrite scenario_relaxation_value.
    unfold Mip.Qlt_bool. apply negb_true_iff.
    destruct (Qle_bool _ eps) eqn:E; [|reflexivity].
    apply Qle_bool_iff in E.
    assert (H : (1 # 4 < Mip.fractional_distance scenario_value)%Q) by reflexivity.
    lra. }
  rewrite E. reflexivity.
Qed.

(** C1. For every branch pair that the Branching Selector produces from
    a node, with [v] the chosen integer variable and [x] its relaxation
    value: [x] is fractional, the left child's upper bound on [v] is
    [floor(x)] and the right child's lower bound on [v] is [ceil(x)], the
    other bound of [v] being the parent's; no value of [v] is feasible
    for both children; and of the values feasible for the parent exactly
    those in the open interval [(floor(x), ceil(x))] are feasible for
    neither child.  In particular, from root bounds [0,5] and relaxation
    value 2.7 (and a tolerance of at most 1/4) the children have bounds
    [0,2] and [3,5]. *)
Theorem branch_pair_splits_interval :
  (forall (node : Mip.Node) (b : Mip.Bounds) (eps : Q)
          (v : Z) (x : Q) (dl dr : Mip.BoundDelta),
      (0 <= eps)%Q ->
      Mip.branch node b eps = Some (v, x, (dl, dr)) ->
      let left := Mip.apply_delta dl b in
      let right := Mip.apply_delta dr b in
      (Mip.floor x < x)%Q /\ (x < Mip.ceil x)%Q /\
      Mip.bound_at (snd left) v = Some (Mip.floor x) /\
      Mip.bound_at (fst right) v = Some (Mip.ceil x) /\
      Mip.bound_at (fst left) v = Mip.bound_at (fst b) v /\
      Mip.bound_at (snd right) v = Mip.bound_at (snd b) v /\
      (forall y, ~ (Mip.feasible left v y /\ Mip.feasible right v y)) /\
      (forall y, Mip.feasible b v y ->
                 (Mip.feasible left v y \/ Mip.feasible right v y
                  <-> ~ (Mip.floor x < y /\ y < Mip.ceil x)%Q))) /\
  (forall eps : Q,
      (eps <= 1 # 4)%Q ->
      exists dl dr,
        Mip.branch scenario_node scenario_bounds eps
        = Some (0, scenario_value, (dl, dr)) /\
        Mip.apply_delta dl scenario_bounds = ([0]%Q, [2]%Q) /\
        Mip.apply_delta dr scenario_bounds = ([3]%Q, [5]%Q)).
Proof.
  split.
  - intros node b eps v x dl dr Heps Hb left right.
    destruct (branch_Some node b eps v x dl dr Heps Hb)
      as [-> [-> [_ [_ [Hf [Hc [l [u [Hl [Hu _]]]]]]]]]].
    subst left right. rewrite apply_left_delta, apply_right_delta. simpl fst. simpl snd.
    assert (Hlu : Mip.bound_at (Mip.set_bound (snd b) (v, Mip.floor x)) v
                  = Some (Mip.floor x))
      by (apply (bound_at_set_bound_same _ _ _ u Hu)).
    assert (Hrl : Mip.bound_at (Mip.set_bound (fst b) (v, Mip.ceil x)) v
                  = Some (Mip.ceil x))
      by (apply (bound_at_set_bound_same _ _ _ l Hl)).
    split; [exact Hf|]. split; [exact Hc|]. split; [exact Hlu|].
    split; [exact Hrl|]. split; [reflexivity|]. split; [reflexivity|]. split.
    + intros y [H1 H2].
      apply (feasible_iff (fst b, _) v l (Mip.floor x) y Hl Hlu) in H1.
      apply (feasible_iff (_, snd b) v (Mip.ceil x) u y Hrl Hu) in H2.
      lra.
    + intros y H. split.
      * intros [H1|H2] [H3 H4].
        -- apply (feasible_iff (fst b, _) v l (Mip.floor x) y Hl Hlu) in H1. lra.
        -- apply (feasible_iff (_, snd b) v (Mip.ceil x) u y Hrl Hu) in H2. lra.
      * intros Hout. apply (feasible_iff b v l u y Hl Hu) in H.
        destruct (Qlt_le_dec (Mip.floor x) y) as [Hy|Hy].
        -- right. apply (feasible_iff (_, snd b) v (Mip.ceil x) u y Hrl Hu).
           destruct (Qlt_le_dec y (Mip.ceil x)) as [Hy'|Hy']; [|lra].
           exfalso. apply Hout. auto.
        -- left. apply (feasible_iff (fst b, _) v l (Mip.floor x) y Hl Hlu). lra.
  - intros eps Heps. exists (fst (Mip.branch_deltas 0 scenario_value)),
      (snd (Mip.branch_deltas 0 scenario_value)).
    split; [now apply scenario_branch|]. split; reflexivity.
Qed.

Lemma branch_pair_splits_interval_witness :
  Mip.bound_at (snd (Mip.apply_delta (fst (Mip.branch_deltas 0 scenario_value))
                                     scenario_bounds)) 0
  = Some (Mip.floor scenario_value) /\
  Mip.bound_at (fst (Mip.apply_delta (snd (Mip.branch_deltas 0 scenario_value))
                                     scenario_bounds)) 0
  = Some (Mip.ceil scenario_value).
Proof.
  pose proof (proj1 branch_pair_splits_interval scenario_node scenario_bounds
                (1 # 1000000)%Q 0 scenario_value
                (fst (Mip.branch_deltas 0 scenario_value))
                (snd (Mip.branch_deltas 0 scenario_value))
                ltac:(discriminate)
                (scenario_branch (1 # 1000000) ltac:(discriminate)))
    as [_ [_ [H1 [H2 _]]]].
  split; [exact H1|exact H2].
Defined.

(** C5, with the contract of the relaxation solver.  A non-root node
    [n] is a child that the Branching Selector
    produced from its parent [p]; the relaxation value of the branching
    variable lies within [p]'s effective bounds, which are materialized
    along the chain of deltas from the root.  Then [n]'s bound delta is
    not empty; [n]'s effective bounds, materialized along the chain
    extended by its delta, loosen no bound of [p]'s and are strictly
    tighter than [p]'s on the branching variable. *)
Theorem child_bounds_strictly_tighter
        (root : Mip.Bounds) (chain : list Mip.BoundDelta)
        (node : Mip.Node) (eps : Q) (v : Z) (x : Q) (dl dr d : Mip.BoundDelta) :
  (0 <= eps)%Q ->
  Mip.branch node (Mip.materialize root chain) eps = Some (v, x, (dl, dr)) ->
  Mip.feasible (Mip.materialize root chain) v x ->
  d = dl \/ d = dr ->
  Mip.delta_is_empty d = false /\
  Mip.no_looser (Mip.materialize root (chain ++ [d])) (Mip.materialize root chain) /\
  Mip.strictly_tighter_at (Mip.materialize root (chain ++ [d]))
                          (Mip.materialize root chain) v.
Proof.
  intros Heps Hb Hfeas Hd. rewrite materialize_snoc.
  set (b := Mip.materialize root chain) in *.
  destruct (branch_Some node b eps v x dl dr Heps Hb)
    as [Hdl [Hdr [_ [_ [Hf [Hc [l [u [Hl [Hu _]]]]]]]]]].
  apply (feasible_iff b v l u x Hl Hu) in Hfeas.
  destruct Hd as [-> | ->]; subst.
  - rewrite apply_left_delta. split; [reflexivity|]. split.
    + apply (no_looser_upper b v _ l u Hl Hu). lra.
    + exists l, u, l, (Mip.floor x). simpl.
      rewrite (bound_at_set_bound_same _ _ _ u Hu).
      repeat split; auto. right. lra.
  - rewrite apply_right_delta. split; [reflexivity|]. split.
    + apply (no_looser_lower b v _ l u Hl Hu). lra.
    + exists l, u, (Mip.ceil x), u. simpl.
      rewrite (bound_at_set_bound_same _ _ _ l Hl).
      repeat split; auto. left. lra.
Qed.

Lemma child_bounds_strictly_tighter_witness :
  Mip.strictly_tighter_at
    (Mip.materialize scenario_bounds ([] ++ [fst (Mip.branch_deltas 0 scenario_value)]))
    (Mip.materialize scenario_bounds []) 0 /\
  Mip.strictly_tighter_at
    (Mip.materialize scenario_bounds ([] ++ [snd (Mip.branch_deltas 0 scenario_value)]))
    (Mip.materialize scenario_bounds []) 0.
Proof.
  assert (Hfeas : Mip.feasible (Mip.materialize scenario_bounds []) 0 scenario_value).
  { exists 0%Q, 5%Q. repeat split; discriminate. }
  split.
  - apply (child_bounds_strictly_tighter scenario_bounds [] scenario_node
             (1 # 1000000)%Q 0 scenario_value
             (fst (Mip.branch_deltas 0 scenario_value))
             (snd (Mip.branch_deltas 0 scenario_value))
             (fst (Mip.branch_deltas 0 scenario_value))
             ltac:(discriminate)
             (scenario_branch (1 # 1000000) ltac:(discriminate))
             Hfeas (or_introl eq_refl)).
  - apply (child_bounds_strictly_tighter scenario_bounds [] scenario_node
             (1 # 1000000)%Q 0 scenario_value
             (fst (Mip.branch_deltas 0 scenario_value))
             (snd (Mip.branch_deltas 0 scenario_value))
             (snd (Mip.branch_deltas 0 scenario_value))
             ltac:(discriminate)
             (scenario_branch (1 # 1000000) ltac:(discriminate))
             Hfeas (or_intror eq_refl)).
Defined.

Example outside_value_is_7_5 : Double.to_Q (decimal 75 10) = Some outside_value.
Proof. reflexivity. Qed.

(** C5 as stated fails for a relaxation value outside the parent's
    bounds: from bounds [0,5] and the value 7.5 the Branching Selector
    produces the children [0,7] and [8,5]; the left child's upper bound
    7 is looser than the parent's 5, and the left child is strictly
    tighter than the parent on no variable. *)
Lemma child_looser_outside_parent_bounds :
  exists dl dr : Mip.BoundDelta,
    Mip.branch outside_node (Mip.materialize scenario_bounds [])
               (1 # 1000000)
    = Some (0, outside_value, (dl, dr)) /\
    ~ Mip.feasible (Mip.materialize scenario_bounds []) 0 outside_value /\
    Mip.materialize scenario_bounds ([] ++ [dl]) = ([0]%Q, [7]%Q) /\
    Mip.materialize scenario_bounds ([] ++ [dr]) = ([8]%Q, [5]%Q) /\
    ~ Mip.no_looser (Mip.materialize scenario_bounds ([] ++ [dl]))
                    (Mip.materialize scenario_bounds []) /\
    forall w : Z,
      ~ Mip.strictly_tighter_at (Mip.materialize scenario_bounds ([] ++ [dl]))
                                (Mip.materialize scenario_bounds []) w.
Proof.
  exists (fst (Mip.branch_deltas 0 outside_value)),
         (snd (Mip.branch_deltas 0 outside_value)).
  split; [reflexivity|]. split; [|split; [reflexivity|split; [reflexivity|split]]].
  - intros [l [u [Hl [Hu [_ Hle]]]]].
    vm_compute in Hu. inversion Hu; subst u.
    revert Hle. unfold outside_value, Qle. simpl. lia.
  - intros [_ [_ H]].
    destruct (H 0 0%Q 5%Q eq_refl eq_refl) as [l' [u' [_ [Hu [_ Hle]]]]].
    vm_compute in Hu. inversion Hu; subst u'.
    revert Hle. unfold Qle. simpl. lia.
  - intros w [l [u [l' [u' [Hl [Hu [Hl' [Hu' Hlt]]]]]]]].
    destruct w as [|p|p].
    + vm_compute in Hl, Hu, Hl', Hu'.
      inversion Hl; inversion Hu; inversion Hl'; inversion Hu'; subst.
      revert Hlt. unfold Qlt. simpl. lia.
    + unfold Mip.bound_at in Hl. simpl in Hl.
      destruct (Pos.to_nat p) as [|n] eqn:E;
        [pose proof (Pos2Nat.is_pos p); lia|].
      destruct n; discriminate.
    + discriminate.
Qed.

(** * Further properties of the code *)

(** ** qpsolver/feasibility_bounded.hpp *)

(** The passes of a run that ends normally. *)
Lemma computestartingpoint_bounded_passes
      (instance : Qp.Instance) (ms ms' : Qp.QpModelStatus)
      (r : Qp.QpHotstartInformation) :
  0 <= Qp.num_var instance <= Int.max_int ->
  Qp.computestartingpoint_bounded instance ms = Done (ms', r) ->
  exists res0 ra p,
    Qp.unprojected_point instance = Done res0 /\
    Qp.Vector_new (Qp.num_con instance) = Done ra /\
    for_up 0 (Qp.num_var instance) (Qp.project_step instance)
           (Qp.mkProjection res0
              (Qp.mkVector (Qp.num_var instance) 0
                 (repeat 0 (Z.to_nat (Qp.num_var instance)))
                 (repeat Double.pos_zero (Z.to_nat (Qp.num_var instance))))
              [] [] []) = Done p /\
    r = Qp.mkQpHotstartInformation (Qp.atlower p) (Qp.initialactive p)
          (Qp.initialinactive p) (Qp.x0 p) ra.
Proof.
  intros Hn Hrun. unfold Qp.computestartingpoint_bounded in Hrun.
  apply bind_Done in Hrun. destruct Hrun as [res0 [Hres Hrun]].
  apply bind_Done in Hrun. destruct Hrun as [x0 [Hx0 Hrun]].
  apply bind_Done in Hrun. destruct Hrun as [ra [Hra Hrun]].
  apply bind_Done in Hrun. destruct Hrun as [p [Hloop Hrun]].
  apply (Vector_new_Done _ _ Hn) in Hx0. subst x0.
  destruct (Int.wrap _ =? Qp.num_var instance); [|discriminate].
  inversion Hrun; subst ms' r; clear Hrun.
  exists res0, ra, p. auto.
Qed.

Lemma firstn_list_set_snoc {A : Type} (v : list A) (m : nat) (x : A) :
  (m < length v)%nat ->
  firstn (Datatypes.S m) (list_set v m x) = firstn m v ++ [x].
Proof.
  revert m. induction v as [|h t IH]; intros m Hm; simpl in Hm; [lia|].
  destruct m as [|m]; [reflexivity|].
  change (h :: firstn (Datatypes.S m) (list_set t m x) = h :: (firstn m t ++ [x])).
  rewrite IH by lia. reflexivity.
Qed.

Section SparsePart.
Import Qp.
Variable instance : Instance.
Variable res0 : list double.

(** What one pass does to [x0], read off lines 69-72. *)
Lemma project_step_x0 (k : nat) (p p' : projection) :
  Z.of_nat k <= Int.max_int ->
  project_step instance (Z.of_nat k) p = Done p' ->
  exists r', nth_error p'.(res_value) k = Some r' /\
    if Double.gt (Double.fabs r') Double.lit_10Em5 then
      exists value' index',
        store p.(x0).(index) (Size.of_int p.(x0).(num_nz)) (Z.of_nat k)
        = Done index' /\
        p'.(x0) = mkVector p.(x0).(dim) (Int.add p.(x0).(num_nz) 1) index' value'
    else p'.(x0) = p.(x0).
Proof.
  intros Hk Hrun. unfold project_step in Hrun.
  rewrite (Size_of_nat k Hk) in Hrun.
  apply bind_Done in Hrun. destruct Hrun as [r [_ Hrun]].
  apply bind_Done in Hrun. destruct Hrun as [lo [_ Hrun]].
  apply bind_Done in Hrun. destruct Hrun as [q [Hq Hrun]].
  assert (Hx : q.(x0) = p.(x0)).
  { destruct (Double.le r lo).
    - apply bind_Done in Hq. destruct Hq as [v [_ Hq]].
      now inversion Hq.
    - apply bind_Done in Hq. destruct Hq as [up [_ Hq]].
      destruct (Double.ge r up).
      + apply bind_Done in Hq. destruct Hq as [v [_ Hq]]. now inversion Hq.
      + now inversion Hq. }
  apply bind_Done in Hrun. destruct Hrun as [r' [Hr' Hrun]].
  rewrite at_of_nat in Hr'.
  destruct (nth_error (res_value q) k) as [r''|] eqn:Er; [|discriminate].
  inversion Hr'; subst r''; clear Hr'.
  exists r'. destruct (Double.gt (Double.fabs r') Double.lit_10Em5).
  - apply bind_Done in Hrun. destruct Hrun as [v [_ Hrun]].
    apply bind_Done in Hrun. destruct Hrun as [ix [Hix Hrun]].
    inversion Hrun; subst p'; clear Hrun. simpl.
    split; [exact Er|]. exists v, ix. rewrite Hx in *. auto.
  - inversion Hrun; subst p'; clear Hrun. auto.
Qed.

Lemma index_inv_step (N k : nat) (p p' : projection) :
  Z.of_nat k < instance.(num_var) <= Int.max_int ->
  projection_inv instance res0 N k p ->
  index_inv instance res0 k p ->
  project_step instance (Z.of_nat k) p = Done p' ->
  index_inv instance res0 (Datatypes.S k) p'.
Proof.
  intros Hk Hinv [Idim [Ilen [Inz Iix]]] Hrun.
  pose proof (projection_inv_step instance res0 N k p p' ltac:(lia) Hinv Hrun)
    as [Ires _].
  destruct (project_step_x0 k p p' ltac:(lia) Hrun) as [r' [Hr' Hx]].
  specialize (Ires k). rewrite Hr' in Ires.
  replace (k <? Datatypes.S k)%nat with true in Ires
    by (symmetry; apply Nat.ltb_lt; lia).
  destruct (nth_error res0 k) as [v|] eqn:Ev; [|discriminate].
  simpl in Ires. inversion Ires; subst r'; clear Ires.
  assert (Hs : stored instance res0 k
               = Double.gt (Double.fabs (clamp_at instance k v)) Double.lit_10Em5).
  { unfold stored. now rewrite Ev. }
  pose proof (filter_length_le (stored instance res0) (seq 0 k)) as Hm.
  rewrite length_seq in Hm.
  unfold index_inv. rewrite seq_S, filter_app. simpl filter. rewrite Hs.
  set (l := filter (stored instance res0) (seq 0 k)) in *.
  destruct (Double.gt (Double.fabs (clamp_at instance k v)) Double.lit_10Em5).
  - destruct Hx as [value' [index' [Hst Hx]]]. rewrite Hx. simpl.
    rewrite Inz in Hst. rewrite Size_of_nat in Hst by lia.
    apply store_of_nat in Hst. destruct Hst as [Hlt ->].
    rewrite length_list_set, length_app, map_app. simpl.
    replace (length l + 1)%nat with (Datatypes.S (length l)) by lia.
    rewrite firstn_list_set_snoc by exact Hlt.
    repeat split; auto.
    + rewrite Inz. unfold Int.add. rewrite Int_wrap_small; [lia|].
      unfold Int.min_int. lia.
    + now rewrite Iix.
  - rewrite Hx, app_nil_r. repeat split; auto.
Qed.

Lemma index_inv_loop (p : projection) :
  0 <= instance.(num_var) <= Int.max_int ->
  for_up 0 instance.(num_var) (project_step instance)
         (mkProjection res0
            (mkVector instance.(num_var) 0
               (repeat 0 (Z.to_nat instance.(num_var)))
               (repeat Double.pos_zero (Z.to_nat instance.(num_var))))
            [] [] []) = Done p ->
  projection_inv instance res0 (Z.to_nat instance.(num_var))
                 (Z.to_nat instance.(num_var)) p /\
  index_inv instance res0 (Z.to_nat instance.(num_var)) p.
Proof.
  intros Hn Hrun. unfold for_up in Hrun.
  replace (instance.(num_var) - 0) with instance.(num_var) in Hrun by lia.
  refine (iterate_inv (project_step instance) 1
           (fun k p => projection_inv instance res0 (Z.to_nat instance.(num_var)) k p
                       /\ index_inv instance res0 k p)
           (Z.to_nat instance.(num_var)) 0 _ p _ _ Hrun).
  - split.
    + unfold projection_inv. simpl. repeat split; auto.
      * apply repeat_length.
      * intros j Hj. now apply nth_error_repeat.
    + unfold index_inv. simpl. repeat split; auto. apply repeat_length.
  - intros k t t' Hk [P1 P2] Hb.
    replace (0 + Z.of_nat k * 1) with (Z.of_nat k) in Hb by lia.
    split.
    + apply (projection_inv_step instance res0 _ k t t'); auto. lia.
    + apply (index_inv_step (Z.to_nat instance.(num_var)) k t t'); auto. lia.
Qed.
End SparsePart.

Lemma nth_error_map_filter {A B : Type} (f : A -> B) (l : list A) (k : nat) (b : B) :
  nth_error (map f l) k = Some b ->
  exists a, nth_error l k = Some a /\ b = f a.
Proof.
  rewrite nth_error_map. destruct (nth_error l k) as [a|]; [|discriminate].
  intros [= <-]. eauto.
Qed.

(** X2. A variable that a run leaves in the inactive set, none of its
    value before the projection and its two bounds being NaN, lies
    strictly inside its bounds, and the projection does not move it: the
    returned point holds its value as computed, or the constructor's
    zero when the magnitude of the value is at most [10E-5]. *)
Theorem inactive_variable_keeps_value
        (instance : Qp.Instance) (ms ms' : Qp.QpModelStatus)
        (r : Qp.QpHotstartInformation) (res0 : list double)
        (j : nat) (v lo up : double) :
  0 <= Qp.num_var instance <= Int.max_int ->
  Qp.computestartingpoint_bounded instance ms = Done (ms', r) ->
  Qp.unprojected_point instance = Done res0 ->
  (j < Z.to_nat (Qp.num_var instance))%nat ->
  nth_error res0 j = Some v ->
  nth_error (Qp.var_lo instance) j = Some lo ->
  nth_error (Qp.var_up instance) j = Some up ->
  Double.is_nan v = false -> Double.is_nan lo = false -> Double.is_nan up = false ->
  In (Int.add (Z.of_nat j) (Qp.num_con instance)) (Qp.inactive r) ->
  Double.lt lo v = true /\ Double.lt v up = true /\
  nth_error (Qp.value (Qp.primal r)) j
  = Some (if Double.gt (Double.fabs v) Double.lit_10Em5 then v
          else Double.pos_zero).
Proof.
  intros Hn Hrun Hres Hj Hv Hlo Hup Nv Nlo Nup Hin.
  destruct (computestartingpoint_bounded_Done instance ms ms' r Hn Hrun)
    as [res0' [Hres' [_ [Hina [_ [Hx _]]]]]].
  rewrite Hres in Hres'. inversion Hres'; subst res0'; clear Hres'.
  rewrite Hina in Hin.
  apply (in_classified instance (Z.to_nat (Qp.num_var instance)) ltac:(lia)
           (fun j => negb (active_at instance res0 j)) j Hj) in Hin.
  apply negb_true_iff in Hin.
  destruct (inactive_strictly_inside instance res0 j v lo up
              Hv Hlo Hup Nv Nlo Nup Hin) as [H1 H2].
  split; [exact H1|]. split; [exact H2|].
  destruct (Hx j Hj) as [v' [Hv' Hp]]. rewrite Hv in Hv'.
  inversion Hv'; subst v'; clear Hv'. rewrite Hp. unfold sparse.
  assert (Hc : clamp_at instance j v = v).
  { unfold active_at in Hin. rewrite Hv, Hlo, Hup in Hin.
    apply orb_false_iff in Hin. destruct Hin as [E1 E2].
    unfold clamp_at. now rewrite Hlo, Hup, E1, E2. }
  now rewrite Hc.
Qed.

Lemma inactive_variable_keeps_value_witness :
  Double.lt (Double.of_int (-10)) (decimal 125 100) = true /\
  Double.lt (decimal 125 100) (Double.of_int 10) = true /\
  nth_error (Qp.value (Qp.primal two_var_result)) 0 = Some (decimal 125 100).
Proof.
  apply (inactive_variable_keeps_value two_var_instance
           (Qp.OtherModelStatus 0) (Qp.OtherModelStatus 0) two_var_result
           [decimal 125 100; decimal 15 10] 0
           (decimal 125 100) (Double.of_int (-10)) (Double.of_int 10)).
  - vm_compute. split; discriminate.
  - apply two_var_run.
  - vm_compute. reflexivity.
  - simpl. lia.
  - reflexivity.
  - reflexivity.
  - reflexivity.
  - reflexivity.
  - reflexivity.
  - reflexivity.
  - vm_compute. left. reflexivity.
Defined.

(** X3. The list of statuses runs parallel to the active set: the two
    have the same length, and the status beside an active entry is
    [ActiveAtLower] when the variable's value before the projection is
    at or below its lower bound, [ActiveAtUpper] when it is not and is
    at or above its upper bound; no other status is ever reported, and a
    variable at or beyond both bounds is reported at its lower bound. *)
Theorem status_parallel_to_active
        (instance : Qp.Instance) (ms ms' : Qp.QpModelStatus)
        (r : Qp.QpHotstartInformation) :
  0 <= Qp.num_var instance <= Int.max_int ->
  Qp.computestartingpoint_bounded instance ms = Done (ms', r) ->
  length (Qp.status r) = length (Qp.active r) /\
  exists res0,
    Qp.unprojected_point instance = Done res0 /\
    forall k a s,
      nth_error (Qp.active r) k = Some a ->
      nth_error (Qp.status r) k = Some s ->
      exists j v lo,
        a = Int.add (Z.of_nat j) (Qp.num_con instance) /\
        (j < Z.to_nat (Qp.num_var instance))%nat /\
        nth_error res0 j = Some v /\
        nth_error (Qp.var_lo instance) j = Some lo /\
        ((s = Qp.ActiveAtLower /\ Double.le v lo = true) \/
         (s = Qp.ActiveAtUpper /\ Double.le v lo = false /\
          exists up, nth_error (Qp.var_up instance) j = Some up /\
                     Double.ge v up = true)).
Proof.
  intros Hn Hrun.
  destruct (computestartingpoint_bounded_Done instance ms ms' r Hn Hrun)
    as [res0 [Hres [Hact [_ [Hst _]]]]].
  rewrite Hact, Hst, !length_map. split; [reflexivity|].
  exists res0. split; [exact Hres|]. intros k a s Ha Hs.
  apply nth_error_map_filter in Ha. destruct Ha as [j [Hj ->]].
  apply nth_error_map_filter in Hs. destruct Hs as [j' [Hj' ->]].
  rewrite Hj in Hj'. inversion Hj'; subst j'; clear Hj'.
  apply nth_error_In, filter_In in Hj. destruct Hj as [Hj Hactive].
  apply in_seq in Hj. unfold active_at in Hactive. unfold status_at.
  destruct (nth_error res0 j) as [v|] eqn:Ev; [|discriminate].
  destruct (nth_error (Qp.var_lo instance) j) as [lo|] eqn:Elo; [|discriminate].
  exists j, v, lo.
  split; [reflexivity|]. split; [lia|]. split; [exact Ev|].
  split; [exact Elo|].
  destruct (Double.le v lo); [left; auto|right].
  simpl in Hactive.
  destruct (nth_error (Qp.var_up instance) j) as [up|] eqn:Eup; [|discriminate].
  split; [reflexivity|]. split; [reflexivity|]. exists up. auto.
Qed.

Lemma status_parallel_to_active_witness :
  length (Qp.status two_var_result) = length (Qp.active two_var_result) /\
  exists res0,
    Qp.unprojected_point two_var_instance = Done res0 /\
    forall k a s,
      nth_error (Qp.active two_var_result) k = Some a ->
      nth_error (Qp.status two_var_result) k = Some s ->
      exists j v lo,
        a = Int.add (Z.of_nat j) (Qp.num_con two_var_instance) /\
        (j < Z.to_nat (Qp.num_var two_var_instance))%nat /\
        nth_error res0 j = Some v /\
        nth_error (Qp.var_lo two_var_instance) j = Some lo /\
        ((s = Qp.ActiveAtLower /\ Double.le v lo = true) \/
         (s = Qp.ActiveAtUpper /\ Double.le v lo = false /\
          exists up, nth_error (Qp.var_up two_var_instance) j = Some up /\
                     Double.ge v up = true)).
Proof.
  apply (status_parallel_to_active two_var_instance
           (Qp.OtherModelStatus 0) (Qp.OtherModelStatus 0) two_var_result).
  - vm_compute. split; discriminate.
  - apply two_var_run.
Defined.

(** X4. The two sets hold positions in the joint numbering in which the
    variables follow the constraints: when [num_con + num_var] is an
    [int], every entry of the active and of the inactive set is at least
    [num_con] and below [num_con + num_var]. *)
Theorem entries_follow_the_constraints
        (instance : Qp.Instance) (ms ms' : Qp.QpModelStatus)
        (r : Qp.QpHotstartInformation) (a : Z) :
  0 <= Qp.num_var instance -> 0 <= Qp.num_con instance ->
  Qp.num_con instance + Qp.num_var instance <= Int.max_int ->
  Qp.computestartingpoint_bounded instance ms = Done (ms', r) ->
  In a (Qp.active r ++ Qp.inactive r) ->
  Qp.num_con instance <= a < Qp.num_con instance + Qp.num_var instance.
Proof.
  intros Hv Hc Hsum Hrun Hin.
  destruct (computestartingpoint_bounded_Done instance ms ms' r ltac:(lia) Hrun)
    as [res0 [_ [Hact [Hina _]]]].
  rewrite Hact, Hina in Hin.
  assert (H : exists j, (j < Z.to_nat (Qp.num_var instance))%nat /\
                        a = var_index instance j).
  { apply in_app_or in Hin.
    destruct Hin as [Hin|Hin]; apply in_map_iff in Hin;
      destruct Hin as [j [<- Hj]]; apply filter_In in Hj;
      destruct Hj as [Hj _]; apply in_seq in Hj; exists j; split; auto; lia. }
  destruct H as [j [Hj ->]]. unfold var_index, Int.add.
  rewrite Int_wrap_small; [lia|]. unfold Int.min_int. lia.
Qed.

Lemma entries_follow_the_constraints_witness :
  Qp.num_con two_var_instance <= 1
  < Qp.num_con two_var_instance + Qp.num_var two_var_instance.
Proof.
  apply (entries_follow_the_constraints two_var_instance
           (Qp.OtherModelStatus 0) (Qp.OtherModelStatus 0) two_var_result 1).
  - vm_compute. discriminate.
  - vm_compute. discriminate.
  - vm_compute. discriminate.
  - apply two_var_run.
  - vm_compute. left. reflexivity.
Defined.

(** X5. The returned point is a consistent sparse vector whose dimension
    is [num_var]: [num_nz] counts the variables whose projected value has
    magnitude above [10E-5], the first [num_nz] entries of [index] list
    these variables in increasing order, the value of each is its
    projected value, and the value of every other variable is the
    constructor's zero. *)
Theorem primal_lists_stored_entries
        (instance : Qp.Instance) (ms ms' : Qp.QpModelStatus)
        (r : Qp.QpHotstartInformation) :
  0 <= Qp.num_var instance <= Int.max_int ->
  Qp.computestartingpoint_bounded instance ms = Done (ms', r) ->
  exists res0,
    Qp.unprojected_point instance = Done res0 /\
    let nz := filter (stored instance res0)
                     (seq 0 (Z.to_nat (Qp.num_var instance))) in
    Qp.dim (Qp.primal r) = Qp.num_var instance /\
    Qp.num_nz (Qp.primal r) = Z.of_nat (length nz) /\
    firstn (length nz) (Qp.index (Qp.primal r)) = map Z.of_nat nz /\
    length (Qp.value (Qp.primal r)) = Z.to_nat (Qp.num_var instance) /\
    forall j, (j < Z.to_nat (Qp.num_var instance))%nat ->
      exists v, nth_error res0 j = Some v /\
        nth_error (Qp.value (Qp.primal r)) j
        = Some (if stored instance res0 j then clamp_at instance j v
                else Double.pos_zero).
Proof.
  intros Hn Hrun.
  destruct (computestartingpoint_bounded_passes instance ms ms' r Hn Hrun)
    as [res0 [ra [p [Hres [_ [Hloop ->]]]]]].
  destruct (index_inv_loop instance res0 p Hn Hloop)
    as [[_ [_ [_ [_ [Ilen Ix]]]]] [Idim [_ [Inz Iix]]]].
  exists res0. split; [exact Hres|]. simpl.
  repeat split; auto.
  intros j Hj. specialize (Ix j Hj).
  replace (j <? Z.to_nat (Qp.num_var instance))%nat with true in Ix
    by (symmetry; now apply Nat.ltb_lt).
  destruct (nth_error res0 j) as [v|] eqn:Ev.
  - exists v. split; [reflexivity|]. rewrite Ix. simpl.
    unfold sparse, stored. now rewrite Ev.
  - simpl in Ix. apply nth_error_None in Ix. lia.
Qed.

Lemma primal_lists_stored_entries_witness :
  exists res0,
    Qp.unprojected_point two_var_instance = Done res0 /\
    let nz := filter (stored two_var_instance res0)
                     (seq 0 (Z.to_nat (Qp.num_var two_var_instance))) in
    Qp.dim (Qp.primal two_var_result) = Qp.num_var two_var_instance /\
    Qp.num_nz (Qp.primal two_var_result) = Z.of_nat (length nz) /\
    firstn (length nz) (Qp.index (Qp.primal two_var_result)) = map Z.of_nat nz /\
    length (Qp.value (Qp.primal two_var_result))
    = Z.to_nat (Qp.num_var two_var_instance) /\
    forall j, (j < Z.to_nat (Qp.num_var two_var_instance))%nat ->
      exists v, nth_error res0 j = Some v /\
        nth_error (Qp.value (Qp.primal two_var_result)) j
        = Some (if stored two_var_instance res0 j
                then clamp_at two_var_instance j v
                else Double.pos_zero).
Proof.
  apply (primal_lists_stored_entries two_var_instance
           (Qp.OtherModelStatus 0) (Qp.OtherModelStatus 0) two_var_result).
  - vm_compute. split; discriminate.
  - apply two_var_run.
Defined.

Lemma filter_none {A : Type} (f : A -> bool) (l : list A) :
  (forall x, In x l -> f x = false) -> filter f l = [].
Proof.
  induction l as [|x l IH]; intros H; simpl; [reflexivity|].
  rewrite (H x (or_introl eq_refl)). apply IH.
  intros y Hy. apply H. now right.
Qed.

Lemma active_at_nan (instance : Qp.Instance) (res0 : list double) (j : nat) :
  nth_error res0 j = Some Double.nan -> active_at instance res0 j = false.
Proof.
  intros Hv. unfold active_at. rewrite Hv.
  destruct (nth_error (Qp.var_lo instance) j) as [lo|]; [|reflexivity].
  destruct (nth_error (Qp.var_up instance) j) as [up|].
  - destruct lo, up; reflexivity.
  - destruct lo; reflexivity.
Qed.

Example indefinite_run (ms : Qp.QpModelStatus) :
  Qp.unprojected_point indefinite_instance = Done [Double.nan] /\
  Qp.computestartingpoint_bounded indefinite_instance ms
  = Done (Qp.OPTIMAL, indefinite_result).
Proof. split; vm_compute; reflexivity. Qed.

(** X6. A NaN in the point before the projection is not reported: NaN
    fails both comparisons with the bounds and the test of line 69, so
    the variable is put in the inactive set, not in the active set, and
    the returned point holds the constructor's zero for it.  When every
    entry is NaN, as for a matrix whose factorization takes the square
    root of a negative number, the active set is empty and the status
    comes back OPTIMAL. *)
Theorem nan_value_reported_inactive
        (instance : Qp.Instance) (ms ms' : Qp.QpModelStatus)
        (r : Qp.QpHotstartInformation) (res0 : list double) :
  0 <= Qp.num_var instance <= Int.max_int ->
  Qp.computestartingpoint_bounded instance ms = Done (ms', r) ->
  Qp.unprojected_point instance = Done res0 ->
  (forall j, (j < Z.to_nat (Qp.num_var instance))%nat ->
     nth_error res0 j = Some Double.nan ->
     In (Int.add (Z.of_nat j) (Qp.num_con instance)) (Qp.inactive r) /\
     ~ In (Int.add (Z.of_nat j) (Qp.num_con instance)) (Qp.active r) /\
     nth_error (Qp.value (Qp.primal r)) j = Some Double.pos_zero) /\
  ((forall j, (j < Z.to_nat (Qp.num_var instance))%nat ->
      nth_error res0 j = Some Double.nan) ->
   Qp.active r = [] /\ ms' = Qp.OPTIMAL).
Proof.
  intros Hn Hrun Hres.
  destruct (computestartingpoint_bounded_Done instance ms ms' r Hn Hrun)
    as [res0' [Hres' [Hact [Hina [_ [Hx Hms]]]]]].
  rewrite Hres in Hres'. inversion Hres'; subst res0'; clear Hres'.
  assert (HK : Z.of_nat (Z.to_nat (Qp.num_var instance)) <= Int.max_int) by lia.
  split.
  - intros j Hj Hv. pose proof (active_at_nan instance res0 j Hv) as Hnot.
    split; [|split].
    + rewrite Hina.
      apply (in_classified instance _ HK
               (fun j => negb (active_at instance res0 j)) j Hj).
      now rewrite Hnot.
    + rewrite Hact. intros Hin.
      apply (in_classified instance _ HK (active_at instance res0) j Hj) in Hin.
      congruence.
    + destruct (Hx j Hj) as [v [Hv' Hp]]. rewrite Hv in Hv'.
      inversion Hv'; subst v; clear Hv'. rewrite Hp. f_equal.
      unfold clamp_at.
      destruct (nth_error (Qp.var_lo instance) j) as [lo|]; [|reflexivity].
      replace (Double.le Double.nan lo) with false by (now destruct lo).
      destruct (nth_error (Qp.var_up instance) j) as [up|]; [|reflexivity].
      replace (Double.ge Double.nan up) with false by (now destruct up).
      reflexivity.
  - intros Hall.
    assert (E : Qp.active r = []).
    { rewrite Hact, filter_none; [reflexivity|].
      intros j Hj. apply in_seq in Hj. apply active_at_nan, Hall. lia. }
    split; [exact E|]. now rewrite E in Hms.
Qed.

Lemma nan_value_reported_inactive_witness :
  (In 0 (Qp.inactive indefinite_result) /\
   ~ In 0 (Qp.active indefinite_result) /\
   nth_error (Qp.value (Qp.primal indefinite_result)) 0
   = Some Double.pos_zero) /\
  (Qp.active indefinite_result = [] /\ Qp.OPTIMAL = Qp.OPTIMAL).
Proof.
  pose proof (nan_value_reported_inactive indefinite_instance
                (Qp.OtherModelStatus 0) Qp.OPTIMAL indefinite_result
                [Double.nan]
                ltac:(vm_compute; split; discriminate)
                (proj2 (indefinite_run (Qp.OtherModelStatus 0)))
                (proj1 (indefinite_run (Qp.OtherModelStatus 0))))
    as [H1 H2].
  split.
  - apply (H1 0%nat); [simpl; lia|reflexivity].
  - apply H2. intros j Hj. simpl in Hj.
    assert (j = 0%nat) as -> by lia. reflexivity.
Defined.

(** X7. An instance without variables: whatever its number of
    constraints (a count), its matrix, its vectors' entries and the
    status before the call, the run ends normally with the status
    OPTIMAL, both sets and the status list empty, the empty point, and
    the zero row activity whose dimension is [num_con]. *)
Theorem no_variable_is_optimal
        (instance : Qp.Instance) (ms : Qp.QpModelStatus) :
  Qp.num_var instance = 0 ->
  Qp.dim (Qp.c instance) = 0 ->
  0 <= Qp.num_con instance <= Int.max_int ->
  Qp.computestartingpoint_bounded instance ms
  = Done (Qp.OPTIMAL,
          Qp.mkQpHotstartInformation [] [] []
            (Qp.mkVector 0 0 [] [])
            (Qp.mkVector (Qp.num_con instance) 0
               (repeat 0 (Z.to_nat (Qp.num_con instance)))
               (repeat Double.pos_zero (Z.to_nat (Qp.num_con instance))))).
Proof.
  intros Hv Hd Hc.
  unfold Qp.computestartingpoint_bounded, Qp.unprojected_point, Qp.cholesky,
    Qp.forward_solve, Qp.backward_solve, Qp.Vector_new.
  rewrite Hv, Hd.
  assert (E : Size.of_int (Qp.num_con instance) = Qp.num_con instance)
    by (apply Size_wrap_small; exact Hc).
  rewrite E. unfold resize.
  replace (Qp.num_con instance <=? Int.max_int) with true
    by (symmetry; apply Z.leb_le; lia).
  reflexivity.
Qed.

Lemma no_variable_is_optimal_witness :
  Qp.computestartingpoint_bounded (empty_instance 3) (Qp.OtherModelStatus 7)
  = Done (Qp.OPTIMAL,
          Qp.mkQpHotstartInformation [] [] []
            (Qp.mkVector 0 0 [] [])
            (Qp.mkVector 3 0 [0; 0; 0]
               [Double.pos_zero; Double.pos_zero; Double.pos_zero])).
Proof.
  apply (no_variable_is_optimal (empty_instance 3) (Qp.OtherModelStatus 7)).
  - reflexivity.
  - reflexivity.
  - vm_compute. split; discriminate.
Defined.

Section BoundsRead.
Import Qp.
Variable instance : Instance.
Variable res0 : list double.

(** What the passes before pass [k] have read. *)
Lemma reads_loop (p : projection) :
  0 <= instance.(num_var) <= Int.max_int ->
  for_up 0 instance.(num_var) (project_step instance)
         (mkProjection res0
            (mkVector instance.(num_var) 0
               (repeat 0 (Z.to_nat instance.(num_var)))
               (repeat Double.pos_zero (Z.to_nat instance.(num_var))))
            [] [] []) = Done p ->
  forall j, (j < Z.to_nat instance.(num_var))%nat ->
    exists v lo,
      nth_error res0 j = Some v /\
      nth_error instance.(var_lo) j = Some lo /\
      (Double.le v lo = false ->
       exists up, nth_error instance.(var_up) j = Some up).
Proof.
  intros Hn Hrun. unfold for_up in Hrun.
  replace (instance.(num_var) - 0) with instance.(num_var) in Hrun by lia.
  refine (proj2
    (iterate_inv (project_step instance) 1
       (fun k p =>
          projection_inv instance res0 (Z.to_nat instance.(num_var)) k p /\
          forall j, (j < k)%nat ->
            exists v lo,
              nth_error res0 j = Some v /\
              nth_error instance.(var_lo) j = Some lo /\
              (Double.le v lo = false ->
               exists up, nth_error instance.(var_up) j = Some up))
       (Z.to_nat instance.(num_var)) 0 _ p _ _ Hrun)).
  - split.
    + unfold projection_inv. simpl. repeat split; auto.
      * apply repeat_length.
      * intros j Hj. now apply nth_error_repeat.
    + intros j Hj. lia.
  - intros k t t' Hk [P1 P2] Hb.
    replace (0 + Z.of_nat k * 1) with (Z.of_nat k) in Hb by lia.
    split.
    + apply (projection_inv_step instance res0 _ k t t'); auto. lia.
    + intros j Hj. destruct (Nat.eq_dec j k) as [->|Hjk].
      * destruct (project_step_Done instance k t t' ltac:(lia) Hb)
          as [v [lo [act [r' [Hr [Hlo [Hcase _]]]]]]].
        destruct P1 as [Ires _]. rewrite Ires, Nat.ltb_irrefl in Hr.
        exists v, lo. split; [exact Hr|]. split; [exact Hlo|].
        intros Hle.
        destruct Hcase as [[E _]|[_ [up [Hup _]]]]; [congruence|eauto].
      * apply P2. lia.
Qed.
End BoundsRead.

(** X8. The routine relies on [var_lo] being as long as the instance
    says: on an instance whose [var_lo] has fewer than [num_var]
    entries, every run makes an element access outside a vector, the
    read of [var_lo[i]] at line 58 at the latest, which
    [std::vector::operator[]] does not check and C++ leaves undefined,
    or asks for an allocation that cannot succeed.  In the model such a
    run ends in [Fault]: neither in a normal end, which stands for a run
    all of whose accesses are within their vectors, nor in the failed
    assertion. *)
Theorem short_var_lo_is_out_of_range
        (instance : Qp.Instance) (ms : Qp.QpModelStatus) :
  0 <= Qp.num_var instance <= Int.max_int ->
  Z.of_nat (length (Qp.var_lo instance)) < Qp.num_var instance ->
  Qp.computestartingpoint_bounded instance ms = Fault.
Proof.
  intros Hn Hshort.
  destruct (Qp.computestartingpoint_bounded instance ms) as [[ms' r]| |] eqn:E.
  - exfalso.
    destruct (computestartingpoint_bounded_passes instance ms ms' r Hn E)
      as [res0 [ra [p [_ [_ [Hloop _]]]]]].
    destruct (reads_loop instance res0 p Hn Hloop
                (Z.to_nat (Qp.num_var instance) - 1)%nat ltac:(lia))
      as [v [lo [_ [Hlo _]]]].
    assert (Hlt : (Z.to_nat (Qp.num_var instance) - 1
                   < length (Qp.var_lo instance))%nat).
    { apply nth_error_Some. congruence. }
    lia.
  - now apply computestartingpoint_bounded_no_assertion in E.
  - reflexivity.
Qed.

Lemma short_var_lo_is_out_of_range_witness :
  Qp.computestartingpoint_bounded short_var_lo_instance (Qp.OtherModelStatus 0)
  = Fault.
Proof.
  apply (short_var_lo_is_out_of_range short_var_lo_instance
           (Qp.OtherModelStatus 0)).
  - vm_compute. split; discriminate.
  - vm_compute. reflexivity.
Defined.

Lemma primal_within_bounds_or_zero_witness :
  exists x,
    nth_error (Qp.value (Qp.primal two_var_result)) 1 = Some x /\
    ((Double.le (Double.of_int (-10)) x = true /\
      Double.le x (Double.of_int 1) = true) \/ x = Double.pos_zero).
Proof.
  apply (primal_within_bounds_or_zero two_var_instance
           (Qp.OtherModelStatus 0) (Qp.OtherModelStatus 0) two_var_result 1
           (Double.of_int (-10)) (Double.of_int 1)).
  - vm_compute. split; discriminate.
  - apply two_var_run.
  - simpl. lia.
  - reflexivity.
  - reflexivity.
  - reflexivity.
  - intros res0 v Hres Hv. vm_compute in Hres. inversion Hres; subst res0.
    simpl in Hv. inversion Hv. reflexivity.
Defined.

(** ** simplex/HighsSimplexAnalysis.cpp *)

Example lit_0_99_is_99_hundredths : Analysis.lit_0_99 = decimal 99 100.
Proof. reflexivity. Qed.

Example lit_0_01_is_one_hundredth : Analysis.lit_0_01 = decimal 1 100.
Proof. reflexivity. Qed.

Lemma lt_irrefl (a : double) : Double.lt a a = false.
Proof.
  unfold Double.lt. destruct (Double.is_nan a) eqn:E.
  - destruct a; try discriminate. reflexivity.
  - now rewrite SFcompare_refl.
Qed.

Lemma lt_asym (a b : double) : Double.lt a b = true -> Double.lt b a = false.
Proof.
  unfold Double.lt. rewrite (SFcompare_antisym a b).
  destruct (SFcompare a b) as [[]|]; simpl; auto; discriminate.
Qed.

(** [std::max] returns one of its operands, and one that is less than
    neither. *)
Lemma max_not_below (a b : double) :
  Double.lt (Double.max a b) a = false /\ Double.lt (Double.max a b) b = false.
Proof.
  unfold Double.max. destruct (Double.lt a b) eqn:E.
  - split; [now apply lt_asym|apply lt_irrefl].
  - split; [apply lt_irrefl|exact E].
Qed.

Lemma max_gt_false (a b z : double) :
  Double.gt a z = false -> Double.gt b z = false ->
  Double.gt (Double.max a b) z = false.
Proof. unfold Double.max. now destruct (Double.lt a b). Qed.

Lemma mul_nan_r (a : double) : Double.mul a Double.nan = Double.nan.
Proof. destruct a; reflexivity. Qed.

Lemma add_nan_r (a : double) : Double.add a Double.nan = Double.nan.
Proof. destruct a; reflexivity. Qed.

Lemma add_nan_l (a : double) : Double.add Double.nan a = Double.nan.
Proof. reflexivity. Qed.

Lemma is_nan_eq (a : double) : Double.is_nan a = true -> a = Double.nan.
Proof. destruct a; try discriminate. reflexivity. Qed.

Lemma gt_nan_l (a : double) : Double.gt Double.nan a = false.
Proof. reflexivity. Qed.

Ltac split_ifs :=
  repeat match goal with
         | |- context [if ?c then _ else _] => destruct c eqn:?
         end.

Section SwitchToDevexFacts.
Import HighsSimplexAnalysis.
Variables ram limit mn_density frac_tot frac_costly : double.

(** X9. [switchToDevex] writes three members only: the measure of the
    cost of the steepest edge weights, the running frequency of costly
    iterations and their count.  The count goes up by one exactly when
    the measure that the call stores exceeds its limit and the density
    of the weights' operation exceeds its minimum, and the frequency is
    scaled by [1 - running_average_multiplier] and, on such an
    iteration, raised by [running_average_multiplier]. *)
Theorem switchToDevex_writes_three_members (a : t) :
  let a' := snd (switchToDevex ram limit mn_density frac_tot frac_costly a) in
  let costly :=
    Double.gt (AnIterCostlyDseMeasure a') limit &&
    Double.gt (row_DSE_density a) mn_density in
  numTot a' = numTot a /\
  allow_dual_steepest_edge_to_devex_switch a'
  = allow_dual_steepest_edge_to_devex_switch a /\
  dual_steepest_edge_weight_log_error_threshhold a'
  = dual_steepest_edge_weight_log_error_threshhold a /\
  simplex_iteration_count a' = simplex_iteration_count a /\
  col_aq_density a' = col_aq_density a /\
  row_ep_density a' = row_ep_density a /\
  row_ap_density a' = row_ap_density a /\
  row_DSE_density a' = row_DSE_density a /\
  AnIterIt0 a' = AnIterIt0 a /\
  average_log_low_dual_steepest_edge_weight_error a'
  = average_log_low_dual_steepest_edge_weight_error a /\
  average_log_high_dual_steepest_edge_weight_error a'
  = average_log_high_dual_steepest_edge_weight_error a /\
  AnIterNumCostlyDseIt a'
  = (if costly then Int.add (AnIterNumCostlyDseIt a) 1
     else AnIterNumCostlyDseIt a) /\
  AnIterCostlyDseFq a'
  = (let scaled :=
       Double.mul (Double.sub (Double.of_int 1) ram) (AnIterCostlyDseFq a) in
     if costly
     then Double.add scaled (Double.mul ram (Double.of_int 1))
     else scaled).
Proof.
  unfold switchToDevex. destruct a. 
  destruct (Double.gt _ (Double.of_int 0));
    cbv beta iota zeta
        delta [set_AnIterCostlyDseMeasure set_AnIterCostlyDseFq
               set_AnIterNumCostlyDseIt AnIterCostlyDseMeasure row_DSE_density
               AnIterCostlyDseFq AnIterNumCostlyDseIt numTot
               allow_dual_steepest_edge_to_devex_switch
               dual_steepest_edge_weight_log_error_threshhold
               simplex_iteration_count col_aq_density row_ep_density
               row_ap_density AnIterIt0
               average_log_low_dual_steepest_edge_weight_error
               average_log_high_dual_steepest_edge_weight_error];
    match goal with
    | |- context [if ?c then (_, _) else (_, _)] => destruct c eqn:E
    end;
    cbv beta iota zeta delta [fst snd negb];
    rewrite ?E; repeat split; reflexivity.
Qed.

(** X10. The accuracy of the weights is enough to switch: when the
    switch is allowed and the sum of the two average logarithmic weight
    errors exceeds the threshold, [switchToDevex] returns true, whatever
    the densities and the iteration counts are. *)
Theorem switchToDevex_on_weight_error (a : t) :
  allow_dual_steepest_edge_to_devex_switch a = true ->
  Double.gt
    (Double.add (average_log_low_dual_steepest_edge_weight_error a)
                (average_log_high_dual_steepest_edge_weight_error a))
    (dual_steepest_edge_weight_log_error_threshhold a) = true ->
  fst (switchToDevex ram limit mn_density frac_tot frac_costly a) = true.
Proof.
  intros Hflag Herr. unfold switchToDevex. destruct a.
  cbn [allow_dual_steepest_edge_to_devex_switch
       average_log_low_dual_steepest_edge_weight_error
       average_log_high_dual_steepest_edge_weight_error
       dual_steepest_edge_weight_log_error_threshhold] in Hflag, Herr.
  subst.
  destruct (Double.gt _ (Double.of_int 0));
    cbv beta iota zeta
        delta [set_AnIterCostlyDseMeasure set_AnIterCostlyDseFq
               set_AnIterNumCostlyDseIt AnIterCostlyDseMeasure row_DSE_density
               AnIterCostlyDseFq AnIterNumCostlyDseIt numTot
               allow_dual_steepest_edge_to_devex_switch
               dual_steepest_edge_weight_log_error_threshhold
               simplex_iteration_count col_aq_density row_ep_density
               row_ap_density AnIterIt0
               average_log_low_dual_steepest_edge_weight_error
               average_log_high_dual_steepest_edge_weight_error];
    match goal with
    | |- context [if ?c then (_, _) else (_, _)] => destruct c
    end;
    cbv beta iota zeta
        delta [fst snd negb andb
               allow_dual_steepest_edge_to_devex_switch
               dual_steepest_edge_weight_log_error_threshhold
               average_log_low_dual_steepest_edge_weight_error
               average_log_high_dual_steepest_edge_weight_error];
    rewrite Herr;
    repeat match goal with
           | |- context [Double.gt ?x ?y] => destruct (Double.gt x y)
           end; reflexivity.
Qed.
End SwitchToDevexFacts.

Section SwitchToDevexClosedForm.
Import HighsSimplexAnalysis.
Variables ram limit mn_density frac_tot frac_costly : double.

(** The call in closed form: what it stores and what it returns. *)
Lemma switchToDevex_closed_form (a : t) :
  switchToDevex ram limit mn_density frac_tot frac_costly a
  = let den :=
      Double.max (Double.max (row_ep_density a) (col_aq_density a))
                 (row_ap_density a) in
    let measure :=
      if Double.gt den (Double.of_int 0)
      then Double.mul (Double.div (row_DSE_density a) den)
                      (Double.div (row_DSE_density a) den)
      else Double.of_int 0 in
    let costly :=
      Double.gt measure limit && Double.gt (row_DSE_density a) mn_density in
    let fq :=
      Double.mul (Double.sub (Double.of_int 1) ram) (AnIterCostlyDseFq a) in
    let num :=
      if costly then Int.add (AnIterNumCostlyDseIt a) 1
      else AnIterNumCostlyDseIt a in
    let lcNumIter := Int.sub (simplex_iteration_count a) (AnIterIt0 a) in
    (allow_dual_steepest_edge_to_devex_switch a &&
     ((costly &&
       Double.gt (Double.of_int num)
                 (Double.mul (Double.of_int lcNumIter) frac_costly) &&
       Double.gt (Double.of_int lcNumIter)
                 (Double.mul frac_tot (Double.of_int (numTot a)))) ||
      Double.gt
        (Double.add (average_log_low_dual_steepest_edge_weight_error a)
                    (average_log_high_dual_steepest_edge_weight_error a))
        (dual_steepest_edge_weight_log_error_threshhold a)),
     mk (numTot a) (allow_dual_steepest_edge_to_devex_switch a)
        (dual_steepest_edge_weight_log_error_threshhold a)
        (simplex_iteration_count a) (col_aq_density a) (row_ep_density a)
        (row_ap_density a) (row_DSE_density a) (AnIterIt0 a)
        (if costly then Double.add fq (Double.mul ram (Double.of_int 1)) else fq)
        measure num
        (average_log_low_dual_steepest_edge_weight_error a)
        (average_log_high_dual_steepest_edge_weight_error a)).
Proof.
  unfold switchToDevex. destruct a.
  cbv beta iota zeta
      delta [set_AnIterCostlyDseMeasure set_AnIterCostlyDseFq
             set_AnIterNumCostlyDseIt AnIterCostlyDseMeasure row_DSE_density
             AnIterCostlyDseFq AnIterNumCostlyDseIt numTot
             allow_dual_steepest_edge_to_devex_switch
             dual_steepest_edge_weight_log_error_threshhold
             simplex_iteration_count col_aq_density row_ep_density
             row_ap_density AnIterIt0
             average_log_low_dual_steepest_edge_weight_error
             average_log_high_dual_steepest_edge_weight_error].
  destruct (Double.gt _ (Double.of_int 0));
    cbv beta iota zeta
        delta [set_AnIterCostlyDseMeasure set_AnIterCostlyDseFq
               set_AnIterNumCostlyDseIt AnIterCostlyDseMeasure row_DSE_density
               AnIterCostlyDseFq AnIterNumCostlyDseIt numTot
               allow_dual_steepest_edge_to_devex_switch
               dual_steepest_edge_weight_log_error_threshhold
               simplex_iteration_count col_aq_density row_ep_density
               row_ap_density AnIterIt0
               average_log_low_dual_steepest_edge_weight_error
               average_log_high_dual_steepest_edge_weight_error];
    match goal with
    | |- context [if ?c then (_, _) else (_, _)] => destruct c
    end;
    cbv beta iota zeta
        delta [set_AnIterCostlyDseMeasure set_AnIterCostlyDseFq
               set_AnIterNumCostlyDseIt AnIterCostlyDseMeasure row_DSE_density
               AnIterCostlyDseFq AnIterNumCostlyDseIt numTot
               allow_dual_steepest_edge_to_devex_switch
               dual_steepest_edge_weight_log_error_threshhold
               simplex_iteration_count col_aq_density row_ep_density
               row_ap_density AnIterIt0
               average_log_low_dual_steepest_edge_weight_error
               average_log_high_dual_steepest_edge_weight_error];
    f_equal;
    destruct allow_dual_steepest_edge_to_devex_switch0;
    repeat match goal with
           | |- context [Double.gt ?x ?y] => destruct (Double.gt x y)
           end; reflexivity.
Qed.

(** The denominator of the measure when no density is above zero. *)
Lemma no_density_above_zero (a : t) :
  Double.gt (row_ep_density a) (Double.of_int 0) = false ->
  Double.gt (col_aq_density a) (Double.of_int 0) = false ->
  Double.gt (row_ap_density a) (Double.of_int 0) = false ->
  Double.gt
    (Double.max (Double.max (row_ep_density a) (col_aq_density a))
                (row_ap_density a)) (Double.of_int 0) = false.
Proof.
  intros Hep Haq Hap. apply max_gt_false; [|exact Hap].
  apply max_gt_false; assumption.
Qed.

(** X11. With no density above zero, as after [setup], nothing is
    divided: the measure stored is zero; and when the limit of the
    measure is not negative the iteration is not costly, so that the
    count is kept, the frequency is only scaled, and the value returned
    is the verdict on the accuracy of the weights alone. *)
Theorem switchToDevex_without_density (a : t) :
  Double.gt (row_ep_density a) (Double.of_int 0) = false ->
  Double.gt (col_aq_density a) (Double.of_int 0) = false ->
  Double.gt (row_ap_density a) (Double.of_int 0) = false ->
  Double.gt (Double.of_int 0) limit = false ->
  switchToDevex ram limit mn_density frac_tot frac_costly a
  = (allow_dual_steepest_edge_to_devex_switch a &&
     Double.gt
       (Double.add (average_log_low_dual_steepest_edge_weight_error a)
                   (average_log_high_dual_steepest_edge_weight_error a))
       (dual_steepest_edge_weight_log_error_threshhold a),
     set_AnIterCostlyDseFq
       (Double.mul (Double.sub (Double.of_int 1) ram) (AnIterCostlyDseFq a))
       (set_AnIterCostlyDseMeasure (Double.of_int 0) a)).
Proof.
  intros Hep Haq Hap Hlimit. rewrite switchToDevex_closed_form.
  cbv zeta. rewrite (no_density_above_zero a Hep Haq Hap), Hlimit.
  reflexivity.
Qed.

(** X14. When one of the two average logarithmic weight errors is NaN,
    the accuracy of the weights never triggers the switch: a call that
    returns true has found the iteration costly, more costly iterations
    than the allowed fraction of the iterations since [initialise], and
    more such iterations than the required fraction of [numTot]. *)
Theorem switchToDevex_with_nan_average (a : t) :
  Double.is_nan (average_log_low_dual_steepest_edge_weight_error a) = true \/
  Double.is_nan (average_log_high_dual_steepest_edge_weight_error a) = true ->
  fst (switchToDevex ram limit mn_density frac_tot frac_costly a) = true ->
  let a' := snd (switchToDevex ram limit mn_density frac_tot frac_costly a) in
  let lcNumIter := Int.sub (simplex_iteration_count a) (AnIterIt0 a) in
  Double.gt (AnIterCostlyDseMeasure a') limit = true /\
  Double.gt (row_DSE_density a) mn_density = true /\
  AnIterNumCostlyDseIt a' = Int.add (AnIterNumCostlyDseIt a) 1 /\
  Double.gt (Double.of_int (AnIterNumCostlyDseIt a'))
            (Double.mul (Double.of_int lcNumIter) frac_costly) = true /\
  Double.gt (Double.of_int lcNumIter)
            (Double.mul frac_tot (Double.of_int (numTot a))) = true.
Proof.
  intros Hnan. rewrite switchToDevex_closed_form. cbv zeta.
  cbn [fst snd AnIterCostlyDseMeasure AnIterNumCostlyDseIt].
  assert (E : Double.gt
                (Double.add (average_log_low_dual_steepest_edge_weight_error a)
                            (average_log_high_dual_steepest_edge_weight_error a))
                (dual_steepest_edge_weight_log_error_threshhold a) = false).
  { destruct Hnan as [H|H]; apply is_nan_eq in H; rewrite H.
    - reflexivity.
    - now rewrite add_nan_r. }
  rewrite E, orb_false_r. intros H.
  apply andb_true_iff in H. destruct H as [_ H].
  apply andb_true_iff in H. destruct H as [H H3].
  apply andb_true_iff in H. destruct H as [H1 H2].
  rewrite H1 in *. apply andb_true_iff in H1. destruct H1 as [H0 H1].
  auto.
Qed.
End SwitchToDevexClosedForm.

(** X12. The first call of [switchToDevex] after [setup], the limit of
    the cost measure not being negative: it returns true exactly when
    the options ask for the strategy that switches to Devex and their
    threshold for the logarithmic weight error is below zero; with a
    threshold of zero or more it returns false. *)
Theorem first_switchToDevex_after_setup
        (ram limit mn_density frac_tot frac_costly : double)
        (STEEPEST_EDGE UNIT_INITIAL TO_DEVEX_SWITCH : Z)
        (lp : HighsLp.t) (options : HighsOptions.t) (o : Analysis.object) :
  Double.gt (Double.of_int 0) limit = false ->
  fst (HighsSimplexAnalysis.switchToDevex
         ram limit mn_density frac_tot frac_costly
         (Analysis.core
            (Analysis.setup STEEPEST_EDGE UNIT_INITIAL TO_DEVEX_SWITCH
                            lp options o)))
  = (HighsOptions.simplex_dual_edge_weight_strategy options =? TO_DEVEX_SWITCH)
    && Double.lt
         (HighsOptions.dual_steepest_edge_weight_log_error_threshhold options)
         (Double.of_int 0).
Proof.
  intros Hlimit. rewrite switchToDevex_closed_form. cbv zeta. cbn [fst].
  rewrite no_density_above_zero by reflexivity.
  rewrite Hlimit, <- gt_lt. unfold Analysis.setup.
  cbn [Analysis.core HighsSimplexAnalysis.allow_dual_steepest_edge_to_devex_switch
       HighsSimplexAnalysis.average_log_low_dual_steepest_edge_weight_error
       HighsSimplexAnalysis.average_log_high_dual_steepest_edge_weight_error
       HighsSimplexAnalysis.dual_steepest_edge_weight_log_error_threshhold
       andb orb].
  destruct (HighsOptions.simplex_dual_edge_weight_strategy options
            =? TO_DEVEX_SWITCH); [|reflexivity].
  rewrite orb_true_r. reflexivity.
Qed.

Lemma first_switchToDevex_after_setup_witness :
  fst (HighsSimplexAnalysis.switchToDevex
         (decimal 5 100) (Double.of_int 1000) (decimal 1 100)
         (decimal 1 10) (decimal 5 100)
         (Analysis.core
            (after_setup 4)))
  = false.
Proof.
  exact (first_switchToDevex_after_setup
           (decimal 5 100) (Double.of_int 1000) (decimal 1 100)
           (decimal 1 10) (decimal 5 100) 2 3 4
           small_lp (options_with 4) blank_object eq_refl).
Defined.

(** X13. Right after [initialise] is given the current iteration count,
    no iteration has been counted since, and the cost of the weights
    cannot trigger the switch when the required fraction of [numTot] is
    not negative: [switchToDevex] returns the verdict on the accuracy of
    the weights alone. *)
Theorem no_cost_switch_right_after_initialise
        (ram limit mn_density frac_tot frac_costly : double)
        (HiGHSDEV : bool) (o : Analysis.object) :
  let c := Analysis.core o in
  Double.gt (Double.of_int 0)
            (Double.mul frac_tot
               (Double.of_int (HighsSimplexAnalysis.numTot c))) = false ->
  fst (HighsSimplexAnalysis.switchToDevex
         ram limit mn_density frac_tot frac_costly
         (Analysis.core
            (Analysis.initialise
               HiGHSDEV (HighsSimplexAnalysis.simplex_iteration_count c) o)))
  = HighsSimplexAnalysis.allow_dual_steepest_edge_to_devex_switch c &&
    Double.gt
      (Double.add
         (HighsSimplexAnalysis.average_log_low_dual_steepest_edge_weight_error c)
         (HighsSimplexAnalysis.average_log_high_dual_steepest_edge_weight_error c))
      (HighsSimplexAnalysis.dual_steepest_edge_weight_log_error_threshhold c).
Proof.
  intros c Hfrac. rewrite switchToDevex_closed_form. cbv zeta. cbn [fst].
  assert (Hc : forall c' : HighsSimplexAnalysis.t,
             c' = Analysis.core
                    (Analysis.initialise
                       HiGHSDEV (HighsSimplexAnalysis.simplex_iteration_count c) o) ->
             HighsSimplexAnalysis.simplex_iteration_count c'
             = HighsSimplexAnalysis.AnIterIt0 c' /\
             HighsSimplexAnalysis.numTot c' = HighsSimplexAnalysis.numTot c /\
             HighsSimplexAnalysis.allow_dual_steepest_edge_to_devex_switch c'
             = HighsSimplexAnalysis.allow_dual_steepest_edge_to_devex_switch c /\
             HighsSimplexAnalysis.dual_steepest_edge_weight_log_error_threshhold c'
             = HighsSimplexAnalysis.dual_steepest_edge_weight_log_error_threshhold c /\
             HighsSimplexAnalysis.average_log_low_dual_steepest_edge_weight_error c'
             = HighsSimplexAnalysis.average_log_low_dual_steepest_edge_weight_error c /\
             HighsSimplexAnalysis.average_log_high_dual_steepest_edge_weight_error c'
             = HighsSimplexAnalysis.average_log_high_dual_steepest_edge_weight_error c).
  { intros c' ->. unfold Analysis.initialise. destruct HiGHSDEV; cbn; auto 10. }
  destruct (Hc _ eq_refl) as [E1 [E2 [E3 [E4 [E5 E6]]]]].
  rewrite E1, E2, E3, E4, E5, E6.
  unfold Int.sub. rewrite Z.sub_diag.
  change (Int.wrap 0) with 0. rewrite Hfrac, !andb_false_r. reflexivity.
Qed.

Lemma no_cost_switch_right_after_initialise_witness :
  fst (HighsSimplexAnalysis.switchToDevex
         (decimal 5 100) (Double.of_int 1000) (decimal 1 100)
         (decimal 1 10) (decimal 5 100)
         (Analysis.core
            (Analysis.initialise false 500
               (Analysis.set_core (costly_state true) blank_object))))
  = true.
Proof.
  exact (no_cost_switch_right_after_initialise
           (decimal 5 100) (Double.of_int 1000) (decimal 1 100)
           (decimal 1 10) (decimal 5 100) false
           (Analysis.set_core (costly_state true) blank_object) eq_refl).
Defined.

Lemma switchToDevex_on_weight_error_witness :
  fst (HighsSimplexAnalysis.switchToDevex
         (decimal 5 100) (Double.of_int 1000000) (decimal 1 100)
         (decimal 1 10) (decimal 5 100) (costly_state true)) = true.
Proof.
  apply (switchToDevex_on_weight_error
           (decimal 5 100) (Double.of_int 1000000) (decimal 1 100)
           (decimal 1 10) (decimal 5 100) (costly_state true));
    reflexivity.
Defined.

Lemma switchToDevex_without_density_witness :
  HighsSimplexAnalysis.switchToDevex
    (decimal 5 100) (Double.of_int 1000) (decimal 1 100)
    (decimal 1 10) (decimal 5 100) (Analysis.core blank_object)
  = (false,
     HighsSimplexAnalysis.set_AnIterCostlyDseFq
       (Double.mul (Double.sub (Double.of_int 1) (decimal 5 100))
                   (Double.of_int 0))
       (HighsSimplexAnalysis.set_AnIterCostlyDseMeasure
          (Double.of_int 0) (Analysis.core blank_object))).
Proof.
  apply (switchToDevex_without_density
           (decimal 5 100) (Double.of_int 1000) (decimal 1 100)
           (decimal 1 10) (decimal 5 100) (Analysis.core blank_object));
    reflexivity.
Defined.

Lemma switchToDevex_with_nan_average_witness :
  Double.gt
    (HighsSimplexAnalysis.AnIterCostlyDseMeasure
       (snd (HighsSimplexAnalysis.switchToDevex
               (decimal 5 100) (Double.of_int 1000) (decimal 1 100)
               (decimal 1 10) (decimal 5 100) costly_state_with_nan)))
    (Double.of_int 1000) = true /\
  Double.gt (decimal 9 10) (decimal 1 100) = true /\
  HighsSimplexAnalysis.AnIterNumCostlyDseIt
    (snd (HighsSimplexAnalysis.switchToDevex
            (decimal 5 100) (Double.of_int 1000) (decimal 1 100)
            (decimal 1 10) (decimal 5 100) costly_state_with_nan)) = 401 /\
  Double.gt (Double.of_int 401)
            (Double.mul (Double.of_int 500) (decimal 5 100)) = true /\
  Double.gt (Double.of_int 500)
            (Double.mul (decimal 1 10) (Double.of_int 100)) = true.
Proof.
  exact (switchToDevex_with_nan_average
           (decimal 5 100) (Double.of_int 1000) (decimal 1 100)
           (decimal 1 10) (decimal 5 100) costly_state_with_nan
           (or_intror eq_refl) eq_refl).
Defined.

Section WeightError.
Import Analysis.
Variables accept_weight_threshhold weight_error_threshhold : double.
Variable log_finite : positive -> Z -> double.

(** The call in closed form. *)
Lemma dualSteepestEdgeWeightError_closed_form
      (computed_edge_weight updated_edge_weight : double) (o : object) :
  dualSteepestEdgeWeightError
    accept_weight_threshhold weight_error_threshhold log_finite
    computed_edge_weight updated_edge_weight o
  = let w := weights o in
    let c := core o in
    let low := Double.lt updated_edge_weight computed_edge_weight in
    let weight_error :=
      if low then Double.div computed_edge_weight updated_edge_weight
      else Double.div updated_edge_weight computed_edge_weight in
    let wrong := Double.gt weight_error weight_error_threshhold in
    let logged :=
      Double.mul lit_0_01 (HighsSimplexAnalysis.log log_finite weight_error) in
    let average_log_low :=
      if low
      then Double.add
             (Double.mul lit_0_99
                (HighsSimplexAnalysis.average_log_low_dual_steepest_edge_weight_error c))
             logged
      else HighsSimplexAnalysis.average_log_low_dual_steepest_edge_weight_error c in
    let average_log_high :=
      if low
      then HighsSimplexAnalysis.average_log_high_dual_steepest_edge_weight_error c
      else Double.add
             (Double.mul lit_0_99
                (HighsSimplexAnalysis.average_log_high_dual_steepest_edge_weight_error c))
             logged in
    let average_frequency_low :=
      Double.add
        (Double.mul lit_0_99 (average_frequency_low_dual_steepest_edge_weight w))
        (Double.mul lit_0_01
           (Double.of_int (if low && wrong then 1 else 0))) in
    let average_frequency_high :=
      Double.add
        (Double.mul lit_0_99 (average_frequency_high_dual_steepest_edge_weight w))
        (Double.mul lit_0_01
           (Double.of_int (if negb low && wrong then 1 else 0))) in
    mkObject
      (HighsSimplexAnalysis.mk
         (HighsSimplexAnalysis.numTot c)
         (HighsSimplexAnalysis.allow_dual_steepest_edge_to_devex_switch c)
         (HighsSimplexAnalysis.dual_steepest_edge_weight_log_error_threshhold c)
         (HighsSimplexAnalysis.simplex_iteration_count c)
         (HighsSimplexAnalysis.col_aq_density c)
         (HighsSimplexAnalysis.row_ep_density c)
         (HighsSimplexAnalysis.row_ap_density c)
         (HighsSimplexAnalysis.row_DSE_density c)
         (HighsSimplexAnalysis.AnIterIt0 c)
         (HighsSimplexAnalysis.AnIterCostlyDseFq c)
         (HighsSimplexAnalysis.AnIterCostlyDseMeasure c)
         (HighsSimplexAnalysis.AnIterNumCostlyDseIt c)
         average_log_low average_log_high)
      (numRow o) (numCol o)
      (mkWeights
         (Int.add (num_dual_steepest_edge_weight_check w) 1)
         (if Double.ge updated_edge_weight
                       (Double.mul accept_weight_threshhold computed_edge_weight)
          then num_dual_steepest_edge_weight_reject w
          else Int.add (num_dual_steepest_edge_weight_reject w) 1)
         (num_wrong_low_dual_steepest_edge_weight w)
         (num_wrong_high_dual_steepest_edge_weight w)
         average_frequency_low average_frequency_high
         (Double.max (max_average_frequency_low_dual_steepest_edge_weight w)
                     average_frequency_low)
         (Double.max (max_average_frequency_high_dual_steepest_edge_weight w)
                     average_frequency_high)
         (Double.max
            (max_sum_average_frequency_extreme_dual_steepest_edge_weight w)
            (Double.add average_frequency_low average_frequency_high))
         (Double.max (max_average_log_low_dual_steepest_edge_weight_error w)
                     average_log_low)
         (Double.max (max_average_log_high_dual_steepest_edge_weight_error w)
                     average_log_high)
         (Double.max
            (max_sum_average_log_extreme_dual_steepest_edge_weight_error w)
            (Double.add average_log_low average_log_high)))
      (report o).
Proof.
  unfold dualSteepestEdgeWeightError. cbv zeta.
  destruct (Double.lt updated_edge_weight computed_edge_weight);
    destruct (Double.ge updated_edge_weight _);
    cbn [negb andb];
    match goal with
    | |- context [Double.gt ?x weight_error_threshhold] =>
        destruct (Double.gt x weight_error_threshhold)
    end; reflexivity.
Qed.

(** X15. The six running maxima never go down, and each is at least
    the average that it follows: after a call a maximum is neither less
    than it was before nor less than the new value of its average, or of
    the sum of its two averages. *)
Theorem running_maxima_never_decrease
        (computed_edge_weight updated_edge_weight : double) (o : object) :
  let o' :=
    dualSteepestEdgeWeightError
      accept_weight_threshhold weight_error_threshhold log_finite
      computed_edge_weight updated_edge_weight o in
  let w := weights o in
  let w' := weights o' in
  let c' := core o' in
  (Double.lt (max_average_frequency_low_dual_steepest_edge_weight w')
             (max_average_frequency_low_dual_steepest_edge_weight w) = false /\
   Double.lt (max_average_frequency_low_dual_steepest_edge_weight w')
             (average_frequency_low_dual_steepest_edge_weight w') = false) /\
  (Double.lt (max_average_frequency_high_dual_steepest_edge_weight w')
             (max_average_frequency_high_dual_steepest_edge_weight w) = false /\
   Double.lt (max_average_frequency_high_dual_steepest_edge_weight w')
             (average_frequency_high_dual_steepest_edge_weight w') = false) /\
  (Double.lt (max_sum_average_frequency_extreme_dual_steepest_edge_weight w')
             (max_sum_average_frequency_extreme_dual_steepest_edge_weight w)
   = false /\
   Double.lt (max_sum_average_frequency_extreme_dual_steepest_edge_weight w')
             (Double.add (average_frequency_low_dual_steepest_edge_weight w')
                         (average_frequency_high_dual_steepest_edge_weight w'))
   = false) /\
  (Double.lt (max_average_log_low_dual_steepest_edge_weight_error w')
             (max_average_log_low_dual_steepest_edge_weight_error w) = false /\
   Double.lt (max_average_log_low_dual_steepest_edge_weight_error w')
             (HighsSimplexAnalysis.average_log_low_dual_steepest_edge_weight_error c')
   = false) /\
  (Double.lt (max_average_log_high_dual_steepest_edge_weight_error w')
             (max_average_log_high_dual_steepest_edge_weight_error w) = false /\
   Double.lt (max_average_log_high_dual_steepest_edge_weight_error w')
             (HighsSimplexAnalysis.average_log_high_dual_steepest_edge_weight_error c')
   = false) /\
  (Double.lt (max_sum_average_log_extreme_dual_steepest_edge_weight_error w')
             (max_sum_average_log_extreme_dual_steepest_edge_weight_error w)
   = false /\
   Double.lt (max_sum_average_log_extreme_dual_steepest_edge_weight_error w')
             (Double.add
                (HighsSimplexAnalysis.average_log_low_dual_steepest_edge_weight_error c')
                (HighsSimplexAnalysis.average_log_high_dual_steepest_edge_weight_error c'))
   = false).
Proof.
  rewrite dualSteepestEdgeWeightError_closed_form. cbv zeta.
  cbn [weights core
       max_average_frequency_low_dual_steepest_edge_weight
       max_average_frequency_high_dual_steepest_edge_weight
       max_sum_average_frequency_extreme_dual_steepest_edge_weight
       max_average_log_low_dual_steepest_edge_weight_error
       max_average_log_high_dual_steepest_edge_weight_error
       max_sum_average_log_extreme_dual_steepest_edge_weight_error
       average_frequency_low_dual_steepest_edge_weight
       average_frequency_high_dual_steepest_edge_weight
       HighsSimplexAnalysis.average_log_low_dual_steepest_edge_weight_error
       HighsSimplexAnalysis.average_log_high_dual_steepest_edge_weight_error].
  repeat split; apply max_not_below.
Qed.

(** X16. The two counts of weight checks: a call counts one check more,
    and one rejection more exactly when the updated weight is not at
    least [accept_weight_threshhold] times the computed one, which
    includes every NaN; so the rejections never outnumber the checks,
    as long as the count of checks has not reached the largest [int]. *)
Theorem weight_check_counts
        (computed_edge_weight updated_edge_weight : double) (o : object) :
  let w := weights o in
  let w' :=
    weights (dualSteepestEdgeWeightError
               accept_weight_threshhold weight_error_threshhold log_finite
               computed_edge_weight updated_edge_weight o) in
  let accept :=
    Double.ge updated_edge_weight
              (Double.mul accept_weight_threshhold computed_edge_weight) in
  0 <= num_dual_steepest_edge_weight_reject w
    <= num_dual_steepest_edge_weight_check w ->
  num_dual_steepest_edge_weight_check w < Int.max_int ->
  num_dual_steepest_edge_weight_check w'
  = num_dual_steepest_edge_weight_check w + 1 /\
  num_dual_steepest_edge_weight_reject w'
  = num_dual_steepest_edge_weight_reject w + (if accept then 0 else 1) /\
  0 <= num_dual_steepest_edge_weight_reject w'
    <= num_dual_steepest_edge_weight_check w' /\
  (Double.is_nan computed_edge_weight = true \/
   Double.is_nan updated_edge_weight = true -> accept = false).
Proof.
  rewrite dualSteepestEdgeWeightError_closed_form. cbv zeta.
  cbn [weights num_dual_steepest_edge_weight_check
       num_dual_steepest_edge_weight_reject].
  intros Hle Hmax.
  assert (E1 : Int.add (num_dual_steepest_edge_weight_check (weights o)) 1
               = num_dual_steepest_edge_weight_check (weights o) + 1).
  { unfold Int.add. apply Int_wrap_small. unfold Int.min_int. lia. }
  assert (E2 : Int.add (num_dual_steepest_edge_weight_reject (weights o)) 1
               = num_dual_steepest_edge_weight_reject (weights o) + 1).
  { unfold Int.add. apply Int_wrap_small. unfold Int.min_int. lia. }
  rewrite E1, E2.
  split; [reflexivity|]. split; [|split].
  - destruct (Double.ge _ _); lia.
  - destruct (Double.ge _ _); lia.
  - intros [H|H]; apply is_nan_eq in H; rewrite H.
    + rewrite mul_nan_r. now destruct updated_edge_weight.
    + reflexivity.
Qed.

Lemma nan_average_is_kept
      (computed_edge_weight updated_edge_weight : double) (o : object) :
  Double.is_nan
    (HighsSimplexAnalysis.average_log_high_dual_steepest_edge_weight_error
       (core o)) = true ->
  Double.is_nan
    (HighsSimplexAnalysis.average_log_high_dual_steepest_edge_weight_error
       (core (dualSteepestEdgeWeightError
                accept_weight_threshhold weight_error_threshhold log_finite
                computed_edge_weight updated_edge_weight o))) = true.
Proof.
  intros H. rewrite dualSteepestEdgeWeightError_closed_form. cbv zeta.
  cbn [core HighsSimplexAnalysis.average_log_high_dual_steepest_edge_weight_error].
  destruct (Double.lt updated_edge_weight computed_edge_weight); [exact H|].
  apply is_nan_eq in H. rewrite H, mul_nan_r. reflexivity.
Qed.

(** X17. A quotient of the weights that is NaN, as for two weights that
    are zero or for a weight that is NaN, is never forgotten: the check
    of an updated weight that is not below the computed one makes the
    average logarithmic error of the high weights NaN, and it stays NaN
    through every later check, whatever the weights are. *)
Theorem nan_quotient_poisons_high_average
        (computed_edge_weight updated_edge_weight : double) (o : object)
        (later : list (double * double)) :
  Double.lt updated_edge_weight computed_edge_weight = false ->
  Double.is_nan (Double.div updated_edge_weight computed_edge_weight) = true ->
  Double.is_nan
    (HighsSimplexAnalysis.average_log_high_dual_steepest_edge_weight_error
       (core (weight_checks
                accept_weight_threshhold weight_error_threshhold log_finite
                ((computed_edge_weight, updated_edge_weight) :: later) o)))
  = true.
Proof.
  intros Hlow Hnan. unfold weight_checks. simpl fold_left.
  set (o1 := dualSteepestEdgeWeightError _ _ _ _ _ o).
  assert (H1 : Double.is_nan
                 (HighsSimplexAnalysis.average_log_high_dual_steepest_edge_weight_error
                    (core o1)) = true).
  { unfold o1. rewrite dualSteepestEdgeWeightError_closed_form. cbv zeta.
    cbn [core HighsSimplexAnalysis.average_log_high_dual_steepest_edge_weight_error].
    rewrite Hlow. apply is_nan_eq in Hnan. rewrite Hnan.
    cbn [HighsSimplexAnalysis.log]. rewrite mul_nan_r, add_nan_r. reflexivity. }
  clearbody o1. revert o1 H1.
  induction later as [|[c u] later IH]; intros o1 H1; [exact H1|].
  simpl fold_left. apply IH. now apply nan_average_is_kept.
Qed.
End WeightError.

Lemma weight_check_counts_witness :
  Analysis.num_dual_steepest_edge_weight_check
    (Analysis.weights
       (Analysis.dualSteepestEdgeWeightError
          (decimal 25 100) (Double.of_int 4) log_table
          (Double.of_int 10) (Double.of_int 1) blank_object)) = 0 + 1 /\
  Analysis.num_dual_steepest_edge_weight_reject
    (Analysis.weights
       (Analysis.dualSteepestEdgeWeightError
          (decimal 25 100) (Double.of_int 4) log_table
          (Double.of_int 10) (Double.of_int 1) blank_object)) = 0 + 1.
Proof.
  destruct (weight_check_counts
              (decimal 25 100) (Double.of_int 4) log_table
              (Double.of_int 10) (Double.of_int 1) blank_object)
    as [H1 [H2 _]].
  - vm_compute. split; discriminate.
  - reflexivity.
  - split; [exact H1|exact H2].
Defined.

Lemma nan_quotient_poisons_high_average_witness :
  Double.is_nan
    (HighsSimplexAnalysis.average_log_high_dual_steepest_edge_weight_error
       (Analysis.core
          (weight_checks
             (decimal 25 100) (Double.of_int 4) log_table
             [(Double.of_int 0, Double.of_int 0);
              (Double.of_int 10, Double.of_int 10)] blank_object)))
  = true.
Proof.
  apply (nan_quotient_poisons_high_average
           (decimal 25 100) (Double.of_int 4) log_table
           (Double.of_int 0) (Double.of_int 0) blank_object
           [(Double.of_int 10, Double.of_int 10)]);
    reflexivity.
Defined.

Section Reports.
Import String.
Import Analysis.
Variable ML_DETAILED : Z.
Variable HiGHSDEV : bool.
Variable log_finite : positive -> Z -> double.

Lemma iterationReportDensity_calls
      (header : bool) (o : object) (msgs : list message) :
  iterationReportDensity log_finite ML_DETAILED header o = Some msgs ->
  Forall (fun m => to_output m = output (report o) /\
                   with_message_level m = message_level (report o) /\
                   at_level m = ML_DETAILED) msgs.
Proof.
  unfold iterationReportDensity, HighsPrintMessage. intros H.
  destruct header.
  - destruct (edge_weight_mode (report o));
      inversion H; subst msgs; repeat constructor.
  - destruct (HighsSimplexAnalysis.intLog10 _ _); [|discriminate].
    destruct (HighsSimplexAnalysis.intLog10 _ _); [|discriminate].
    destruct (HighsSimplexAnalysis.intLog10 _ _); [|discriminate].
    destruct (edge_weight_mode (report o));
      try (destruct (HighsSimplexAnalysis.intLog10 _ _); [|discriminate]);
      inversion H; subst msgs; repeat constructor.
Qed.

(** The first call of a report, and where all its calls are sent. *)
Lemma iterationReportFull_calls
      (header : bool) (o : object) (msgs : list message) :
  iterationReportFull ML_DETAILED HiGHSDEV log_finite header o = Some msgs ->
  hd_error msgs
  = Some (if header
          then mkMessage (output (report o)) (message_level (report o))
                         ML_DETAILED " Iteration Ph" []
          else mkMessage (output (report o)) (message_level (report o))
                         ML_DETAILED " %9d %2d"
                         [Int (HighsSimplexAnalysis.simplex_iteration_count (core o));
                          Int (solve_phase (report o))]) /\
  Forall (fun m => to_output m = output (report o) /\
                   with_message_level m = message_level (report o) /\
                   at_level m = ML_DETAILED) msgs.
Proof.
  unfold iterationReportFull,
    iterationReportIterationAndPhase, iterationReportDualObjective,
    iterationReportIterationData, HighsPrintMessage.
  intros H. destruct HiGHSDEV.
  - destruct (iterationReportDensity _ _ _ _) as [density|] eqn:Ed;
      [|discriminate].
    apply iterationReportDensity_calls in Ed.
    inversion H; subst msgs; clear H.
    split; [now destruct header|].
    destruct header; cbn [app]; repeat constructor;
      (apply Forall_app; split; [exact Ed|repeat constructor]).
  - inversion H; subst msgs; clear H.
    destruct header; cbn [app]; (split; [reflexivity|repeat constructor]).
Qed.

(** What a report writes. *)
Lemma iterationReport_writes (o o' : object) (msgs : list message) :
  iterationReport ML_DETAILED HiGHSDEV log_finite o = Some (msgs, o') ->
  core o' = core o /\ weights o' = weights o /\
  numRow o' = numRow o /\ numCol o' = numCol o /\
  exists n,
    report o' = set_previous_iteration_report_header_iteration_count n (report o).
Proof.
  unfold iterationReport. intros H.
  destruct (_ || _).
  - destruct (iterationReportFull _ _ _ true o) as [head|]; [|discriminate].
    destruct (iterationReportFull _ _ _ false _) as [line|]; [|discriminate].
    inversion H; subst msgs o'; clear H.
    repeat split. eexists. reflexivity.
  - destruct (iterationReportFull _ _ _ false o) as [line|]; [|discriminate].
    inversion H; subst msgs o'; clear H. repeat split.
    exists (previous_iteration_report_header_iteration_count (report o)).
    now destruct (report o).
Qed.

(** X18. Every call of [HighsPrintMessage] that [iterationReport] makes
    is at the level [ML_DETAILED], with the output and the message level
    that [messaging] stored last; and the only member that the report
    writes is the iteration count of the last header. *)
Theorem iterationReport_calls
        (o o' : object) (msgs : list message) :
  iterationReport ML_DETAILED HiGHSDEV log_finite o = Some (msgs, o') ->
  Forall (fun m => to_output m = output (report o) /\
                   with_message_level m = message_level (report o) /\
                   at_level m = ML_DETAILED) msgs /\
  core o' = core o /\ weights o' = weights o /\
  numRow o' = numRow o /\ numCol o' = numCol o /\
  exists n,
    report o' = set_previous_iteration_report_header_iteration_count n (report o).
Proof.
  intros H. split; [|now apply (iterationReport_writes o o' msgs)].
  unfold iterationReport in H.
  destruct (_ || _).
  - destruct (iterationReportFull _ _ _ true o) as [head|] eqn:Eh; [|discriminate].
    destruct (iterationReportFull _ _ _ false _) as [line|] eqn:El; [|discriminate].
    inversion H; subst msgs o'; clear H.
    apply iterationReportFull_calls in Eh, El.
    destruct Eh as [_ Fh], El as [_ Fl].
    apply Forall_app; split; [exact Fh|exact Fl].
  - destruct (iterationReportFull _ _ _ false o) as [line|] eqn:El; [|discriminate].
    inversion H; subst msgs o'; clear H.
    apply iterationReportFull_calls in El. now destruct El.
Qed.

(** X19. When the header is printed: a report begins with the header
    exactly when no header has been printed since [setup] (the stored
    count is negative) or the iteration count is more than 10 above the
    count stored at the last header; the report then stores the current
    count, and otherwise leaves the object as it is. *)
Theorem report_header_cadence
        (o o' : object) (msgs : list message) :
  let previous := previous_iteration_report_header_iteration_count (report o) in
  let count := HighsSimplexAnalysis.simplex_iteration_count (core o) in
  let header := (previous <? 0) || (count - previous >? 10) in
  Int.min_int <= count - previous <= Int.max_int ->
  iterationReport ML_DETAILED HiGHSDEV log_finite o = Some (msgs, o') ->
  ((exists rest,
      msgs = mkMessage (output (report o)) (message_level (report o))
                       ML_DETAILED " Iteration Ph" [] :: rest)
   <-> header = true) /\
  o' = (if header
        then set_report
               (set_previous_iteration_report_header_iteration_count
                  count (report o)) o
        else o).
Proof.
  intros previous count header Hrange. unfold iterationReport.
  unfold Int.sub. rewrite Int_wrap_small by exact Hrange.
  fold previous count header. intros H.
  destruct header.
  - destruct (iterationReportFull _ _ _ true o) as [head|] eqn:Eh; [|discriminate].
    destruct (iterationReportFull _ _ _ false _) as [line|] eqn:El; [|discriminate].
    inversion H; subst msgs o'; clear H.
    apply iterationReportFull_calls in Eh. destruct Eh as [Eh _].
    split; [|reflexivity]. split; [reflexivity|]. intros _.
    destruct head as [|m head]; [discriminate|].
    simpl in Eh. inversion Eh; subst m. now exists (head ++ line)%list.
  - destruct (iterationReportFull _ _ _ false o) as [line|] eqn:El; [|discriminate].
    inversion H; subst msgs o'; clear H.
    apply iterationReportFull_calls in El. destruct El as [El _].
    split; [|reflexivity]. split; [|discriminate].
    intros [rest ->]. simpl in El. inversion El.
Qed.
End Reports.

Section ReportsAfterSetup.
Import String.
Import Analysis.
Variable ML_DETAILED : Z.
Variable HiGHSDEV : bool.
Variable log_finite : positive -> Z -> double.
Variables STEEPEST_EDGE_ UNIT_INITIAL TO_DEVEX_SWITCH : Z.

(** X20. The first report after [setup] ends normally in every build
    and whatever the C library's [log] is: it begins with the header,
    stores the current iteration count as the count of the last header,
    and, in a build with HiGHSDEV, reports -99 for the three densities
    that [setup] has zeroed, without taking a logarithm. *)
Theorem first_report_after_setup
        (lp : HighsLp.t) (options : HighsOptions.t) (o : object) :
  exists msgs o',
    iterationReport ML_DETAILED HiGHSDEV log_finite
      (setup STEEPEST_EDGE_ UNIT_INITIAL TO_DEVEX_SWITCH lp options o)
    = Some (msgs, o') /\
    hd_error msgs
    = Some (mkMessage (HighsOptions.output options)
                      (HighsOptions.message_level options)
                      ML_DETAILED " Iteration Ph" []) /\
    previous_iteration_report_header_iteration_count (report o')
    = HighsSimplexAnalysis.simplex_iteration_count (core o) /\
    (HiGHSDEV = true ->
     In (mkMessage (HighsOptions.output options)
                   (HighsOptions.message_level options)
                   ML_DETAILED " %4d %4d %4d"
                   [Int (-99); Int (-99); Int (-99)]) msgs).
Proof.
  destruct o as [c nr nc w r]. destruct r.
  destruct HiGHSDEV, edge_weight_mode0;
    (eexists; eexists; split; [reflexivity|]);
    (split; [reflexivity|]); (split; [reflexivity|]);
    intros Hdev; try discriminate;
    simpl; auto 20.
Qed.
End ReportsAfterSetup.

Section ReportsInARow.
Import Analysis.
Variable ML_DETAILED : Z.
Variable HiGHSDEV : bool.
Variable log_finite : positive -> Z -> double.

(** X22. Two reports in a row: when the iteration count is not
    negative, the report that follows a report at the same iteration
    prints no header; it repeats the last line of the first and leaves
    the object as it is. *)
Theorem second_report_has_no_header
        (o o' : object) (msgs : list message) :
  0 <= HighsSimplexAnalysis.simplex_iteration_count (core o) ->
  iterationReport ML_DETAILED HiGHSDEV log_finite o = Some (msgs, o') ->
  exists head line,
    msgs = head ++ line /\
    iterationReportFull ML_DETAILED HiGHSDEV log_finite false o' = Some line /\
    iterationReport ML_DETAILED HiGHSDEV log_finite o' = Some (line, o').
Proof.
  intros Hcount. unfold iterationReport.
  destruct (_ || _) eqn:Eheader.
  - destruct (iterationReportFull _ _ _ true o) as [head|]; [|discriminate].
    destruct (iterationReportFull _ _ _ false _) as [line|] eqn:El;
      [|discriminate].
    intros H. inversion H; subst msgs o'; clear H.
    exists head, line. split; [reflexivity|]. split; [exact El|].
    cbn [report core set_report
         set_previous_iteration_report_header_iteration_count
         previous_iteration_report_header_iteration_count].
    unfold Int.sub. rewrite Z.sub_diag. change (Int.wrap 0 >? 10) with false.
    replace (HighsSimplexAnalysis.simplex_iteration_count (core o) <? 0)
      with false by (symmetry; apply Z.ltb_ge; lia).
    cbn [orb]. cbn [report core set_report
         set_previous_iteration_report_header_iteration_count
         previous_iteration_report_header_iteration_count] in El.
    now rewrite El.
  - destruct (iterationReportFull _ _ _ false o) as [line|] eqn:El;
      [|discriminate].
    intros H. inversion H; subst msgs o'; clear H.
    exists [], line. split; [reflexivity|]. split; [exact El|].
    now rewrite Eheader, El.
Qed.
End ReportsInARow.

Section CallsAfterSetup.
Variables running_average_multiplier AnIterCostlyDseMeasureLimit
          AnIterCostlyDseMnDensity AnIterFracNumTot_ItBfSw
          AnIterFracNumCostlyDseItbfSw
          accept_weight_threshhold weight_error_threshhold : double.
Variable ML_DETAILED : Z.
Variable HiGHSDEV : bool.
Variable log_finite : positive -> Z -> double.

Lemma run_keeps_settings (k : call) (o o' : Analysis.object) :
  run running_average_multiplier AnIterCostlyDseMeasureLimit
      AnIterCostlyDseMnDensity AnIterFracNumTot_ItBfSw
      AnIterFracNumCostlyDseItbfSw accept_weight_threshhold
      weight_error_threshhold ML_DETAILED HiGHSDEV log_finite k o = Some o' ->
  settings o' = settings o.
Proof.
  destruct k; simpl; intros H.
  - inversion H. reflexivity.
  - inversion H. now destruct density.
  - inversion H. rewrite dualSteepestEdgeWeightError_closed_form. reflexivity.
  - inversion H. rewrite switchToDevex_closed_form. reflexivity.
  - destruct (Analysis.iterationReport _ _ _ o) as [[msgs o1]|] eqn:E;
      [|discriminate].
    inversion H; subst o1; clear H.
    apply iterationReport_writes in E.
    destruct E as [Ec [_ [Er [En _]]]].
    unfold settings. now rewrite Ec, Er, En.
  - inversion H. unfold Analysis.initialise.
    destruct HiGHSDEV; reflexivity.
Qed.

Lemma run_calls_keep_settings (ks : list call) (o o' : Analysis.object) :
  run_calls running_average_multiplier AnIterCostlyDseMeasureLimit
      AnIterCostlyDseMnDensity AnIterFracNumTot_ItBfSw
      AnIterFracNumCostlyDseItbfSw accept_weight_threshhold
      weight_error_threshhold ML_DETAILED HiGHSDEV log_finite ks o = Some o' ->
  settings o' = settings o.
Proof.
  revert o. induction ks as [|k ks IH]; intros o H; simpl in H.
  - now inversion H.
  - destruct (run _ _ _ _ _ _ _ _ _ _ k o) as [o1|] eqn:E; [|discriminate].
    rewrite (IH o1 H). now apply (run_keeps_settings k).
Qed.

(** X21. What [setup] copies stays: through every sequence of calls of
    the other member functions that ends normally, the problem size,
    the threshold for the logarithmic weight error and the flag that
    allows the switch to Devex are those of the last [setup]; the flag
    is set exactly when the options ask for the strategy that switches.
    Hence, with any other strategy, [switchToDevex] returns false after
    every such sequence. *)
Theorem setup_settings_are_kept
        (STEEPEST_EDGE UNIT_INITIAL TO_DEVEX_SWITCH : Z)
        (lp : HighsLp.t) (options : HighsOptions.t)
        (ks : list call) (o o' : Analysis.object) :
  run_calls running_average_multiplier AnIterCostlyDseMeasureLimit
      AnIterCostlyDseMnDensity AnIterFracNumTot_ItBfSw
      AnIterFracNumCostlyDseItbfSw accept_weight_threshhold
      weight_error_threshhold ML_DETAILED HiGHSDEV log_finite ks
      (Analysis.setup STEEPEST_EDGE UNIT_INITIAL TO_DEVEX_SWITCH lp options o)
  = Some o' ->
  Analysis.numRow o' = HighsLp.numRow_ lp /\
  Analysis.numCol o' = HighsLp.numCol_ lp /\
  HighsSimplexAnalysis.numTot (Analysis.core o')
  = Int.add (HighsLp.numRow_ lp) (HighsLp.numCol_ lp) /\
  HighsSimplexAnalysis.dual_steepest_edge_weight_log_error_threshhold
    (Analysis.core o')
  = HighsOptions.dual_steepest_edge_weight_log_error_threshhold options /\
  HighsSimplexAnalysis.allow_dual_steepest_edge_to_devex_switch (Analysis.core o')
  = (HighsOptions.simplex_dual_edge_weight_strategy options =? TO_DEVEX_SWITCH) /\
  (HighsOptions.simplex_dual_edge_weight_strategy options <> TO_DEVEX_SWITCH ->
   fst (HighsSimplexAnalysis.switchToDevex
          running_average_multiplier AnIterCostlyDseMeasureLimit
          AnIterCostlyDseMnDensity AnIterFracNumTot_ItBfSw
          AnIterFracNumCostlyDseItbfSw (Analysis.core o')) = false).
Proof.
  intros H. apply run_calls_keep_settings in H. unfold settings in H.
  inversion H as [[E1 E2 E3 E4 E5]]; clear H.
  cbn [Analysis.setup Analysis.numRow Analysis.numCol Analysis.core
       HighsSimplexAnalysis.numTot
       HighsSimplexAnalysis.allow_dual_steepest_edge_to_devex_switch
       HighsSimplexAnalysis.dual_steepest_edge_weight_log_error_threshhold]
    in E1, E2, E3, E4, E5.
  repeat split; auto.
  intros Hs. rewrite switchToDevex_closed_form. cbv zeta. cbn [fst].
  rewrite E4. apply Z.eqb_neq in Hs. now rewrite Hs.
Qed.
End CallsAfterSetup.

Lemma iterationReport_calls_witness :
  exists msgs o',
    Analysis.iterationReport 4 false log_table (after_setup 4) = Some (msgs, o') /\
    Forall (fun m => Analysis.to_output m = 2 /\
                     Analysis.with_message_level m = 7 /\
                     Analysis.at_level m = 4) msgs.
Proof.
  destruct (Analysis.iterationReport 4 false log_table (after_setup 4))
    as [[msgs o']|] eqn:E; [|vm_compute in E; discriminate].
  exists msgs, o'. split; [reflexivity|].
  exact (proj1 (iterationReport_calls 4 false log_table
                  (after_setup 4) o' msgs E)).
Defined.

Lemma report_header_cadence_witness :
  exists msgs o',
    Analysis.iterationReport 4 false log_table (after_setup 4) = Some (msgs, o') /\
    Analysis.previous_iteration_report_header_iteration_count
      (Analysis.report o') = 0.
Proof.
  destruct (Analysis.iterationReport 4 false log_table (after_setup 4))
    as [[msgs o']|] eqn:E; [|vm_compute in E; discriminate].
  exists msgs, o'. split; [reflexivity|].
  destruct (report_header_cadence 4 false log_table (after_setup 4) o' msgs
              ltac:(vm_compute; split; discriminate) E) as [_ ->].
  reflexivity.
Defined.

Lemma second_report_has_no_header_witness :
  exists msgs o' head line,
    Analysis.iterationReport 4 false log_table (after_setup 4) = Some (msgs, o') /\
    msgs = head ++ line /\
    Analysis.iterationReport 4 false log_table o' = Some (line, o').
Proof.
  destruct (Analysis.iterationReport 4 false log_table (after_setup 4))
    as [[msgs o']|] eqn:E; [|vm_compute in E; discriminate].
  destruct (second_report_has_no_header 4 false log_table (after_setup 4) o' msgs
              ltac:(vm_compute; discriminate) E) as [head [line [H1 [_ H2]]]].
  exists msgs, o', head, line. auto.
Defined.

Lemma setup_settings_are_kept_witness :
  exists o',
    run_calls (decimal 5 100) (Double.of_int 1000) (decimal 1 100)
      (decimal 1 10) (decimal 5 100) (decimal 25 100) (Double.of_int 4)
      4 false log_table some_calls (after_setup 2) = Some o' /\
    HighsSimplexAnalysis.allow_dual_steepest_edge_to_devex_switch
      (Analysis.core o') = false /\
    fst (HighsSimplexAnalysis.switchToDevex
           (decimal 5 100) (Double.of_int 1000) (decimal 1 100)
           (decimal 1 10) (decimal 5 100) (Analysis.core o')) = false.
Proof.
  destruct (run_calls (decimal 5 100) (Double.of_int 1000) (decimal 1 100)
              (decimal 1 10) (decimal 5 100) (decimal 25 100) (Double.of_int 4)
              4 false log_table some_calls (after_setup 2))
    as [o'|] eqn:E; [|vm_compute in E; discriminate].
  exists o'. split; [reflexivity|].
  destruct (setup_settings_are_kept
              (decimal 5 100) (Double.of_int 1000) (decimal 1 100)
              (decimal 1 10) (decimal 5 100) (decimal 25 100) (Double.of_int 4)
              4 false log_table 2 3 4 small_lp (options_with 2)
              some_calls blank_object o' E) as [_ [_ [_ [_ [H1 H2]]]]].
  split; [exact H1|]. apply H2. discriminate.
Defined.

(** ** simplex/HighsSimplexAnalysis.cpp: the operation records *)

Lemma list_set_twice {A : Type} (v : list A) (k : nat) (x y : A) :
  list_set (list_set v k x) k y = list_set v k y.
Proof.
  revert k. induction v as [|h t IH]; intros [|k]; simpl; auto.
  now rewrite IH.
Qed.

Lemma store_at_nat {A : Type} (v : list A) (k : nat) (x : A) :
  (k < length v)%nat -> store v (Z.of_nat k) x = Done (list_set v k x).
Proof.
  intros Hk. unfold store.
  destruct (Z.leb_spec 0 (Z.of_nat k)) as [_|H]; [|lia].
  destruct (Z.ltb_spec (Z.of_nat k) (Z.of_nat (length v))) as [_|H]; [|lia].
  simpl. now rewrite Nat2Z.id.
Qed.

Section OperationRecordFacts.
Import Analysis.
Variable hyperRESULT : double.
Variable log_finite : positive -> Z -> double.

(** One call of [operationRecordBefore] on a record of the array. *)
Lemma operationRecordBefore_Done
      (numRow : Z) (k : nat) (vector_count : Z) (historical_density : double)
      (AnIterOp : list AnIterOpRec) (r : AnIterOpRec) :
  nth_error AnIterOp k = Some r ->
  exists r',
    operationRecordBefore numRow (Z.of_nat k) vector_count historical_density
                          AnIterOp
    = Done (list_set AnIterOp k r') /\
    AnIterOpNumCa r' = Int.add (AnIterOpNumCa r) 1 /\
    (AnIterOpNumHyperOp r' = AnIterOpNumHyperOp r \/
     AnIterOpNumHyperOp r' = Int.add (AnIterOpNumHyperOp r) 1) /\
    AnIterOpNumHyperRs r' = AnIterOpNumHyperRs r /\
    AnIterOpRsMxNNZ r' = AnIterOpRsMxNNZ r /\
    AnIterOpRsDim r' = AnIterOpRsDim r.
Proof.
  intros Hr. unfold operationRecordBefore. rewrite at_of_nat, Hr.
  cbn [bind].
  assert (Hk : (k < length AnIterOp)%nat) by (apply nth_error_Some; congruence).
  rewrite store_at_nat by exact Hk.
  eexists. split; [reflexivity|].
  destruct (_ && _); cbn; auto 10.
Qed.

(** One call of [operationRecordAfter] on a record of the array. *)
Lemma operationRecordAfter_Done
      (k : nat) (vector_count : Z)
      (AnIterOp : list AnIterOpRec) (r : AnIterOpRec) :
  nth_error AnIterOp k = Some r ->
  exists r',
    operationRecordAfter hyperRESULT log_finite (Z.of_nat k) vector_count AnIterOp
    = Done (list_set AnIterOp k r') /\
    AnIterOpNumCa r' = AnIterOpNumCa r /\
    AnIterOpNumHyperOp r' = AnIterOpNumHyperOp r /\
    (AnIterOpNumHyperRs r' = AnIterOpNumHyperRs r \/
     AnIterOpNumHyperRs r' = Int.add (AnIterOpNumHyperRs r) 1) /\
    AnIterOpRsMxNNZ r' = Z.max (AnIterOpRsMxNNZ r) vector_count /\
    AnIterOpRsDim r' = AnIterOpRsDim r.
Proof.
  intros Hr. unfold operationRecordAfter. rewrite at_of_nat, Hr.
  cbn [bind].
  assert (Hk : (k < length AnIterOp)%nat) by (apply nth_error_Some; congruence).
  rewrite store_at_nat by exact Hk.
  eexists. split; [reflexivity|].
  assert (Hmax : forall m,
             (if vector_count <? m then m else vector_count)
             = Z.max m vector_count).
  { intros m. destruct (Z.ltb_spec vector_count m); lia. }
  destruct (Double.le _ hyperRESULT), (Double.gt _ (Double.of_int 0));
    cbn; rewrite Hmax; auto 10.
Qed.

(** The record of the operations of one kind after a row of them. *)
Lemma operations_recorded_Done
      (numRow : Z) (k : nat) (calls : list (Z * double * Z)) :
  forall (AnIterOp : list AnIterOpRec) (r : AnIterOpRec),
    nth_error AnIterOp k = Some r ->
    exists r',
      operations_recorded hyperRESULT log_finite numRow (Z.of_nat k) calls
                          AnIterOp
      = Done (list_set AnIterOp k r') /\
      AnIterOpRsMxNNZ r'
      = fold_left (fun m c => Z.max m (snd c)) calls (AnIterOpRsMxNNZ r) /\
      AnIterOpRsDim r' = AnIterOpRsDim r /\
      (0 <= AnIterOpNumHyperOp r <= AnIterOpNumCa r ->
       0 <= AnIterOpNumHyperRs r <= AnIterOpNumCa r ->
       AnIterOpNumCa r + Z.of_nat (length calls) <= Int.max_int ->
       AnIterOpNumCa r' = AnIterOpNumCa r + Z.of_nat (length calls) /\
       0 <= AnIterOpNumHyperOp r' <= AnIterOpNumCa r' /\
       0 <= AnIterOpNumHyperRs r' <= AnIterOpNumCa r').
Proof.
  induction calls as [|[[cb hd] ca] calls IH]; intros ops r Hr.
  - exists r. simpl. split; [|repeat split; lia].
    f_equal. clear - Hr. revert k Hr.
    induction ops as [|h t IHt]; intros [|k] Hr; simpl in *; try discriminate.
    + now inversion Hr.
    + f_equal. now apply IHt.
  - assert (Hk : (k < length ops)%nat) by (apply nth_error_Some; congruence).
    destruct (operationRecordBefore_Done numRow k cb hd ops r Hr)
      as [r1 [E1 [B1 [B2 [B3 [B4 B5]]]]]].
    assert (Hr1 : nth_error (list_set ops k r1) k = Some r1).
    { rewrite nth_error_list_set by exact Hk. now rewrite Nat.eqb_refl. }
    destruct (operationRecordAfter_Done k ca (list_set ops k r1) r1 Hr1)
      as [r2 [E2 [A1 [A2 [A3 [A4 A5]]]]]].
    rewrite list_set_twice in E2.
    assert (Hr2 : nth_error (list_set ops k r2) k = Some r2).
    { rewrite nth_error_list_set by exact Hk. now rewrite Nat.eqb_refl. }
    destruct (IH (list_set ops k r2) r2 Hr2) as [r' [E [H4 [H5 H]]]].
    rewrite list_set_twice in E.
    exists r'. simpl operations_recorded. rewrite E1. cbn [bind].
    rewrite E2. cbn [bind]. rewrite E.
    split; [reflexivity|].
    split; [rewrite H4, A4, B4; reflexivity|].
    split; [congruence|].
    simpl length. rewrite Nat2Z.inj_succ. intros Hop Hrs Hmax.
    assert (W : forall z, 0 <= z < Int.max_int -> Int.add z 1 = z + 1).
    { intros z Hz. unfold Int.add. apply Int_wrap_small.
      unfold Int.min_int. lia. }
    rewrite (W (AnIterOpNumCa r)) in B1 by lia.
    assert (C1 : 0 <= AnIterOpNumHyperOp r2 <= AnIterOpNumCa r2).
    { rewrite A1, A2, B1.
      destruct B2 as [->| ->]; [lia|]. rewrite W by lia. lia. }
    assert (C2 : 0 <= AnIterOpNumHyperRs r2 <= AnIterOpNumCa r2).
    { rewrite A1, B1.
      destruct A3 as [->| ->]; rewrite B3; [lia|]. rewrite W by lia. lia. }
    destruct (H C1 C2 ltac:(rewrite A1, B1; lia)) as [H1 [H2 H3]].
    split; [rewrite H1, A1, B1; lia|]. split; [exact H2|exact H3].
Qed.

(** X23. The counts of an operation record, under HiGHSDEV: a row of
    operations of one kind, each recorded before and after, ends
    normally when the kind is within the array, writes the record of
    that kind only, counts every operation once, and never counts more
    hyper-sparse operations or hyper-sparse results than operations, as
    long as the count of operations stays an [int]. *)
Theorem hyper_sparse_counts_within_calls
        (numRow : Z) (k : nat) (calls : list (Z * double * Z))
        (AnIterOp : list AnIterOpRec) (r : AnIterOpRec) :
  nth_error AnIterOp k = Some r ->
  0 <= AnIterOpNumHyperOp r <= AnIterOpNumCa r ->
  0 <= AnIterOpNumHyperRs r <= AnIterOpNumCa r ->
  AnIterOpNumCa r + Z.of_nat (length calls) <= Int.max_int ->
  exists r',
    operations_recorded hyperRESULT log_finite numRow (Z.of_nat k) calls AnIterOp
    = Done (list_set AnIterOp k r') /\
    AnIterOpNumCa r' = AnIterOpNumCa r + Z.of_nat (length calls) /\
    0 <= AnIterOpNumHyperOp r' <= AnIterOpNumCa r' /\
    0 <= AnIterOpNumHyperRs r' <= AnIterOpNumCa r'.
Proof.
  intros Hr Hop Hrs Hmax.
  destruct (operations_recorded_Done numRow k calls AnIterOp r Hr)
    as [r' [E [_ [_ H]]]].
  exists r'. split; [exact E|]. now apply H.
Qed.

(** X24. The largest result of an operation record, under HiGHSDEV:
    after a row of operations [AnIterOpRsMxNNZ] is the largest of its
    value before and of the counts of the results, so it is at least
    every one of them; the dimension of the results is not written. *)
Theorem largest_result_is_recorded
        (numRow : Z) (k : nat) (calls : list (Z * double * Z))
        (AnIterOp : list AnIterOpRec) (r : AnIterOpRec) :
  nth_error AnIterOp k = Some r ->
  exists r',
    operations_recorded hyperRESULT log_finite numRow (Z.of_nat k) calls AnIterOp
    = Done (list_set AnIterOp k r') /\
    AnIterOpRsMxNNZ r <= AnIterOpRsMxNNZ r' /\
    (forall c, In c calls -> snd c <= AnIterOpRsMxNNZ r') /\
    (AnIterOpRsMxNNZ r' = AnIterOpRsMxNNZ r \/
     exists c, In c calls /\ AnIterOpRsMxNNZ r' = snd c) /\
    AnIterOpRsDim r' = AnIterOpRsDim r.
Proof.
  intros Hr.
  destruct (operations_recorded_Done numRow k calls AnIterOp r Hr)
    as [r' [E [H4 [H5 _]]]].
  exists r'. split; [exact E|]. rewrite H4.
  assert (G : forall m,
             m <= fold_left (fun m c => Z.max m (snd c)) calls m /\
             (forall c, In c calls ->
                snd c <= fold_left (fun m c => Z.max m (snd c)) calls m) /\
             (fold_left (fun m c => Z.max m (snd c)) calls m = m \/
              exists c, In c calls /\
                fold_left (fun m c => Z.max m (snd c)) calls m = snd c)).
  { clear. induction calls as [|c calls IH]; intros m; simpl.
    - split; [lia|]. split; [intros c []|now left].
    - destruct (IH (Z.max m (snd c))) as [I1 [I2 I3]].
      split; [lia|]. split.
      + intros c' [<-|Hin]; [lia|now apply I2].
      + destruct I3 as [I3|[c' [Hin I3]]].
        * rewrite I3. destruct (Z.max_spec m (snd c)) as [[_ ->]|[_ ->]];
            [right; exists c; auto|now left].
        * right. exists c'. auto. }
  destruct (G (AnIterOpRsMxNNZ r)) as [G1 [G2 G3]]. auto.
Qed.
End OperationRecordFacts.

Lemma hyper_sparse_counts_within_calls_witness :
  exists r',
    operations_recorded (decimal 10 100) log_table 10 1
      [(1, decimal 1 100, 2); (8, decimal 50 100, 9)]
      [fresh_record 10; fresh_record 10]
    = Done (list_set [fresh_record 10; fresh_record 10] 1 r') /\
    Analysis.AnIterOpNumCa r' = 0 + 2 /\
    0 <= Analysis.AnIterOpNumHyperOp r' <= Analysis.AnIterOpNumCa r' /\
    0 <= Analysis.AnIterOpNumHyperRs r' <= Analysis.AnIterOpNumCa r'.
Proof.
  apply (hyper_sparse_counts_within_calls (decimal 10 100) log_table 10 1
           [(1, decimal 1 100, 2); (8, decimal 50 100, 9)]
           [fresh_record 10; fresh_record 10] (fresh_record 10)).
  - reflexivity.
  - vm_compute. split; discriminate.
  - vm_compute. split; discriminate.
  - vm_compute. discriminate.
Defined.

Lemma largest_result_is_recorded_witness :
  exists r',
    operations_recorded (decimal 10 100) log_table 10 1
      [(1, decimal 1 100, 2); (8, decimal 50 100, 9)]
      [fresh_record 10; fresh_record 10]
    = Done (list_set [fresh_record 10; fresh_record 10] 1 r') /\
    9 <= Analysis.AnIterOpRsMxNNZ r'.
Proof.
  destruct (largest_result_is_recorded (decimal 10 100) log_table 10 1
              [(1, decimal 1 100, 2); (8, decimal 50 100, 9)]
              [fresh_record 10; fresh_record 10] (fresh_record 10)
              eq_refl)
    as [r' [E [_ [H _]]]].
  exists r'. split; [exact E|].
  apply (H (8, decimal 50 100, 9)). right. left. reflexivity.
Defined.
